(** * gemini-cli: request construction, key store and response shaping

    A shallow embedding of the Go sources (main.go, api.go and the three
    unnamed files holding the command handlers, the key store and the
    file-argument resolver), followed by the properties of the
    specification that are stated about them.

    Conventions of the embedding:
    - a Go [string] is a [string] of Rocq (a sequence of bytes);
    - a Go [error] is the text of its message ([fmt.Errorf] builds it by
      concatenation), so that "the message contains ..." can be stated;
    - [int] is [Z] (no arithmetic is done on the values, they are only
      compared with 0 and copied), [float64] is [spec_float];
    - a pointer field that may be nil is an [option];
    - functions that touch the file system, the network or the standard
      streams run in a state-and-error monad over [World];
    - parts of the Go standard library that the program only calls
      (URL parsing, content sniffing, the JSON codec, the Unicode case
      tables) are fields of the class [GoLib]. *)

From Stdlib Require Import ZArith String Ascii List Lia Bool DecimalString.
From Stdlib Require Import Floats.SpecFloat.
From stdpp Require Import base option gmap strings list.

Open Scope string_scope.
Open Scope Z_scope.

(** ** Results and errors *)

Definition error := string.

Definition isErr {E A} (r : E + A) : bool :=
  match r with inl _ => true | inr _ => false end.

(** ** Byte helpers *)

Definition byte_of (c : ascii) : Z := Z.of_N (N_of_ascii c).
Definition ascii_of (z : Z) : ascii := ascii_of_N (Z.to_N z).

Fixpoint str_take (n : nat) (s : string) : string :=
  match n, s with
  | S n', String c s' => String c (str_take n' s')
  | _, _ => ""
  end.

Fixpoint str_drop (n : nat) (s : string) : string :=
  match n, s with
  | S n', String _ s' => str_drop n' s'
  | _, _ => s
  end.

Definition len (s : string) : nat := String.length s.

Fixpoint str_map (f : ascii -> ascii) (s : string) : string :=
  match s with
  | "" => ""
  | String c s' => String (f c) (str_map f s')
  end.

Fixpoint str_forall (p : ascii -> bool) (s : string) : bool :=
  match s with
  | "" => true
  | String c s' => p c && str_forall p s'
  end.

Definition str_eqb (a b : string) : bool := String.eqb a b.

(** ** Package unicode/utf8 *)

Module utf8.
Definition RuneError : Z := 0xFFFD.
Definition RuneSelf : Z := 0x80.
Definition UTFMax : nat := 4.

(** [first] and [acceptRanges]: for a leading byte, the length of the
    sequence and the range allowed for the second byte; [None] for a
    byte that cannot start a multi-byte sequence. *)
Definition first (b : Z) : option (nat * Z * Z) :=
  if (0xC2 <=? b) && (b <=? 0xDF) then Some (2%nat, 0x80, 0xBF)
  else if b =? 0xE0 then Some (3%nat, 0xA0, 0xBF)
  else if (0xE1 <=? b) && (b <=? 0xEC) then Some (3%nat, 0x80, 0xBF)
  else if b =? 0xED then Some (3%nat, 0x80, 0x9F)
  else if (0xEE <=? b) && (b <=? 0xEF) then Some (3%nat, 0x80, 0xBF)
  else if b =? 0xF0 then Some (4%nat, 0x90, 0xBF)
  else if (0xF1 <=? b) && (b <=? 0xF3) then Some (4%nat, 0x80, 0xBF)
  else if b =? 0xF4 then Some (4%nat, 0x80, 0x8F)
  else None.

Definition cont (b : Z) : bool := (0x80 <=? b) && (b <=? 0xBF).

(** [DecodeRuneInString]: the first rune of [s] and its width; an
    invalid or truncated sequence gives [(RuneError, 1)], the empty
    string [(RuneError, 0)]. *)
Definition DecodeRuneInString (s : string) : Z * nat :=
  match s with
  | "" => (RuneError, 0%nat)
  | String c0 t =>
    let s0 := byte_of c0 in
    if s0 <? RuneSelf then (s0, 1%nat)
    else match first s0 with
    | None => (RuneError, 1%nat)
    | Some (sz, lo, hi) =>
      if (len s <? sz)%nat then (RuneError, 1%nat) else
      match t with
      | String c1 t1 =>
        let s1 := byte_of c1 in
        if (s1 <? lo) || (hi <? s1) then (RuneError, 1%nat)
        else if (sz <=? 2)%nat then
          (Z.lor (Z.shiftl (Z.land s0 0x1F) 6) (Z.land s1 0x3F), 2%nat)
        else match t1 with
        | String c2 t2 =>
          let s2 := byte_of c2 in
          if negb (cont s2) then (RuneError, 1%nat)
          else if (sz <=? 3)%nat then
            (Z.lor (Z.lor (Z.shiftl (Z.land s0 0x0F) 12)
                          (Z.shiftl (Z.land s1 0x3F) 6))
                   (Z.land s2 0x3F), 3%nat)
          else match t2 with
          | String c3 _ =>
            let s3 := byte_of c3 in
            if negb (cont s3) then (RuneError, 1%nat)
            else
              (Z.lor (Z.lor (Z.lor (Z.shiftl (Z.land s0 0x07) 18)
                                   (Z.shiftl (Z.land s1 0x3F) 12))
                            (Z.shiftl (Z.land s2 0x3F) 6))
                     (Z.land s3 0x3F), 4%nat)
          | "" => (RuneError, 1%nat)
          end
        | "" => (RuneError, 1%nat)
        end
      | "" => (RuneError, 1%nat)
      end
    end
  end.

Definition RuneStart (b : Z) : bool := negb (Z.land b 0xC0 =? 0x80).

(** The loop of [DecodeLastRuneInString] that walks back from
    [start] to the nearest byte that can start a rune, no further
    than [lim]. *)
Fixpoint backToStart (s : string) (start : nat) (steps : nat) : nat :=
  match steps with
  | O => start
  | S k =>
    match String.get start s with
    | Some c => if RuneStart (byte_of c) then start
                else match start with
                     | O => O
                     | S p => backToStart s p k
                     end
    | None => start
    end
  end.

Definition DecodeLastRuneInString (s : string) : Z * nat :=
  let e := len s in
  match e with
  | O => (RuneError, 0%nat)
  | S start =>
    match String.get start s with
    | None => (RuneError, 0%nat)
    | Some c =>
      let r := byte_of c in
      if r <? RuneSelf then (r, 1%nat)
      else
        let lim := (e - UTFMax)%nat in
        let start' :=
          match start with
          | O => O
          | S p => backToStart s p (start - lim)
          end in
        let '(r', size) := DecodeRuneInString (str_drop start' s) in
        if (start' + size =? e)%nat then (r', size) else (RuneError, 1%nat)
    end
  end.
(** [ValidString]: the string is a sequence of well-formed encodings: no
    position decodes to [RuneError] with width 1. *)
Fixpoint validLoop (fuel : nat) (s : string) : bool :=
  match s with
  | "" => true
  | _ =>
    match fuel with
    | O => false
    | S k =>
      let '(r, size) := DecodeRuneInString s in
      if (r =? RuneError) && (size =? 1)%nat then false
      else validLoop k (str_drop size s)
    end
  end.

Definition ValidString (s : string) : bool := validLoop (len s) s.
End utf8.

(** ** Package unicode *)

Module unicode.
(** [IsSpace]: the Latin-1 cases by hand, then the White_Space table. *)
Definition IsSpace (r : Z) : bool :=
  if r <=? 0xFF then
    (r =? 0x09) || (r =? 0x0A) || (r =? 0x0B) || (r =? 0x0C) || (r =? 0x0D)
    || (r =? 0x20) || (r =? 0x85) || (r =? 0xA0)
  else
    (r =? 0x1680) || ((0x2000 <=? r) && (r <=? 0x200A))
    || (r =? 0x2028) || (r =? 0x2029) || (r =? 0x202F) || (r =? 0x205F)
    || (r =? 0x3000).
End unicode.

(** ** Package strings *)

(** The Unicode case tables are not part of the program: the mapping of
    a string that contains a non-ASCII byte is a parameter. *)
Class UnicodeTables := {
  Map_unicode_ToLower : string -> string
}.

Module strings.
Definition HasPrefix (s prefix : string) : bool := String.prefix prefix s.

Definition TrimPrefix (s prefix : string) : string :=
  if HasPrefix s prefix then str_drop (len prefix) s else s.

(** [Index]: the position of the first instance of [substr] in [s];
    [None] is Go's -1. *)
Fixpoint Index (s substr : string) : option nat :=
  if HasPrefix s substr then Some O
  else match s with
       | "" => None
       | String _ s' => S <$> Index s' substr
       end.

Definition Contains (s substr : string) : bool :=
  match Index s substr with Some _ => true | None => false end.

(** The loop of [genSplit]: cut at the first [n] instances of [sep]. *)
Fixpoint splitLoop (n : nat) (s sep : string) : list string :=
  match n with
  | O => [s]
  | S n' =>
    match Index s sep with
    | None => [s]
    | Some m => str_take m s :: splitLoop n' (str_drop (m + len sep) s) sep
    end
  end.

(** [SplitN s sep n] for [n > 0] and a non-empty [sep]: at most [n]
    substrings, the last one the unsplit remainder. The library first
    caps [n] at [len s + 1]. *)
Definition SplitN (s sep : string) (n : nat) : list string :=
  match Nat.min n (len s + 1) with
  | O => []
  | S k => splitLoop k s sep
  end.

(** [Split s sep] for a non-empty [sep]: the library runs the loop
    [Count s sep] times, after which no instance of [sep] is left; every
    bound at least that large gives the same list, and [len s] is one. *)
Definition Split (s sep : string) : list string := splitLoop (len s) s sep.

(** [TrimLeftFunc] and [TrimRightFunc] decode one rune at a time from
    the left end (from the right end) and stop at the first rune that
    [f] rejects. *)
Fixpoint trimLeftLoop (fuel : nat) (f : Z -> bool) (s : string) : string :=
  match fuel with
  | O => s
  | S k =>
    match s with
    | "" => ""
    | _ => let '(r, size) := utf8.DecodeRuneInString s in
           if f r then trimLeftLoop k f (str_drop size s) else s
    end
  end.

Fixpoint trimRightLoop (fuel : nat) (f : Z -> bool) (s : string) : string :=
  match fuel with
  | O => s
  | S k =>
    match s with
    | "" => ""
    | _ => let '(r, size) := utf8.DecodeLastRuneInString s in
           if f r then trimRightLoop k f (str_take (len s - size) s) else s
    end
  end.

Definition TrimLeftFunc (s : string) (f : Z -> bool) : string :=
  trimLeftLoop (len s) f s.
Definition TrimRightFunc (s : string) (f : Z -> bool) : string :=
  trimRightLoop (len s) f s.
Definition TrimFunc (s : string) (f : Z -> bool) : string :=
  TrimRightFunc (TrimLeftFunc s f) f.

(** [TrimSpace]: the library has a fast path for ASCII bytes and falls
    back on [TrimFunc] with [unicode.IsSpace]; both give this result. *)
Definition TrimSpace (s : string) : string := TrimFunc s unicode.IsSpace.

Definition isASCII (s : string) : bool :=
  str_forall (fun c => byte_of c <? utf8.RuneSelf) s.

Definition lowerByte (c : ascii) : ascii :=
  let b := byte_of c in
  if (0x41 <=? b) && (b <=? 0x5A) then ascii_of (b + 0x20) else c.

(** [ToLower]: an ASCII-only string is mapped byte by byte; any other
    string goes through [strings.Map(unicode.ToLower, s)], which is
    driven by the Unicode tables. *)
Definition ToLower {tables : UnicodeTables} (s : string) : string :=
  if isASCII s then str_map lowerByte s else Map_unicode_ToLower s.
End strings.

(** ** Package strconv (decimal rendering, as [%d] and [Itoa] give it) *)

Module strconv.
Definition Itoa (n : nat) : string := NilZero.string_of_uint (Nat.to_uint n).
End strconv.

(** ** Package encoding/base64, [StdEncoding]

    The RFC 4648 alphabet with ['='] padding. The decoder is the
    library's [decodeQuantum] loop: carriage returns and line feeds are
    skipped wherever they occur, the input must otherwise consist of
    groups of four alphabet characters, the last of which may end in one
    or two padding characters, and nothing but line breaks may follow the
    padding. The decoder is not in strict mode: the unused low bits of a
    padded group are not examined. *)

Module base64.
Definition CorruptInputError (offset : nat) : error :=
  "illegal base64 data at input byte " +:+ strconv.Itoa offset.

Definition decodeMap (c : ascii) : option Z :=
  let b := byte_of c in
  if (0x41 <=? b) && (b <=? 0x5A) then Some (b - 0x41)
  else if (0x61 <=? b) && (b <=? 0x7A) then Some (b - 0x61 + 26)
  else if (0x30 <=? b) && (b <=? 0x39) then Some (b - 0x30 + 52)
  else if b =? 0x2B then Some 62
  else if b =? 0x2F then Some 63
  else None.

Definition isNewline (c : ascii) : bool :=
  (byte_of c =? 0x0A) || (byte_of c =? 0x0D).

Definition isPad (c : ascii) : bool := byte_of c =? 0x3D.

(** The value of a (possibly short) group of 6-bit digits, as the 24-bit
    word [dbuf[0]<<18 | dbuf[1]<<12 | dbuf[2]<<6 | dbuf[3]]. *)
Definition quantum (dbuf : list Z) : Z :=
  Z.lor (Z.lor (Z.lor (Z.shiftl (nth 0 dbuf 0) 18) (Z.shiftl (nth 1 dbuf 0) 12))
               (Z.shiftl (nth 2 dbuf 0) 6))
        (nth 3 dbuf 0).

(** The [dlen - 1] bytes that a group of [dlen] digits decodes to. *)
Definition quantumBytes (dbuf : list Z) : string :=
  let val := quantum dbuf in
  let b0 := ascii_of (Z.land (Z.shiftr val 16) 0xFF) in
  let b1 := ascii_of (Z.land (Z.shiftr val 8) 0xFF) in
  let b2 := ascii_of (Z.land val 0xFF) in
  str_take (length dbuf - 1) (String b0 (String b1 (String b2 ""))).

Fixpoint skipNewlines (s : string) (si : nat) : string * nat :=
  match s with
  | String c s' => if isNewline c then skipNewlines s' (S si) else (s, si)
  | "" => (s, si)
  end.

(** After the padding of the last group: only line breaks may remain. *)
Definition afterPadding (rest : string) (si : nat) (dst : string)
    (dbuf : list Z) : error + string :=
  let '(rest', si') := skipNewlines rest si in
  match rest' with
  | "" => inr (dst +:+ quantumBytes dbuf)
  | _ => inl (CorruptInputError si')
  end.

(** [decodeLoop src si dbuf dst]: [src] is the input still to be read,
    [si] its offset in the whole input, [dbuf] the digits of the current
    group and [dst] the bytes decoded so far. *)
Fixpoint decodeLoop (src : string) (si : nat) (dbuf : list Z) (dst : string)
    : error + string :=
  match src with
  | "" =>
    match dbuf with
    | [] => inr dst
    | _ => inl (CorruptInputError (si - length dbuf))
    end
  | String c src' =>
    match decodeMap c with
    | Some out =>
      let dbuf' := (dbuf ++ [out])%list in
      if (length dbuf' =? 4)%nat
      then decodeLoop src' (S si) [] (dst +:+ quantumBytes dbuf')
      else decodeLoop src' (S si) dbuf' dst
    | None =>
      if isNewline c then decodeLoop src' (S si) dbuf dst
      else if negb (isPad c) then inl (CorruptInputError si)
      else
        match length dbuf with
        | 0%nat | 1%nat => inl (CorruptInputError si)
        | 2%nat =>
          let '(rest, si2) := skipNewlines src' (S si) in
          match rest with
          | "" => inl (CorruptInputError si2)
          | String c2 rest2 =>
            if negb (isPad c2) then inl (CorruptInputError (si2 - 1))
            else afterPadding rest2 (S si2) dst dbuf
          end
        | _ => afterPadding src' (S si) dst dbuf
        end
    end
  end.

Definition DecodeString (s : string) : error + string := decodeLoop s 0 [] "".

Definition encodeStd : string :=
  "ABCDEFGHIJKLMNOPQRSTUVWXYZabcdefghijklmnopqrstuvwxyz0123456789+/".

Definition enc (v : Z) : ascii :=
  match String.get (Z.to_nat (Z.land v 0x3F)) encodeStd with
  | Some c => c
  | None => "A"%char
  end.

Fixpoint EncodeToString (src : string) : string :=
  match src with
  | String a (String b (String c rest)) =>
    let val := Z.lor (Z.lor (Z.shiftl (byte_of a) 16) (Z.shiftl (byte_of b) 8))
                     (byte_of c) in
    String (enc (Z.shiftr val 18)) (String (enc (Z.shiftr val 12))
      (String (enc (Z.shiftr val 6)) (String (enc val) (EncodeToString rest))))
  | String a (String b "") =>
    let val := Z.lor (Z.shiftl (byte_of a) 16) (Z.shiftl (byte_of b) 8) in
    String (enc (Z.shiftr val 18)) (String (enc (Z.shiftr val 12))
      (String (enc (Z.shiftr val 6)) "="))
  | String a "" =>
    let val := Z.shiftl (byte_of a) 16 in
    String (enc (Z.shiftr val 18)) (String (enc (Z.shiftr val 12)) "==")
  | "" => ""
  end.
End base64.

(** [EncodeRune]: the UTF-8 encoding of a rune; a surrogate or a value
    out of range is encoded as [RuneError]. *)
Definition utf8_EncodeRune (r : Z) : string :=
  if (0 <=? r) && (r <=? 0x7F) then String (ascii_of r) ""
  else if (0 <=? r) && (r <=? 0x7FF) then
    String (ascii_of (Z.lor 0xC0 (Z.shiftr r 6)))
      (String (ascii_of (Z.lor 0x80 (Z.land r 0x3F))) "")
  else
    let r := if (r <? 0) || (0x10FFFF <? r) || ((0xD800 <=? r) && (r <=? 0xDFFF))
             then utf8.RuneError else r in
    if r <=? 0xFFFF then
      String (ascii_of (Z.lor 0xE0 (Z.shiftr r 12)))
        (String (ascii_of (Z.lor 0x80 (Z.land (Z.shiftr r 6) 0x3F)))
          (String (ascii_of (Z.lor 0x80 (Z.land r 0x3F))) ""))
    else
      String (ascii_of (Z.lor 0xF0 (Z.shiftr r 18)))
        (String (ascii_of (Z.lor 0x80 (Z.land (Z.shiftr r 12) 0x3F)))
          (String (ascii_of (Z.lor 0x80 (Z.land (Z.shiftr r 6) 0x3F)))
            (String (ascii_of (Z.lor 0x80 (Z.land r 0x3F))) ""))).

(** ** Package encoding/json, as far as the key store uses it

    The encoder of a [Config] value and the decoder into one. The text
    of the decoder's syntax errors is not reproduced. *)

Module json.
Definition bs : string := String (ascii_of 0x5C) "".
Definition quote : string := String (ascii_of 0x22) "".

Definition hex (v : Z) : ascii :=
  match String.get (Z.to_nat (Z.land v 0xF)) "0123456789abcdef" with
  | Some c => c
  | None => "0"%char
  end.

(** [htmlSafeSet]: the ASCII bytes written without an escape. *)
Definition htmlSafe (b : Z) : bool :=
  (0x20 <=? b) && (b <? 0x80)
  && negb ((b =? 0x22) || (b =? 0x26) || (b =? 0x3C) || (b =? 0x3E) || (b =? 0x5C)).

Definition escapeByte (b : Z) : string :=
  if (b =? 0x5C) || (b =? 0x22) then bs +:+ String (ascii_of b) ""
  else if b =? 0x08 then bs +:+ "b"
  else if b =? 0x0C then bs +:+ "f"
  else if b =? 0x0A then bs +:+ "n"
  else if b =? 0x0D then bs +:+ "r"
  else if b =? 0x09 then bs +:+ "t"
  else bs +:+ "u00" +:+ String (hex (Z.shiftr b 4)) (String (hex b) "").

(** The loop of [appendString], with HTML escaping on. *)
Fixpoint appendStringLoop (fuel : nat) (src : string) : string :=
  match fuel with
  | O => ""
  | S k =>
    match src with
    | "" => ""
    | String c rest =>
      let b := byte_of c in
      if b <? utf8.RuneSelf then
        if htmlSafe b then String c (appendStringLoop k rest)
        else escapeByte b +:+ appendStringLoop k rest
      else
        let '(r, size) := utf8.DecodeRuneInString src in
        if (r =? utf8.RuneError) && (size =? 1)%nat then
          bs +:+ "ufffd" +:+ appendStringLoop k (str_drop size src)
        else if (r =? 0x2028) || (r =? 0x2029) then
          bs +:+ "u202" +:+ String (hex r) (appendStringLoop k (str_drop size src))
        else str_take size src +:+ appendStringLoop k (str_drop size src)
    end
  end.

Definition appendString (src : string) : string :=
  quote +:+ appendStringLoop (len src) src +:+ quote.

(** [MarshalIndent(config, "", "  ")] for the one-field struct. *)
Definition MarshalIndent_Config (APIKey : string) : string :=
  "{" +:+ String (ascii_of 10) "  " +:+ quote +:+ "api_key" +:+ quote +:+ ": "
  +:+ appendString APIKey +:+ String (ascii_of 10) "}".

(** *** The decoder *)

#[local] Unset Elimination Schemes.
Inductive value :=
  | Null
  | Bool (b : bool)
  | Number (lit : string)
  | Str (s : string)
  | Array (elems : list value)
  | Object (members : list (string * value)).
#[local] Set Elimination Schemes.

Definition isSpace (c : ascii) : bool :=
  let b := byte_of c in (b =? 0x20) || (b =? 0x09) || (b =? 0x0D) || (b =? 0x0A).

Fixpoint skipSpace (s : string) : string :=
  match s with
  | String c r => if isSpace c then skipSpace r else s
  | "" => ""
  end.

Definition hexVal (c : ascii) : option Z :=
  let b := byte_of c in
  if (0x30 <=? b) && (b <=? 0x39) then Some (b - 0x30)
  else if (0x61 <=? b) && (b <=? 0x66) then Some (b - 0x61 + 10)
  else if (0x41 <=? b) && (b <=? 0x46) then Some (b - 0x41 + 10)
  else None.

(** [getu4]: the rune of a [\uXXXX] escape at the head of [s]. *)
Definition getu4 (s : string) : option (Z * string) :=
  match s with
  | String c0 (String c1 (String h3 (String h2 (String h1 (String h0 r))))) =>
    if (byte_of c0 =? 0x5C) && (byte_of c1 =? 0x75) then
      match hexVal h3, hexVal h2, hexVal h1, hexVal h0 with
      | Some a, Some b, Some c, Some d =>
        Some (Z.lor (Z.lor (Z.lor (Z.shiftl a 12) (Z.shiftl b 8)) (Z.shiftl c 4)) d, r)
      | _, _, _, _ => None
      end
    else None
  | _ => None
  end.

Definition IsSurrogate (r : Z) : bool := (0xD800 <=? r) && (r <? 0xE000).

(** [utf16.DecodeRune]. *)
Definition utf16_DecodeRune (r1 r2 : Z) : Z :=
  if (0xD800 <=? r1) && (r1 <? 0xDC00) && (0xDC00 <=? r2) && (r2 <? 0xE000)
  then Z.lor (Z.shiftl (r1 - 0xD800) 10) (r2 - 0xDC00) + 0x10000
  else utf8.RuneError.

(** A string literal, read after its opening quote: the decoded text
    ([unquote]) and the input after the closing quote. *)
Fixpoint readString (fuel : nat) (s : string) : option (string * string) :=
  match fuel with
  | O => None
  | S k =>
    match s with
    | "" => None
    | String c r =>
      let b := byte_of c in
      if b =? 0x22 then Some ("", r)
      else if b <? 0x20 then None
      else if b =? 0x5C then
        match r with
        | "" => None
        | String e r2 =>
          let eb := byte_of e in
          let simple (out : Z) :=
            '(t, rest) ← readString k r2; Some (String (ascii_of out) t, rest) in
          if (eb =? 0x22) || (eb =? 0x5C) || (eb =? 0x2F) then simple eb
          else if eb =? 0x62 then simple 0x08
          else if eb =? 0x66 then simple 0x0C
          else if eb =? 0x6E then simple 0x0A
          else if eb =? 0x72 then simple 0x0D
          else if eb =? 0x74 then simple 0x09
          else if eb =? 0x75 then
            '(rr, r3) ← getu4 s;
            if IsSurrogate rr then
              match getu4 r3 with
              | Some (rr1, r4) =>
                let dec := utf16_DecodeRune rr rr1 in
                if negb (dec =? utf8.RuneError) then
                  '(t, rest) ← readString k r4; Some (utf8_EncodeRune dec +:+ t, rest)
                else
                  '(t, rest) ← readString k r3;
                  Some (utf8_EncodeRune utf8.RuneError +:+ t, rest)
              | None =>
                '(t, rest) ← readString k r3;
                Some (utf8_EncodeRune utf8.RuneError +:+ t, rest)
              end
            else
              '(t, rest) ← readString k r3; Some (utf8_EncodeRune rr +:+ t, rest)
          else None
        end
      else if b <? utf8.RuneSelf then
        '(t, rest) ← readString k r; Some (String c t, rest)
      else
        let '(rr, size) := utf8.DecodeRuneInString s in
        '(t, rest) ← readString k (str_drop size s);
        Some (utf8_EncodeRune rr +:+ t, rest)
    end
  end.

Definition isDigit (c : ascii) : bool := (0x30 <=? byte_of c) && (byte_of c <=? 0x39).

Fixpoint skipDigits (s : string) : string :=
  match s with
  | String c r => if isDigit c then skipDigits r else s
  | "" => ""
  end.

(** One or more digits. *)
Definition digits1 (s : string) : option string :=
  match s with
  | String c r => if isDigit c then Some (skipDigits r) else None
  | "" => None
  end.

(** A number literal: the input after it. *)
Definition readNumber (s : string) : option string :=
  let s := match s with
           | String c r => if byte_of c =? 0x2D then r else s
           | "" => s
           end in
  s ← match s with
      | String c r =>
        if byte_of c =? 0x30 then Some r
        else if isDigit c then Some (skipDigits r) else None
      | "" => None
      end;
  s ← match s with
      | String c r => if byte_of c =? 0x2E then digits1 r else Some s
      | "" => Some s
      end;
  match s with
  | String c r =>
    if (byte_of c =? 0x65) || (byte_of c =? 0x45) then
      match r with
      | String g r' =>
        if (byte_of g =? 0x2B) || (byte_of g =? 0x2D) then digits1 r' else digits1 r
      | "" => None
      end
    else Some s
  | "" => Some s
  end.

Definition expect (lit : string) (s : string) : option string :=
  if strings.HasPrefix s lit then Some (str_drop (len lit) s) else None.

(** One value at the head of the input (after white space), and the
    input after it. *)
Fixpoint readValue (fuel : nat) (s : string) : option (value * string) :=
  match fuel with
  | O => None
  | S k =>
    let s := skipSpace s in
    match s with
    | "" => None
    | String c r =>
      let b := byte_of c in
      if b =? 0x7B then
        let r := skipSpace r in
        match r with
        | String c' r' =>
          if byte_of c' =? 0x7D then Some (Object [], r')
          else '(ms, rest) ← readMembers k r; Some (Object ms, rest)
        | "" => None
        end
      else if b =? 0x5B then
        let r := skipSpace r in
        match r with
        | String c' r' =>
          if byte_of c' =? 0x5D then Some (Array [], r')
          else '(vs, rest) ← readElems k r; Some (Array vs, rest)
        | "" => None
        end
      else if b =? 0x22 then
        '(t, rest) ← readString (len r) r; Some (Str t, rest)
      else if b =? 0x74 then rest ← expect "true" s; Some (Bool true, rest)
      else if b =? 0x66 then rest ← expect "false" s; Some (Bool false, rest)
      else if b =? 0x6E then rest ← expect "null" s; Some (Null, rest)
      else
        rest ← readNumber s;
        Some (Number (str_take (len s - len rest) s), rest)
    end
  end
with readElems (fuel : nat) (s : string) : option (list value * string) :=
  match fuel with
  | O => None
  | S k =>
    '(v, rest) ← readValue k s;
    match skipSpace rest with
    | String c r =>
      if byte_of c =? 0x2C then
        '(vs, rest') ← readElems k r; Some (v :: vs, rest')
      else if byte_of c =? 0x5D then Some ([v], r)
      else None
    | "" => None
    end
  end
with readMembers (fuel : nat) (s : string) : option (list (string * value) * string) :=
  match fuel with
  | O => None
  | S k =>
    match skipSpace s with
    | String q r =>
      if byte_of q =? 0x22 then
        '(key, rest) ← readString (len r) r;
        match skipSpace rest with
        | String c r1 =>
          if byte_of c =? 0x3A then
            '(v, rest1) ← readValue k r1;
            match skipSpace rest1 with
            | String c2 r2 =>
              if byte_of c2 =? 0x2C then
                '(ms, rest2) ← readMembers k r2; Some ((key, v) :: ms, rest2)
              else if byte_of c2 =? 0x7D then Some ([(key, v)], r2)
              else None
            | "" => None
            end
          else None
        | "" => None
        end
      else None
    | "" => None
    end
  end.

(** The whole input must be one value between optional white space. *)
Definition parse (data : string) : option value :=
  '(v, rest) ← readValue (S (len data)) data;
  match skipSpace rest with
  | "" => Some v
  | _ => None
  end.

(** [foldName] on a key: ASCII letters to upper case, and the two
    non-ASCII runes that fold to an ASCII letter (U+017F to S, U+212A
    to K). *)
Fixpoint foldName (s : string) : string :=
  match s with
  | "" => ""
  | String c r =>
    let b := byte_of c in
    let plain := String (if (0x61 <=? b) && (b <=? 0x7A) then ascii_of (b - 0x20) else c)
                        (foldName r) in
    match r with
    | String c1 r1 =>
      if (b =? 0xC5) && (byte_of c1 =? 0xBF) then String "S" (foldName r1)
      else
        match r1 with
        | String c2 r2 =>
          if (b =? 0xE2) && (byte_of c1 =? 0x84) && (byte_of c2 =? 0xAA)
          then String "K" (foldName r2) else plain
        | "" => plain
        end
    | "" => plain
    end
  end.

Definition kindName (v : value) : string :=
  match v with
  | Null => "null" | Bool _ => "bool" | Number _ => "number"
  | Str _ => "string" | Array _ => "array" | Object _ => "object"
  end.

(** The members of an object stored into the struct: a member whose key
    folds to the field's name sets the field if its value is a string,
    leaves it if the value is null, and is a type error otherwise; the
    first error is the one reported, after all members are read. *)
Fixpoint storeMembers (ms : list (string * value)) (APIKey : string)
    (saved : option error) : error + string :=
  match ms with
  | [] => match saved with Some e => inl e | None => inr APIKey end
  | (key, v) :: rest =>
    if (foldName key =? "API_KEY")%string then
      match v with
      | Str t => storeMembers rest t saved
      | Null => storeMembers rest APIKey saved
      | _ =>
        let e := "json: cannot unmarshal " +:+ kindName v
                 +:+ " into Go struct field Config.api_key of type string" in
        storeMembers rest APIKey (Some (default e saved))
      end
    else storeMembers rest APIKey saved
  end.

(** [Unmarshal(data, &config)] for a zero [config]: the key it holds
    after the call. *)
Definition Unmarshal_Config (data : string) : error + string :=
  match parse data with
  | None => inl "json: syntax error"
  | Some (Object ms) => storeMembers ms "" None
  | Some Null => inr ""
  | Some v =>
    inl ("json: cannot unmarshal " +:+ kindName v
         +:+ " into Go value of type main.Config")
  end.
End json.

(** ** Package path/filepath *)

Module filepath.
Section WithSeparator.
Variable PathSeparator : ascii.

(** [os.IsPathSeparator]: the slash everywhere, and the backslash where
    it is the platform's separator. *)
Definition IsPathSeparator (c : ascii) : bool :=
  (byte_of c =? 0x2F) || ((byte_of PathSeparator =? 0x5C) && (byte_of c =? 0x5C)).

(** [Ext]: the suffix beginning at the final dot in the final element of
    the path, empty if there is no dot. [cur] is the candidate seen so far
    while reading from the left. *)
Fixpoint extFrom (path cur : string) : string :=
  match path with
  | "" => cur
  | String c rest =>
    if IsPathSeparator c then extFrom rest ""
    else if byte_of c =? 0x2E then extFrom rest path
    else extFrom rest cur
  end.

Definition Ext (path : string) : string := extFrom path "".
End WithSeparator.
End filepath.

(** * The program's types *)

(** ** api.go: request structures *)

Definition float64 := spec_float.

(** [x >= y] on [float64]: false as soon as one side is a NaN. *)
Definition float64_ge (x y : float64) : bool :=
  match SFcompare x y with
  | Some Gt | Some Eq => true
  | _ => false
  end.

Definition float64_lt (x y : float64) : bool := SFltb x y.

Definition float64_zero : float64 := S754_zero false.

(** The literal 0.7: the binary64 number nearest to it,
    0x1.6666666666666p-1. *)
Definition float64_0_7 : float64 := S754_finite false 0x16666666666666 (-53).

Module TextPart.
Record t := mk { Text : string }.
End TextPart.

Module InlinePart.
Record t := mk { MIMEType : string; Data : string }.
End InlinePart.

Module Part.
Record t := mk { Text : option string; InlineData : option InlinePart.t }.
End Part.

Module Content.
Record t := mk { Role : string; Parts : list Part.t }.
End Content.

Module SystemInstruction.
Record t := mk { Parts : list TextPart.t }.
End SystemInstruction.

Module SafetySetting.
Record t := mk { Category : string; Threshold : string }.
End SafetySetting.

Module DynamicRetrievalConfig.
Record t := mk { Mode : string; DynamicThreshold : option float64 }.
Definition zero : t := mk "" None.
Definition set_Mode (v : string) (c : t) : t := mk v (DynamicThreshold c).
Definition set_DynamicThreshold (v : float64) (c : t) : t := mk (Mode c) (Some v).
End DynamicRetrievalConfig.

Module GoogleSearchRetrievalConfig.
Record t := mk { DynamicRetrievalConfig : option DynamicRetrievalConfig.t }.
Definition zero : t := mk None.
End GoogleSearchRetrievalConfig.

(** The two object-valued tools are pointers to an empty
    [map[string]interface{}]; the map is a [gmap] from keys to raw JSON. *)
Module Tool.
Record t := mk {
  URLContext : option (gmap string string);
  GoogleSearch : option (gmap string string);
  GoogleSearchRetrieval : option GoogleSearchRetrievalConfig.t
}.
Definition zero : t := mk None None None.
End Tool.

Module ThinkingConfig.
Record t := mk { ThinkingBudget : option Z; IncludeThoughts : option bool }.
Definition zero : t := mk None None.
Definition set_ThinkingBudget (v : Z) (c : t) : t := mk (Some v) (IncludeThoughts c).
Definition set_IncludeThoughts (v : bool) (c : t) : t := mk (ThinkingBudget c) (Some v).
End ThinkingConfig.

(** [ResponseSchema] is a [json.RawMessage], a byte slice: [None] is the
    nil slice. *)
Module GenerationConfig.
Record t := mk {
  StopSequences : list string;
  Temperature : option float64;
  MaxOutputTokens : option Z;
  TopP : option float64;
  TopK : option Z;
  ResponseMimeType : option string;
  ResponseSchema : option string;
  ThinkingConfig : option ThinkingConfig.t
}.
Definition zero : t := mk [] None None None None None None None.
Definition set_StopSequences (v : list string) (c : t) : t :=
  mk v (Temperature c) (MaxOutputTokens c) (TopP c) (TopK c)
     (ResponseMimeType c) (ResponseSchema c) (ThinkingConfig c).
Definition set_Temperature (v : float64) (c : t) : t :=
  mk (StopSequences c) (Some v) (MaxOutputTokens c) (TopP c) (TopK c)
     (ResponseMimeType c) (ResponseSchema c) (ThinkingConfig c).
Definition set_MaxOutputTokens (v : Z) (c : t) : t :=
  mk (StopSequences c) (Temperature c) (Some v) (TopP c) (TopK c)
     (ResponseMimeType c) (ResponseSchema c) (ThinkingConfig c).
Definition set_TopP (v : float64) (c : t) : t :=
  mk (StopSequences c) (Temperature c) (MaxOutputTokens c) (Some v) (TopK c)
     (ResponseMimeType c) (ResponseSchema c) (ThinkingConfig c).
Definition set_TopK (v : Z) (c : t) : t :=
  mk (StopSequences c) (Temperature c) (MaxOutputTokens c) (TopP c) (Some v)
     (ResponseMimeType c) (ResponseSchema c) (ThinkingConfig c).
Definition set_ResponseMimeType (v : string) (c : t) : t :=
  mk (StopSequences c) (Temperature c) (MaxOutputTokens c) (TopP c) (TopK c)
     (Some v) (ResponseSchema c) (ThinkingConfig c).
Definition set_ResponseSchema (v : string) (c : t) : t :=
  mk (StopSequences c) (Temperature c) (MaxOutputTokens c) (TopP c) (TopK c)
     (ResponseMimeType c) (Some v) (ThinkingConfig c).
Definition set_ThinkingConfig (v : ThinkingConfig.t) (c : t) : t :=
  mk (StopSequences c) (Temperature c) (MaxOutputTokens c) (TopP c) (TopK c)
     (ResponseMimeType c) (ResponseSchema c) (Some v).
End GenerationConfig.

Module GenerateContentRequest.
Record t := mk {
  SystemInstruction : option SystemInstruction.t;
  Contents : list Content.t;
  Tools : list Tool.t;
  SafetySettings : list SafetySetting.t;
  GenerationConfig : option GenerationConfig.t
}.
Definition zero : t := mk None [] [] [] None.
Definition set_SystemInstruction (v : SystemInstruction.t) (r : t) : t :=
  mk (Some v) (Contents r) (Tools r) (SafetySettings r) (GenerationConfig r).
Definition set_Contents (v : list Content.t) (r : t) : t :=
  mk (SystemInstruction r) v (Tools r) (SafetySettings r) (GenerationConfig r).
Definition set_Tools (v : list Tool.t) (r : t) : t :=
  mk (SystemInstruction r) (Contents r) v (SafetySettings r) (GenerationConfig r).
Definition set_SafetySettings (v : list SafetySetting.t) (r : t) : t :=
  mk (SystemInstruction r) (Contents r) (Tools r) v (GenerationConfig r).
Definition set_GenerationConfig (v : GenerationConfig.t) (r : t) : t :=
  mk (SystemInstruction r) (Contents r) (Tools r) (SafetySettings r) (Some v).
End GenerateContentRequest.

(** ** api.go: response structures *)

Module ModelInfo.
Record t := mk {
  Name : string;
  Version : string;
  DisplayName : string;
  Description : string;
  InputTokenLimit : Z;
  OutputTokenLimit : Z;
  SupportedGenerationMethods : list string;
  Temperature : option float64;
  TopP : option float64;
  TopK : option Z
}.
End ModelInfo.

Module ListModelsResponse.
Record t := mk { Models : list ModelInfo.t }.
Definition zero : t := mk [].
End ListModelsResponse.

(** ** main.go: parsed command-line input *)

Module ParsedPart.
(** The field [Type] of the source is [Type_]: [Type] is a keyword. *)
Record t := mk { Type_ : string; Value : string }.
End ParsedPart.

Module GenerationConfigInput.
Record t := mk {
  Temperature : float64;
  MaxOutputTokens : Z;
  TopP : float64;
  TopK : Z;
  StopSequence : string;
  ResponseMimeType : string;
  ResponseSchemaFileOrJSON : string;
  ThinkingBudget : Z;
  IncludeThoughts : bool
}.
End GenerationConfigInput.

Module ToolsInput.
Record t := mk {
  EnableURLContext : bool;
  EnableGoogleSearch : bool;
  EnableGoogleSearchRetrieval : bool;
  GoogleSearchRetrievalMode : string;
  GoogleSearchRetrievalThreshold : float64
}.
End ToolsInput.

(** ** The key store's file and the list-models output *)

Module Config.
Record t := mk { APIKey : string }.
Definition zero : t := mk "".
End Config.

Module ModelOutputInfo.
Record t := mk {
  Name : string;
  DisplayName : string;
  Version : string;
  InputTokenLimit : Z;
  OutputTokenLimit : Z;
  SupportedGenerationMethods : list string;
  SupportedForTextOutput : string
}.
End ModelOutputInfo.

(** * The world outside the program *)

(** ** The file system, the network and the standard streams *)

(** The file system is a finite map from paths to nodes. A node carries
    the mode it was created with; access rights are not enforced and the
    parents of a path are not tracked. *)
Inductive node :=
  | File (perm : Z) (data : string)
  | Dir (perm : Z).

Module url.
Record URL := mkURL { Path : string }.
End url.

Module http.
Record Request := mkRequest {
  Method : string;
  URL : string;
  ContentType : string;
  Body : option string
}.

(** [RespBody] is what [io.ReadAll] returns on the body of the response. *)
Record Response := mkResponse {
  Status : string;
  StatusCode : Z;
  RespContentType : string;
  RespBody : error + string
}.

Definition StatusOK : Z := 200.
End http.

(** The world: the answer of [os.UserConfigDir], the file system, the
    remote side of the network (one answer per request), what has been
    written to the two standard streams, and the requests sent so far. *)
Record World := mkWorld {
  UserConfigDir : error + string;
  fs : gmap string node;
  remote : http.Request -> error + http.Response;
  stdout : list string;
  stderr : list string;
  sent : list http.Request
}.

Definition set_fs (f : gmap string node) (w : World) : World :=
  mkWorld (UserConfigDir w) f (remote w) (stdout w) (stderr w) (sent w).
Definition add_stdout (s : string) (w : World) : World :=
  mkWorld (UserConfigDir w) (fs w) (remote w) (stdout w ++ [s])%list (stderr w) (sent w).
Definition add_stderr (s : string) (w : World) : World :=
  mkWorld (UserConfigDir w) (fs w) (remote w) (stdout w) (stderr w ++ [s])%list (sent w).
Definition add_sent (r : http.Request) (w : World) : World :=
  mkWorld (UserConfigDir w) (fs w) (remote w) (stdout w) (stderr w) (sent w ++ [r])%list.

(** ** The library functions the program only calls *)

(** [url_Parse] gives the parsed URL, of which the program reads the
    path only; [strconv_Quote] is the [%q] rendering of a string; the
    four JSON functions are [json.Marshal], [json.MarshalIndent] and
    [json.Unmarshal] at the types the program uses them at. The text of
    an error that such a function returns is whatever the instance
    returns. *)
Class GoLib := {
  GoLib_unicode :: UnicodeTables;
  os_PathSeparator : ascii;
  filepath_Join : string -> string -> string;
  url_Parse : string -> error + url.URL;
  strconv_Quote : string -> string;
  http_DetectContentType : string -> string;
  json_Marshal_GenerateContentRequest : GenerateContentRequest.t -> error + string;
  json_Unmarshal_ListModelsResponse : string -> error + ListModelsResponse.t;
  json_MarshalIndent_models : list ModelOutputInfo.t -> error + string;
  json_MarshalIndent_Config : Config.t -> error + string;
  json_Unmarshal_Config : string -> error + Config.t
}.

(** ** The state-and-error monad *)

Definition M (E A : Type) : Type := World -> (E + A) * World.

#[export] Instance M_ret {E} : MRet (M E) := fun A a w => (inr a, w).
#[export] Instance M_bind {E} : MBind (M E) := fun A B k m w =>
  match m w with
  | (inl e, w') => (inl e, w')
  | (inr a, w') => k a w'
  end.

Definition fail {E A} (e : E) : M E A := fun w => (inl e, w).

(** [try m] runs [m] and hands its result, error or value, to the caller:
    the Go idiom [v, err := f(...)]. *)
Definition try {E E' A} (m : M E A) : M E' (E + A) :=
  fun w => let '(r, w') := m w in (inr r, w').

Definition nl : string := String (ascii_of 10) "".
Definition dq : string := String (ascii_of 34) "".

(** ** Packages os, fmt and net/http over the world *)

Module os.
Inductive errno := ENOENT | EISDIR | ENOTDIR.

Record PathError := mkPathError { Op : string; Path : string; Err : errno }.

Definition errnoText (e : errno) : string :=
  match e with
  | ENOENT => "no such file or directory"
  | EISDIR => "is a directory"
  | ENOTDIR => "not a directory"
  end.

Definition Error (e : PathError) : error :=
  Op e +:+ " " +:+ Path e +:+ ": " +:+ errnoText (Err e).

Definition IsNotExist (err : option PathError) : bool :=
  match err with
  | Some e => match Err e with ENOENT => true | _ => false end
  | None => false
  end.

(** [Stat] gives the error only; the program ignores the file info. *)
Definition Stat {E} (name : string) : M E (option PathError) := fun w =>
  match fs w !! name with
  | Some _ => (inr None, w)
  | None => (inr (Some (mkPathError "stat" name ENOENT)), w)
  end.

Definition ReadFile (name : string) : M PathError string := fun w =>
  match fs w !! name with
  | Some (File _ data) => (inr data, w)
  | Some (Dir _) => (inl (mkPathError "read" name EISDIR), w)
  | None => (inl (mkPathError "open" name ENOENT), w)
  end.

(** [WriteFile] creates the file with [perm] or truncates an existing
    one, whose mode it keeps. *)
Definition WriteFile (name data : string) (perm : Z) : M PathError unit := fun w =>
  match fs w !! name with
  | Some (Dir _) => (inl (mkPathError "open" name EISDIR), w)
  | Some (File perm' _) => (inr tt, set_fs (<[name := File perm' data]> (fs w)) w)
  | None => (inr tt, set_fs (<[name := File perm data]> (fs w)) w)
  end.

Definition MkdirAll (path : string) (perm : Z) : M PathError unit := fun w =>
  match fs w !! path with
  | Some (Dir _) => (inr tt, w)
  | Some (File _ _) => (inl (mkPathError "mkdir" path ENOTDIR), w)
  | None => (inr tt, set_fs (<[path := Dir perm]> (fs w)) w)
  end.

Definition GetUserConfigDir {E} : M E (error + string) := fun w =>
  (inr (UserConfigDir w), w).

(** [Exit] ends the run with the given status. *)
Definition Exit {A} (code : Z) : M Z A := fail code.
End os.

Module fmt.
Definition Print {E} (s : string) : M E unit := fun w => (inr tt, add_stdout s w).
Definition Println {E} (s : string) : M E unit := Print (s +:+ nl).
Definition Fprint_Stderr {E} (s : string) : M E unit := fun w => (inr tt, add_stderr s w).
Definition Fprintln_Stderr {E} (s : string) : M E unit := Fprint_Stderr (s +:+ nl).
End fmt.

(** The functions of net/http (its types are in [http] above). *)
Module httpc.
Section WithLib.
Context {golib : GoLib}.

Definition isTokenByte (c : ascii) : bool :=
  let b := byte_of c in
  ((0x30 <=? b) && (b <=? 0x39)) || ((0x41 <=? b) && (b <=? 0x5A))
  || ((0x61 <=? b) && (b <=? 0x7A))
  || (strings.Contains "!#$%&'*+-.^_`|~" (String c "")).

Definition validMethod (method : string) : bool :=
  (0 <? len method)%nat && str_forall isTokenByte method.

Definition NewRequest (method url : string) (body : option string)
    : error + http.Request :=
  let method := if (method =? "")%string then "GET" else method in
  if negb (validMethod method)
  then inl ("net/http: invalid method " +:+ strconv_Quote method)
  else match url_Parse url with
       | inl err => inl err
       | inr _ => inr (http.mkRequest method url "" body)
       end.

Definition Header_Set_ContentType (v : string) (req : http.Request) : http.Request :=
  http.mkRequest (http.Method req) (http.URL req) v (http.Body req).

(** [client.Do]: one round trip, recorded in [sent]. *)
Definition Do (req : http.Request) : M error http.Response := fun w =>
  (remote w req, add_sent req w).

Definition Get (url : string) : M error http.Response :=
  match NewRequest "GET" url None with
  | inl err => fail err
  | inr req => Do req
  end.
End WithLib.
End httpc.

(** * The program *)

Section Program.
Context {golib : GoLib}.

Definition baseURL : string := "https://generativelanguage.googleapis.com/v1beta".

(** ** main.go *)

(** The loop of [parseInputParts], two arguments at a time. The length
    check before the loop rules out a last argument without a value. *)
Fixpoint parseInputParts_loop (args : list string) (parts : list ParsedPart.t)
    : error + list ParsedPart.t :=
  match args with
  | partType :: partValue :: rest =>
    if negb (partType =? "text")%string && negb (partType =? "file")%string
    then inl ("invalid part type: " +:+ partType +:+ ". Must be 'text' or 'file'")
    else parseInputParts_loop rest (parts ++ [ParsedPart.mk partType partValue])%list
  | _ => inr parts
  end.

Definition parseInputParts (args : list string) : error + list ParsedPart.t :=
  if negb (length args mod 2 =? 0)%nat
  then inl ("input parts must be in pairs of type and value (e.g., text "
            +:+ dq +:+ "hello" +:+ dq +:+ ")")
  else parseInputParts_loop args [].

(** ** The file-argument resolver *)

Definition readFileOrString (pathOrString : string) : M error string :=
  if strings.HasPrefix pathOrString "@" then
    let filePath := strings.TrimPrefix pathOrString "@" in
    r ← try (os.ReadFile filePath);
    match r with
    | inl err => fail ("failed to read file '" +:+ filePath +:+ "': " +:+ os.Error err)
    | inr data => mret data
    end
  else mret pathOrString.

Definition readFileAsBase64 (filePath : string) : M error (string * string) :=
  r ← try (os.ReadFile filePath);
  match r with
  | inl err => fail ("failed to read file '" +:+ filePath +:+ "': " +:+ os.Error err)
  | inr data =>
    let ext := strings.ToLower (filepath.Ext os_PathSeparator filePath) in
    let mimeType :=
      if (ext =? ".txt")%string then "text/plain"
      else if (ext =? ".json")%string then "application/json"
      else if (ext =? ".jpg")%string || (ext =? ".jpeg")%string then "image/jpeg"
      else if (ext =? ".png")%string then "image/png"
      else if (ext =? ".gif")%string then "image/gif"
      else if (ext =? ".webp")%string then "image/webp"
      else if (ext =? ".heic")%string then "image/heic"
      else if (ext =? ".heif")%string then "image/heif"
      else if (ext =? ".pdf")%string then "application/pdf"
      else if (ext =? ".mp3")%string then "audio/mpeg"
      else if (ext =? ".wav")%string then "audio/wav"
      else if (ext =? ".mp4")%string then "video/mp4"
      else
        let mimeType := http_DetectContentType data in
        if (mimeType =? "application/octet-stream")%string
        then "application/octet-stream" else mimeType in
    let base64Data := base64.EncodeToString data in
    mret (mimeType, base64Data)
  end.

(** In [readURLAsBase64] the URL is parsed a second time and the error of
    that parse is dropped; [http.Get] has parsed the same string before,
    so the nil URL that an error would leave behind is never used. The
    embedding keeps the branch and names it. *)
Definition readURLAsBase64 (fileURL : string) : M error (string * string) :=
  r ← try (httpc.Get fileURL);
  match r with
  | inl err => fail ("failed to fetch URL '" +:+ fileURL +:+ "': " +:+ err)
  | inr resp =>
    if negb (http.StatusCode resp =? http.StatusOK)
    then fail ("failed to fetch URL '" +:+ fileURL +:+ "': status " +:+ http.Status resp)
    else
      match http.RespBody resp with
      | inl err =>
        fail ("failed to read response body from URL '" +:+ fileURL +:+ "': " +:+ err)
      | inr data =>
        let mimeType := http.RespContentType resp in
        r ←
          (if (mimeType =? "")%string || (mimeType =? "application/octet-stream")%string
              || negb (strings.Contains mimeType "/")
           then
             match url_Parse fileURL with
             | inl _ => fail "panic: runtime error: invalid memory address or nil pointer dereference"
             | inr parsedURL =>
               let ext := strings.ToLower (filepath.Ext os_PathSeparator (url.Path parsedURL)) in
               let pathMime :=
                 if (ext =? ".jpg")%string || (ext =? ".jpeg")%string then "image/jpeg"
                 else if (ext =? ".png")%string then "image/png"
                 else if (ext =? ".gif")%string then "image/gif"
                 else if (ext =? ".webp")%string then "image/webp"
                 else if (ext =? ".pdf")%string then "application/pdf"
                 else if (ext =? ".txt")%string then "text/plain"
                 else "" in
               if negb (pathMime =? "")%string then mret pathMime
               else
                 let detectedMime := http_DetectContentType data in
                 if negb (detectedMime =? "application/octet-stream")%string
                 then mret detectedMime
                 else if (mimeType =? "")%string then mret "application/octet-stream"
                 else mret mimeType
             end
           else mret mimeType);
        let base64Data := base64.EncodeToString data in
        mret (r, base64Data)
      end
  end.

Definition parseDataURI (dataURI : string) : error + (string * string) :=
  let parts := strings.SplitN dataURI "," 2 in
  match parts with
  | [header; base64Data] =>
    if negb (strings.HasPrefix header "data:")
    then inl "invalid data URI format: must start with 'data:'"
    else
      let headerContent := strings.TrimPrefix header "data:" in
      let encodingParts := strings.SplitN headerContent ";" 2 in
      let mimeType := nth 0 encodingParts "" in
      let mimeType := if (mimeType =? "")%string then "text/plain" else mimeType in
      let isBase64Encoded :=
        (1 <? length encodingParts)%nat
        && (strings.ToLower (nth 1 encodingParts "") =? "base64")%string in
      if negb isBase64Encoded
      then inl "data URI not specified as base64 encoded (e.g., data:image/png;base64,...). Only base64 is supported for file data."
      else
        match base64.DecodeString base64Data with
        | inl err => inl ("invalid base64 data in data URI: " +:+ err)
        | inr _ => inr (mimeType, base64Data)
        end
  | _ => inl "invalid data URI format: missing comma separator"
  end.

Definition processFileArgument (arg : string) : M error (string * string) :=
  if strings.HasPrefix arg "@" then
    let filePath := strings.TrimPrefix arg "@" in
    readFileAsBase64 filePath
  else if strings.HasPrefix arg "file://" then
    match url_Parse arg with
    | inl err => fail ("invalid file URI '" +:+ arg +:+ "': " +:+ err)
    | inr parsedURL =>
      let filePath := url.Path parsedURL in
      let filePath :=
        if (byte_of os_PathSeparator =? 0x5C) && strings.HasPrefix filePath "/"
        then strings.TrimPrefix filePath "/" else filePath in
      readFileAsBase64 filePath
    end
  else if strings.HasPrefix arg "http://" || strings.HasPrefix arg "https://" then
    readURLAsBase64 arg
  else if strings.HasPrefix arg "data:" then
    fun w => (parseDataURI arg, w)
  else
    fail ("unsupported file argument format: " +:+ arg
          +:+ ". Use @/path, file://, http(s)://, or data:").

(** ** api.go *)

(** [target] is the pointer the response is decoded into, given as the
    decoder of its type; the result is the decoded value, [None] when no
    target was passed. *)
Definition makeAPIRequest {T} (apiKey method endpointURL : string)
    (body : option string) (target : option (string -> error + T))
    : M error (option T) :=
  let fullURL := baseURL +:+ endpointURL +:+ "?key=" +:+ apiKey in
  match httpc.NewRequest method fullURL body with
  | inl err => fail ("failed to create request: " +:+ err)
  | inr req =>
    let req := httpc.Header_Set_ContentType "application/json" req in
    r ← try (httpc.Do req);
    match r with
    | inl err => fail ("failed to execute request: " +:+ err)
    | inr resp =>
      match http.RespBody resp with
      | inl err => fail ("failed to read response body: " +:+ err)
      | inr responseBody =>
        if negb (http.StatusCode resp =? http.StatusOK)
        then fail ("API error: " +:+ http.Status resp +:+ ", Body: " +:+ responseBody)
        else
          match target with
          | Some unmarshal =>
            match unmarshal responseBody with
            | inl err =>
              fail ("failed to unmarshal response into target: " +:+ err
                    +:+ ". Raw response: " +:+ responseBody)
            | inr v => mret (Some v)
            end
          | None =>
            fmt.Println responseBody;;
            mret None
          end
      end
    end
  end.

(** The loop over the parsed parts. *)
Fixpoint buildParts (parsedParts : list ParsedPart.t) (apiParts : list Part.t)
    : M error (list Part.t) :=
  match parsedParts with
  | [] => mret apiParts
  | p :: rest =>
    if (ParsedPart.Type_ p =? "text")%string then
      let textVal := ParsedPart.Value p in
      buildParts rest (apiParts ++ [Part.mk (Some textVal) None])%list
    else if (ParsedPart.Type_ p =? "file")%string then
      r ← try (processFileArgument (ParsedPart.Value p));
      match r with
      | inl err =>
        fail ("failed to process file argument '" +:+ ParsedPart.Value p +:+ "': " +:+ err)
      | inr (mimeType, data) =>
        buildParts rest
          (apiParts ++ [Part.mk None (Some (InlinePart.mk mimeType data))])%list
      end
    else fail ("unknown parsed part type: " +:+ ParsedPart.Type_ p)
  end.

(** "Populate GenerationConfig": the block and the flag [genCfgChanged]. *)
Definition populateGenerationConfig (genConfigInput : GenerationConfigInput.t)
    : M error (GenerationConfig.t * bool) :=
  let genCfg := GenerationConfig.zero in
  let genCfgChanged := false in
  let '(genCfg, genCfgChanged) :=
    if float64_ge (GenerationConfigInput.Temperature genConfigInput) float64_zero
    then (GenerationConfig.set_Temperature
            (GenerationConfigInput.Temperature genConfigInput) genCfg, true)
    else (genCfg, genCfgChanged) in
  let '(genCfg, genCfgChanged) :=
    if GenerationConfigInput.MaxOutputTokens genConfigInput >=? 0
    then (GenerationConfig.set_MaxOutputTokens
            (GenerationConfigInput.MaxOutputTokens genConfigInput) genCfg, true)
    else (genCfg, genCfgChanged) in
  let '(genCfg, genCfgChanged) :=
    if float64_ge (GenerationConfigInput.TopP genConfigInput) float64_zero
    then (GenerationConfig.set_TopP
            (GenerationConfigInput.TopP genConfigInput) genCfg, true)
    else (genCfg, genCfgChanged) in
  let '(genCfg, genCfgChanged) :=
    if GenerationConfigInput.TopK genConfigInput >=? 0
    then (GenerationConfig.set_TopK
            (GenerationConfigInput.TopK genConfigInput) genCfg, true)
    else (genCfg, genCfgChanged) in
  let '(genCfg, genCfgChanged) :=
    if negb (GenerationConfigInput.StopSequence genConfigInput =? "")%string
    then (GenerationConfig.set_StopSequences
            [GenerationConfigInput.StopSequence genConfigInput] genCfg, true)
    else (genCfg, genCfgChanged) in
  let '(genCfg, genCfgChanged) :=
    if negb (GenerationConfigInput.ResponseMimeType genConfigInput =? "")%string
    then (GenerationConfig.set_ResponseMimeType
            (GenerationConfigInput.ResponseMimeType genConfigInput) genCfg, true)
    else (genCfg, genCfgChanged) in
  '(genCfg, genCfgChanged) ←
    (if negb (GenerationConfigInput.ResponseSchemaFileOrJSON genConfigInput =? "")%string
     then
       r ← try (readFileOrString
                  (GenerationConfigInput.ResponseSchemaFileOrJSON genConfigInput));
       match r with
       | inl err => fail ("failed to read response-schema: " +:+ err)
       | inr schemaContent =>
         mret (GenerationConfig.set_ResponseSchema schemaContent genCfg, true)
       end
     else mret (genCfg, genCfgChanged));
  (* Thinking Config *)
  let thinkingCfg := ThinkingConfig.zero in
  let thinkingCfgChanged := false in
  let '(thinkingCfg, thinkingCfgChanged) :=
    if GenerationConfigInput.ThinkingBudget genConfigInput >=? 0
    then (ThinkingConfig.set_ThinkingBudget
            (GenerationConfigInput.ThinkingBudget genConfigInput) thinkingCfg, true)
    else (thinkingCfg, thinkingCfgChanged) in
  let '(thinkingCfg, thinkingCfgChanged) :=
    if GenerationConfigInput.IncludeThoughts genConfigInput
    then (ThinkingConfig.set_IncludeThoughts
            (GenerationConfigInput.IncludeThoughts genConfigInput) thinkingCfg, true)
    else (thinkingCfg, thinkingCfgChanged) in
  let '(genCfg, genCfgChanged) :=
    if thinkingCfgChanged
    then (GenerationConfig.set_ThinkingConfig thinkingCfg genCfg, true)
    else (genCfg, genCfgChanged) in
  mret (genCfg, genCfgChanged).

(** "Populate Tools". *)
Definition populateTools (toolsInput : ToolsInput.t) : list Tool.t :=
  let tools : list Tool.t := [] in
  let tools :=
    if ToolsInput.EnableURLContext toolsInput
    then (tools ++ [Tool.mk (Some ∅) None None])%list else tools in
  let tools :=
    if ToolsInput.EnableGoogleSearch toolsInput
    then (tools ++ [Tool.mk None (Some ∅) None])%list else tools in
  let tools :=
    if ToolsInput.EnableGoogleSearchRetrieval toolsInput then
      let gsrConfig := GoogleSearchRetrievalConfig.zero in
      let gsrConfigChanged := false in
      let '(gsrConfig, gsrConfigChanged) :=
        if negb (ToolsInput.GoogleSearchRetrievalMode toolsInput =? "")%string
           || float64_ge (ToolsInput.GoogleSearchRetrievalThreshold toolsInput) float64_zero
        then
          let dynConfig := DynamicRetrievalConfig.zero in
          let dynConfigChanged := false in
          let '(dynConfig, dynConfigChanged) :=
            if negb (ToolsInput.GoogleSearchRetrievalMode toolsInput =? "")%string
            then (DynamicRetrievalConfig.set_Mode
                    (ToolsInput.GoogleSearchRetrievalMode toolsInput) dynConfig, true)
            else (dynConfig, dynConfigChanged) in
          let '(dynConfig, dynConfigChanged) :=
            if float64_ge (ToolsInput.GoogleSearchRetrievalThreshold toolsInput) float64_zero
            then (DynamicRetrievalConfig.set_DynamicThreshold
                    (ToolsInput.GoogleSearchRetrievalThreshold toolsInput) dynConfig, true)
            else (dynConfig, dynConfigChanged) in
          if dynConfigChanged
          then (GoogleSearchRetrievalConfig.mk (Some dynConfig), true)
          else (gsrConfig, gsrConfigChanged)
        else (gsrConfig, gsrConfigChanged) in
      if gsrConfigChanged
      then (tools ++ [Tool.mk None None (Some gsrConfig)])%list
      else (tools ++ [Tool.mk None None (Some GoogleSearchRetrievalConfig.zero)])%list
    else tools in
  tools.

(** "Populate Safety Settings": the loop over the comma-separated pairs;
    [settings] is [req.SafetySettings] so far, [pair_] the loop variable
    [pair] of the source. *)
Fixpoint populateSafetySettings (pairs : list string)
    (settings : list SafetySetting.t) : error + list SafetySetting.t :=
  match pairs with
  | [] => inr settings
  | pair_ :: rest =>
    let parts := strings.SplitN (strings.TrimSpace pair_) ":" 2 in
    if (length parts =? 2)%nat then
      let category := strings.TrimSpace (nth 0 parts "") in
      let threshold := strings.TrimSpace (nth 1 parts "") in
      if negb (category =? "")%string && negb (threshold =? "")%string
      then populateSafetySettings rest
             (settings ++ [SafetySetting.mk category threshold])%list
      else inl ("invalid safety setting pair: '" +:+ pair_
                +:+ "'. Must be CATEGORY:THRESHOLD")
    else if negb (strings.TrimSpace pair_ =? "")%string
    then inl ("invalid safety setting format: '" +:+ pair_
              +:+ "'. Must be CATEGORY:THRESHOLD")
    else populateSafetySettings rest settings
  end.

(** The first block of [buildGenerateContentRequest]: the system
    instruction, the content block, and the check that one of them is
    there. *)
Definition buildContents (systemInstructionStr : string)
    (parsedParts : list ParsedPart.t) : M error GenerateContentRequest.t :=
  let req := GenerateContentRequest.zero in
  let req :=
    if negb (systemInstructionStr =? "")%string
    then GenerateContentRequest.set_SystemInstruction
           (SystemInstruction.mk [TextPart.mk systemInstructionStr]) req
    else req in
  if (0 <? length parsedParts)%nat then
    apiParts ← buildParts parsedParts [];
    mret (GenerateContentRequest.set_Contents [Content.mk "" apiParts] req)
  else if (systemInstructionStr =? "")%string then
    fail "at least one input part or system instruction is required"
  else mret req.

Definition buildGenerateContentRequest
    (systemInstructionStr : string)
    (parsedParts : list ParsedPart.t)
    (genConfigInput : GenerationConfigInput.t)
    (toolsInput : ToolsInput.t)
    (safetySettingsStr : string) : M error GenerateContentRequest.t :=
  req ← buildContents systemInstructionStr parsedParts;
  '(genCfg, genCfgChanged) ← populateGenerationConfig genConfigInput;
  let req :=
    if genCfgChanged : bool
    then GenerateContentRequest.set_GenerationConfig genCfg req else req in
  let tools := populateTools toolsInput in
  let req :=
    if (0 <? length tools)%nat
    then GenerateContentRequest.set_Tools tools req else req in
  if negb (safetySettingsStr =? "")%string then
    let pairs := strings.Split safetySettingsStr "," in
    match populateSafetySettings pairs (GenerateContentRequest.SafetySettings req) with
    | inl err => fail err
    | inr settings => mret (GenerateContentRequest.set_SafetySettings settings req)
    end
  else mret req.

(** ** The key store *)

Definition getConfigPath : M error string :=
  r ← os.GetUserConfigDir;
  match r with
  | inl err => fail ("failed to get user config directory: " +:+ err)
  | inr configDir =>
    let appConfigDir := filepath_Join configDir "gemini-cli" in
    r ← try (os.MkdirAll appConfigDir 0x1C0);  (* 0700 *)
    match r with
    | inl err =>
      fail ("failed to create app config directory " +:+ appConfigDir +:+ ": "
            +:+ os.Error err)
    | inr _ => mret (filepath_Join appConfigDir "config.json")
    end
  end.

Definition saveAPIKey (apiKey : string) : M error unit :=
  configPath ← getConfigPath;
  let config := Config.mk apiKey in
  match json_MarshalIndent_Config config with
  | inl err => fail ("failed to marshal config: " +:+ err)
  | inr data =>
    r ← try (os.WriteFile configPath data 0x180);  (* 0600 *)
    match r with
    | inl err =>
      fail ("failed to write config file " +:+ configPath +:+ ": " +:+ os.Error err)
    | inr _ =>
      fmt.Print ("API key saved to " +:+ configPath +:+ nl);;
      mret tt
    end
  end.

Definition loadAPIKey : M error string :=
  configPath ← getConfigPath;
  st ← os.Stat configPath;
  if os.IsNotExist st
  then fail ("config file not found at " +:+ configPath
             +:+ ". Run 'set-config --key YOUR_KEY' first")
  else
    r ← try (os.ReadFile configPath);
    match r with
    | inl err =>
      fail ("failed to read config file " +:+ configPath +:+ ": " +:+ os.Error err)
    | inr data =>
      match json_Unmarshal_Config data with
      | inl err =>
        fail ("failed to unmarshal config from " +:+ configPath +:+ ": " +:+ err)
      | inr config =>
        if (Config.APIKey config =? "")%string
        then fail ("API key not found in config file " +:+ configPath
                   +:+ ". Run 'set-config --key YOUR_KEY'")
        else mret (Config.APIKey config)
      end
    end.

(** ** The command handlers *)

Definition handleSetConfig (apiKey : string) : M Z unit :=
  r ← try (saveAPIKey apiKey);
  match r with
  | inl err =>
    fmt.Fprint_Stderr ("Error saving API key: " +:+ err +:+ nl);;
    os.Exit 1
  | inr _ => mret tt
  end.

Definition handleGenerateContent
    (apiKey modelName systemInstructionStr : string)
    (parsedParts : list ParsedPart.t)
    (genConfigInput : GenerationConfigInput.t)
    (toolsInput : ToolsInput.t)
    (safetySettingsStr : string) : M Z unit :=
  let modelName :=
    if negb (strings.HasPrefix modelName "models/")
    then "models/" +:+ modelName else modelName in
  r ← try (buildGenerateContentRequest systemInstructionStr parsedParts
             genConfigInput toolsInput safetySettingsStr);
  match r with
  | inl err =>
    fmt.Fprint_Stderr ("Error building request: " +:+ err +:+ nl);;
    os.Exit 1
  | inr requestPayload =>
    if (length (GenerateContentRequest.Contents requestPayload) =? 0)%nat
       && bool_decide (GenerateContentRequest.SystemInstruction requestPayload = None)
    then
      fmt.Fprintln_Stderr "Error: Request must contain 'contents' or 'system_instruction'.";;
      os.Exit 1
    else
      match json_Marshal_GenerateContentRequest requestPayload with
      | inl err =>
        fmt.Fprint_Stderr ("Error marshalling request to JSON: " +:+ err +:+ nl);;
        os.Exit 1
      | inr jsonData =>
        let endpoint := "/" +:+ modelName +:+ ":generateContent" in
        r ← try (makeAPIRequest (T := unit) apiKey "POST" endpoint (Some jsonData) None);
        match r with
        | inl err =>
          fmt.Fprint_Stderr ("Error making API request: " +:+ err +:+ nl);;
          os.Exit 1
        | inr _ => mret tt
        end
      end
  end.

(** The inner loop of [handleListModels]: does the list of methods hold
    "generateContent"? *)
Fixpoint supportsGenContent (methods : list string) : bool :=
  match methods with
  | [] => false
  | method :: rest =>
    if (method =? "generateContent")%string then true
    else supportsGenContent rest
  end.

(** The value of [isTextSupported] at the end of one round of the outer
    loop. *)
Definition isTextSupported (m : ModelInfo.t) : string :=
  let isTextSupported := "No" in
  if supportsGenContent (ModelInfo.SupportedGenerationMethods m) then
    let isTextSupported := "Yes" in
    let dnLower := strings.ToLower (ModelInfo.DisplayName m) in
    if strings.Contains dnLower "tts"
       || strings.HasPrefix dnLower "imagen"
       || strings.HasPrefix dnLower "veo"
       || strings.Contains dnLower "embedding"
    then "No (Specialized: Audio/Image/Video/Embedding)"
    else isTextSupported
  else isTextSupported.

Definition processModel (m : ModelInfo.t) : ModelOutputInfo.t :=
  ModelOutputInfo.mk
    (ModelInfo.Name m) (ModelInfo.DisplayName m) (ModelInfo.Version m)
    (ModelInfo.InputTokenLimit m) (ModelInfo.OutputTokenLimit m)
    (ModelInfo.SupportedGenerationMethods m) (isTextSupported m).

Fixpoint processModels (models : list ModelInfo.t)
    (processedModels : list ModelOutputInfo.t) : list ModelOutputInfo.t :=
  match models with
  | [] => processedModels
  | m :: rest => processModels rest (processedModels ++ [processModel m])%list
  end.

Definition handleListModels (apiKey : string) : M Z unit :=
  r ← try (makeAPIRequest apiKey "GET" "/models" None
             (Some json_Unmarshal_ListModelsResponse));
  match r with
  | inl err =>
    fmt.Fprint_Stderr ("Error listing models: " +:+ err +:+ nl);;
    os.Exit 1
  | inr target =>
    let response := default ListModelsResponse.zero target in
    let processedModels := processModels (ListModelsResponse.Models response) [] in
    match json_MarshalIndent_models processedModels with
    | inl err =>
      fmt.Fprint_Stderr ("Error marshalling processed model list: " +:+ err +:+ nl);;
      os.Exit 1
    | inr outputData => fmt.Println outputData
    end
  end.

End Program.

(** ** main.go: the command line

    Package flag is a parameter. What [Parse] makes of the arguments of
    a command is one of three things: the values of the flags and the
    arguments left over; a request for help; or an error. The flag sets
    are created with [flag.ExitOnError], so [Parse] returns in the first
    case only: for help it calls the usage function of the flag set and
    exits with status 0, for an error it prints the error, calls the
    usage function and exits with status 2. [PrintDefaults] writes the
    descriptions of the flags, one write for each. *)

Inductive parseResult (A : Type) :=
  | Parsed (flags : A) (args : list string)
  | HelpRequested
  | ParseError (msg : string).
Arguments Parsed {A} flags args.
Arguments HelpRequested {A}.
Arguments ParseError {A} msg.

(** The flags of the generate command. *)
Module GenerateFlags.
Record t := mk {
  modelName : string;
  systemInstructionStr : string;
  temperature : float64;
  maxOutputTokens : Z;
  topP : float64;
  topK : Z;
  stopSequence : string;
  responseMimeType : string;
  responseSchemaFileOrJSON : string;
  thinkingBudget : Z;
  includeThoughts : bool;
  toolURLContext : bool;
  toolGoogleSearch : bool;
  toolGoogleSearchRetrieval : bool;
  toolGoogleSearchRetrievalMode : string;
  toolGoogleSearchRetrievalThreshold : float64;
  safetySettingsStr : string
}.
End GenerateFlags.

Class FlagLib := {
  generateCmd_parse : list string -> parseResult GenerateFlags.t;
  setConfigCmd_parse : list string -> parseResult string;
  listModelsCmd_parse : list string -> parseResult unit;
  generateCmd_defaults : list string;
  setConfigCmd_defaults : list string;
  listModelsCmd_defaults : list string
}.

Module flag.
Fixpoint PrintDefaults {E} (writes : list string) : M E unit :=
  match writes with
  | [] => mret tt
  | s :: rest => fmt.Fprint_Stderr s;; PrintDefaults rest
  end.

(** The usage function of a flag set that has none of its own. *)
Definition defaultUsage (name : string) (defaults : list string) : M Z unit :=
  fmt.Fprint_Stderr ("Usage of " +:+ name +:+ ":" +:+ nl);;
  PrintDefaults defaults.

Definition Parse {A} (usage : M Z unit) (r : parseResult A) : M Z (A * list string) :=
  match r with
  | Parsed flags args => mret (flags, args)
  | HelpRequested => usage;; os.Exit 0
  | ParseError msg => fmt.Fprintln_Stderr msg;; usage;; os.Exit 2
  end.
End flag.

Section Main.
Context {golib : GoLib} {flaglib : FlagLib}.

(** [Args0] is [os.Args[0]]. *)
Definition printTopLevelHelp (Args0 : string) : M Z unit :=
  fmt.Fprint_Stderr ("Usage: " +:+ Args0 +:+ " <command> [options]" +:+ nl);;
  fmt.Fprintln_Stderr "Commands:";;
  fmt.Fprintln_Stderr "  set-config        Set the Gemini API key";;
  fmt.Fprintln_Stderr "  generate          Generate content using a Gemini model";;
  fmt.Fprintln_Stderr "  list-models       List available Gemini models";;
  fmt.Fprint_Stderr ("Run '" +:+ Args0
                     +:+ " <command> --help' for more information on a command." +:+ nl).

(** [generateCmd.Usage]. *)
Definition generateCmd_Usage (Args0 : string) : M Z unit :=
  fmt.Fprint_Stderr
    ("Usage: " +:+ Args0
     +:+ " generate --model <model_name> [options] [part_type_1 part_value_1 ...]"
     +:+ nl);;
  fmt.Fprintln_Stderr (nl +:+ "Options:");;
  flag.PrintDefaults generateCmd_defaults;;
  fmt.Fprintln_Stderr (nl +:+ "Part Types and Values:");;
  fmt.Fprintln_Stderr ("  text " +:+ dq +:+ "your text string" +:+ dq);;
  fmt.Fprintln_Stderr ("  file " +:+ dq +:+ "@/path/to/local/file" +:+ dq);;
  fmt.Fprintln_Stderr ("  file " +:+ dq +:+ "http(s)://url/to/file" +:+ dq);;
  fmt.Fprintln_Stderr ("  file " +:+ dq +:+ "file:///path/to/local/file" +:+ dq);;
  fmt.Fprintln_Stderr ("  file " +:+ dq +:+ "data:mime/type;base64,ABC..." +:+ dq);;
  fmt.Fprintln_Stderr (nl +:+ "Example:");;
  fmt.Fprint_Stderr
    ("  " +:+ Args0
     +:+ " generate --model models/gemini-1.5-flash-latest text "
     +:+ dq +:+ "Describe this image" +:+ dq +:+ " file "
     +:+ dq +:+ "@/path/to/image.jpg" +:+ dq +:+ nl).

Definition setConfigCmd_Usage : M Z unit :=
  flag.defaultUsage "set-config" setConfigCmd_defaults.

Definition listModelsCmd_Usage : M Z unit :=
  flag.defaultUsage "list-models" listModelsCmd_defaults.

(** The case "set-config" of [main]. *)
Definition main_set_config (args : list string) : M Z unit :=
  '(apiKey, _) ← flag.Parse setConfigCmd_Usage (setConfigCmd_parse args);
  (if (apiKey =? "")%string then
     fmt.Fprintln_Stderr "Error: --key is required for set-config";;
     setConfigCmd_Usage;;
     os.Exit 1
   else mret tt);;
  handleSetConfig apiKey.

(** The case "generate" of [main]. *)
Definition main_generate (Args0 : string) (args : list string) : M Z unit :=
  '(f, rest) ← flag.Parse (generateCmd_Usage Args0) (generateCmd_parse args);
  (if (GenerateFlags.modelName f =? "")%string then
     fmt.Fprintln_Stderr "Error: --model is required for generate";;
     generateCmd_Usage Args0;;
     os.Exit 1
   else mret tt);;
  let genConfigInput :=
    GenerationConfigInput.mk
      (GenerateFlags.temperature f) (GenerateFlags.maxOutputTokens f)
      (GenerateFlags.topP f) (GenerateFlags.topK f)
      (GenerateFlags.stopSequence f) (GenerateFlags.responseMimeType f)
      (GenerateFlags.responseSchemaFileOrJSON f)
      (GenerateFlags.thinkingBudget f) (GenerateFlags.includeThoughts f) in
  let toolsInput :=
    ToolsInput.mk
      (GenerateFlags.toolURLContext f) (GenerateFlags.toolGoogleSearch f)
      (GenerateFlags.toolGoogleSearchRetrieval f)
      (GenerateFlags.toolGoogleSearchRetrievalMode f)
      (GenerateFlags.toolGoogleSearchRetrievalThreshold f) in
  parsedParts ←
    match parseInputParts rest with
    | inl err =>
      fmt.Fprint_Stderr ("Error parsing input parts: " +:+ err +:+ nl);;
      generateCmd_Usage Args0;;
      os.Exit 1
    | inr parsedParts => mret parsedParts
    end;
  (if (length parsedParts =? 0)%nat
      && (GenerateFlags.systemInstructionStr f =? "")%string then
     fmt.Fprintln_Stderr
       "Error: At least one input part (text/file) or system-instruction is required for generate.";;
     generateCmd_Usage Args0;;
     os.Exit 1
   else mret tt);;
  r ← try loadAPIKey;
  match r with
  | inl err =>
    fmt.Fprint_Stderr ("Error loading API key: " +:+ err
                       +:+ ". Please run 'set-config --key YOUR_KEY'." +:+ nl);;
    os.Exit 1
  | inr currentApiKey =>
    handleGenerateContent currentApiKey (GenerateFlags.modelName f)
      (GenerateFlags.systemInstructionStr f) parsedParts genConfigInput toolsInput
      (GenerateFlags.safetySettingsStr f)
  end.

(** The case "list-models" of [main]. *)
Definition main_list_models (args : list string) : M Z unit :=
  _ ← flag.Parse listModelsCmd_Usage (listModelsCmd_parse args);
  r ← try loadAPIKey;
  match r with
  | inl err =>
    fmt.Fprint_Stderr ("Error loading API key: " +:+ err
                       +:+ ". Please run 'set-config --key YOUR_KEY'." +:+ nl);;
    os.Exit 1
  | inr currentApiKey => handleListModels currentApiKey
  end.

(** [main], with [os.Args] as [Args0 :: args]. *)
Definition main (Args0 : string) (args : list string) : M Z unit :=
  match args with
  | [] => printTopLevelHelp Args0;; os.Exit 1
  | command :: rest =>
    if (command =? "set-config")%string then main_set_config rest
    else if (command =? "generate")%string then main_generate Args0 rest
    else if (command =? "list-models")%string then main_list_models rest
    else (printTopLevelHelp Args0;; os.Exit 1)
  end.

End Main.

(** * A library instance and a world to run the program in

    One choice for the parameters of [GoLib], and a small world, on which
    the program can be evaluated. The JSON codec of the key store is the
    model above. The Unicode tables are replaced by the identity, URL
    parsing by a split at the separators, content sniffing by its
    last-resort answer, and the JSON codecs of the request and of the
    model list are left out (they answer with an error). *)

Module sample.
Definition parseURL (rawURL : string) : error + url.URL :=
  if str_forall (fun c => (0x20 <=? byte_of c) && negb (byte_of c =? 0x7F)) rawURL
  then
    let afterScheme :=
      match strings.Index rawURL "://" with
      | Some m => let r := str_drop (m + 3) rawURL in
                  match strings.Index r "/" with
                  | Some n => str_drop n r
                  | None => ""
                  end
      | None => rawURL
      end in
    let path := match strings.Index afterScheme "?" with
                | Some n => str_take n afterScheme
                | None => afterScheme
                end in
    inr (url.mkURL path)
  else inl ("parse " +:+ dq +:+ rawURL +:+ dq
            +:+ ": net/url: invalid control character in URL").

Definition unicode : UnicodeTables := {|
  Map_unicode_ToLower := fun s => s
|}.

Definition lib : GoLib := {|
  GoLib_unicode := unicode;
  os_PathSeparator := "/"%char;
  filepath_Join := fun a b => a +:+ "/" +:+ b;
  url_Parse := parseURL;
  strconv_Quote := fun s => dq +:+ s +:+ dq;
  http_DetectContentType := fun _ => "application/octet-stream";
  json_Marshal_GenerateContentRequest := fun _ => inl "json: encoder left out";
  json_Unmarshal_ListModelsResponse := fun _ => inl "json: decoder left out";
  json_MarshalIndent_models := fun _ => inl "json: encoder left out";
  json_MarshalIndent_Config := fun c => inr (json.MarshalIndent_Config (Config.APIKey c));
  json_Unmarshal_Config := fun data =>
    match json.Unmarshal_Config data with
    | inl e => inl e
    | inr k => inr (Config.mk k)
    end
|}.

(** A server that answers every request with 404 and a JSON body. *)
Definition notFound (req : http.Request) : error + http.Response :=
  inr (http.mkResponse "404 Not Found" 404 "application/json"
         (inr "{ error: model not found }")).

(** A server that answers every request with 201 and an empty object. *)
Definition created (req : http.Request) : error + http.Response :=
  inr (http.mkResponse "201 Created" 201 "application/json" (inr "{}")).

Definition world : World := {|
  UserConfigDir := inr "/home/u/.config";
  fs := {[ "/home/u/.config" := Dir 0x1ED; "/tmp/a.txt" := File 0x1A4 "hello" ]};
  remote := notFound;
  stdout := [];
  stderr := [];
  sent := []
|}.

(** -1.0 in binary64, the default of the numeric flags. *)
Definition minusOne : float64 := S754_finite true 0x10000000000000 (-52).

(** The flags of the generate command left at their defaults. *)
Definition genUnset : GenerationConfigInput.t :=
  GenerationConfigInput.mk minusOne (-1) minusOne (-1) "" "" "" (-1) false.

Definition toolsOff : ToolsInput.t := ToolsInput.mk false false false "" minusOne.

Definition world201 : World :=
  mkWorld (UserConfigDir world) (fs world) created [] [] [].

Definition gemini : ModelInfo.t :=
  ModelInfo.mk "models/gemini-2.5-pro" "2.5" "Gemini 2.5 Pro" "" 1048576 65536
    ["generateContent"; "countTokens"] None None None.

Definition imagen : ModelInfo.t :=
  ModelInfo.mk "models/imagen-3.0" "3.0" "Imagen 3" "" 480 8192
    ["predict"; "generateContent"] None None None.
End sample.

(** * Notions used in the statements *)

(** The part types that [parseInputParts] accepts. *)
Definition validPartType (t : string) : Prop := t = "text" \/ t = "file".

(** The list of pairs that an argument list spells out, two arguments
    at a time. *)
Fixpoint pairUp (args : list string) : list ParsedPart.t :=
  match args with
  | t :: v :: rest => ParsedPart.mk t v :: pairUp rest
  | _ => []
  end.

(** "[s] starts with [p]" and "[s] contains [sub]", stated without the
    library functions. *)
Definition hasPrefix (s p : string) : Prop := exists t, s = p +:+ t.
Definition contains (s sub : string) : Prop := exists a b, s = a +:+ sub +:+ b.

(** The display-name patterns that mark a specialised model, on the
    lower-cased display name. *)
Definition specializedName (dnLower : string) : Prop :=
  contains dnLower "tts" \/ contains dnLower "embedding"
  \/ hasPrefix dnLower "imagen" \/ hasPrefix dnLower "veo".

(** The message of the empty-request check of
    [buildGenerateContentRequest]. *)
Definition emptyRequestError : error :=
  "at least one input part or system instruction is required".

(** "Some generation parameter is set": a number that is not negative, a
    string that is not empty, or the thoughts flag. *)
Definition anySet (genConfigInput : GenerationConfigInput.t) : bool :=
  float64_ge (GenerationConfigInput.Temperature genConfigInput) float64_zero
  || (GenerationConfigInput.MaxOutputTokens genConfigInput >=? 0)
  || float64_ge (GenerationConfigInput.TopP genConfigInput) float64_zero
  || (GenerationConfigInput.TopK genConfigInput >=? 0)
  || negb (GenerationConfigInput.StopSequence genConfigInput =? "")%string
  || negb (GenerationConfigInput.ResponseMimeType genConfigInput =? "")%string
  || negb (GenerationConfigInput.ResponseSchemaFileOrJSON genConfigInput =? "")%string
  || (GenerationConfigInput.ThinkingBudget genConfigInput >=? 0)
  || GenerationConfigInput.IncludeThoughts genConfigInput.

(** The two errors of the safety-settings block, for the entry [p]. *)
Definition safetyPairError (p : string) : error :=
  "invalid safety setting pair: '" +:+ p +:+ "'. Must be CATEGORY:THRESHOLD".
Definition safetyFormatError (p : string) : error :=
  "invalid safety setting format: '" +:+ p +:+ "'. Must be CATEGORY:THRESHOLD".

(** The entries of a list written one after the other with [sep] in
    between. *)
Fixpoint joinWith (sep : string) (l : list string) : string :=
  match l with
  | [] => ""
  | [x] => x
  | x :: rest => x +:+ sep +:+ joinWith sep rest
  end.

(** How one comma-separated entry of the safety string reads: the
    trimmed entry is split at its first colon; an entry of white space
    only counts for nothing, an entry without a colon is malformed, and
    so is one whose category or threshold is empty after trimming. *)
Inductive entryKind :=
  | Blank
  | Setting (category threshold : string)
  | EmptyField
  | NoColon.

Definition readEntry (entry : string) : entryKind :=
  match strings.SplitN (strings.TrimSpace entry) ":" 2 with
  | [category; threshold] =>
    if (strings.TrimSpace category =? "")%string
       || (strings.TrimSpace threshold =? "")%string
    then EmptyField
    else Setting (strings.TrimSpace category) (strings.TrimSpace threshold)
  | _ => if (strings.TrimSpace entry =? "")%string then Blank else NoColon
  end.

Definition wellFormedEntry (entry : string) : Prop :=
  readEntry entry = Blank \/ exists c t, readEntry entry = Setting c t.

(** The settings that a list of well-formed entries spells out. *)
Fixpoint settingsOf (entries : list string) : list SafetySetting.t :=
  match entries with
  | [] => []
  | p :: rest =>
    match readEntry p with
    | Setting c t => SafetySetting.mk c t :: settingsOf rest
    | _ => settingsOf rest
    end
  end.

(** Well-formed standard base64 (RFC 4648, section 4), with the line
    breaks that the decoder skips taken out first: groups of four
    characters of the alphabet, the last group possibly ending in one or
    two padding characters. *)
Definition base64Char (c : ascii) : bool :=
  let b := byte_of c in
  ((0x41 <=? b) && (b <=? 0x5A)) || ((0x61 <=? b) && (b <=? 0x7A))
  || ((0x30 <=? b) && (b <=? 0x39)) || (b =? 0x2B) || (b =? 0x2F).

Fixpoint stripLineBreaks (s : string) : list ascii :=
  match s with
  | "" => []
  | String c r =>
    if base64.isNewline c then stripLineBreaks r else c :: stripLineBreaks r
  end.

Fixpoint wfGroups (l : list ascii) : bool :=
  match l with
  | [] => true
  | a :: b :: c :: d :: rest =>
    base64Char a && base64Char b
    && (if base64Char c && base64Char d then wfGroups rest
        else match rest with
             | [] => (base64Char c || base64.isPad c) && base64.isPad d
             | _ => false
             end)
  | _ => false
  end.

Definition wellFormedBase64 (s : string) : Prop :=
  wfGroups (stripLineBreaks s) = true.

(** The bytes 0x80..0xBF, which continue a multi-byte encoding. *)
Definition validCont (c : ascii) : Prop := 0x80 <= byte_of c <= 0xBF.

(** The well-formed multi-byte sequences, by their first byte. *)
Definition seq2 (c0 c1 : ascii) : Prop :=
  0xC2 <= byte_of c0 <= 0xDF /\ validCont c1.
Definition seq3 (c0 c1 c2 : ascii) : Prop :=
  ((byte_of c0 = 0xE0 /\ 0xA0 <= byte_of c1 <= 0xBF)
   \/ (0xE1 <= byte_of c0 <= 0xEC /\ validCont c1)
   \/ (byte_of c0 = 0xED /\ 0x80 <= byte_of c1 <= 0x9F)
   \/ (0xEE <= byte_of c0 <= 0xEF /\ validCont c1))
  /\ validCont c2.
Definition seq4 (c0 c1 c2 c3 : ascii) : Prop :=
  ((byte_of c0 = 0xF0 /\ 0x90 <= byte_of c1 <= 0xBF)
   \/ (0xF1 <= byte_of c0 <= 0xF3 /\ validCont c1)
   \/ (byte_of c0 = 0xF4 /\ 0x80 <= byte_of c1 <= 0x8F))
  /\ validCont c2 /\ validCont c3.

(** ** Notions of the further properties *)

(** No file was created, removed or rewritten between two worlds
    (directories may have been created). *)
Definition sameFiles (w w' : World) : Prop :=
  forall p perm data,
    fs w' !! p = Some (File perm data) <-> fs w !! p = Some (File perm data).

(** Nothing was printed and nothing was sent between two worlds. *)
Definition silent (w w' : World) : Prop :=
  stdout w' = stdout w /\ stderr w' = stderr w /\ sent w' = sent w.

(** The library's codec of [Config] is the model of encoding/json. *)
Definition usesConfigCodec (golib : GoLib) : Prop :=
  (forall c, json_MarshalIndent_Config c
             = inr (json.MarshalIndent_Config (Config.APIKey c)))
  /\ (forall data, json_Unmarshal_Config data
                   = match json.Unmarshal_Config data with
                     | inl e => inl e
                     | inr k => inr (Config.mk k)
                     end).

Definition unsupportedFormatError (arg : string) : error :=
  "unsupported file argument format: " +:+ arg
  +:+ ". Use @/path, file://, http(s)://, or data:".

Definition nilDereference : error :=
  "panic: runtime error: invalid memory address or nil pointer dereference".

(** A MIME type that [readURLAsBase64] takes from the response as it is. *)
Definition specificType (mimeType : string) : Prop :=
  mimeType <> "" /\ mimeType <> "application/octet-stream" /\ contains mimeType "/".

(** The API part that a parsed part turns into: a text part carries the
    value, a file part inline data that is decodable base64. *)
Definition partOf (p : ParsedPart.t) (part : Part.t) : Prop :=
  (ParsedPart.Type_ p = "text"
   /\ part = Part.mk (Some (ParsedPart.Value p)) None)
  \/ (ParsedPart.Type_ p = "file"
      /\ exists mimeType data,
           part = Part.mk None (Some (InlinePart.mk mimeType data))
           /\ isErr (base64.DecodeString data) = false).

(** The requests that fetch a file: GET, without a body. *)
Definition isFetch (r : http.Request) : Prop :=
  http.Method r = "GET" /\ http.Body r = None.

(** The number of fields of a tool that are set. *)
Definition fieldsSet (t : Tool.t) : nat :=
  (match Tool.URLContext t with Some _ => 1 | None => 0 end
   + match Tool.GoogleSearch t with Some _ => 1 | None => 0 end
   + match Tool.GoogleSearchRetrieval t with Some _ => 1 | None => 0 end)%nat.

Definition unknownPartTypeError (t : string) : error :=
  "unknown parsed part type: " +:+ t.

(** The arguments that a list of parsed parts spells out. *)
Definition flattenParts (parts : list ParsedPart.t) : list string :=
  flat_map (fun p => [ParsedPart.Type_ p; ParsedPart.Value p]) parts.

(** The request that [makeAPIRequest] sends, once [http.NewRequest] has
    accepted the method and the address. *)
Definition apiRequest (apiKey method endpointURL : string) (body : option string)
    : http.Request :=
  http.mkRequest (if (method =? "")%string then "GET" else method)
    (baseURL +:+ endpointURL +:+ "?key=" +:+ apiKey) "application/json" body.

(** The message of the second check of [handleGenerateContent]. *)
Definition missingContentsMessage : string :=
  "Error: Request must contain 'contents' or 'system_instruction'." +:+ nl.

(** The model name as [handleGenerateContent] uses it: with "models/"
    put in front of a name that does not start with it. *)
Definition qualifiedModelName (modelName : string) : string :=
  if negb (strings.HasPrefix modelName "models/")
  then "models/" +:+ modelName else modelName.

(** The address of the generateContent endpoint of a model. *)
Definition generateContentURL (apiKey name : string) : string :=
  baseURL +:+ ("/" +:+ ("models/" +:+ name) +:+ ":generateContent")
  +:+ "?key=" +:+ apiKey.

(** Between two worlds only the error stream has changed. *)
Definition onlyStderr (w w' : World) : Prop :=
  UserConfigDir w' = UserConfigDir w /\ fs w' = fs w /\ remote w' = remote w
  /\ stdout w' = stdout w /\ sent w' = sent w.

(** The inputs that [main] hands to [handleGenerateContent]. *)
Definition genConfigInputOf (f : GenerateFlags.t) : GenerationConfigInput.t :=
  GenerationConfigInput.mk
    (GenerateFlags.temperature f) (GenerateFlags.maxOutputTokens f)
    (GenerateFlags.topP f) (GenerateFlags.topK f)
    (GenerateFlags.stopSequence f) (GenerateFlags.responseMimeType f)
    (GenerateFlags.responseSchemaFileOrJSON f)
    (GenerateFlags.thinkingBudget f) (GenerateFlags.includeThoughts f).

Definition toolsInputOf (f : GenerateFlags.t) : ToolsInput.t :=
  ToolsInput.mk
    (GenerateFlags.toolURLContext f) (GenerateFlags.toolGoogleSearch f)
    (GenerateFlags.toolGoogleSearchRetrieval f)
    (GenerateFlags.toolGoogleSearchRetrievalMode f)
    (GenerateFlags.toolGoogleSearchRetrievalThreshold f).

(** A computation that writes on the error stream, and does nothing
    else. *)
Definition prints (m : M Z unit) : Prop :=
  forall w, exists w', m w = (inr tt, w') /\ onlyStderr w w'.

(** A computation that writes on the error stream and then exits with
    the given status, having done nothing else. *)
Definition exitsWith {A} (code : Z) (m : M Z A) : Prop :=
  forall w, exists w', m w = (inl code, w') /\ onlyStderr w w'.

(** A world with further writes on its error stream. *)
Definition printed (lines : list string) (w : World) : World :=
  mkWorld (UserConfigDir w) (fs w) (remote w) (stdout w) (stderr w ++ lines)%list
    (sent w).

(** A computation that makes exactly these writes on the error stream,
    and does nothing else. *)
Definition writes (m : M Z unit) (lines : list string) : Prop :=
  forall w, m w = (inr tt, printed lines w).

(** The help of the program, write by write. *)
Definition topLevelHelp (Args0 : string) : list string :=
  [ "Usage: " +:+ Args0 +:+ " <command> [options]" +:+ nl;
    "Commands:" +:+ nl;
    "  set-config        Set the Gemini API key" +:+ nl;
    "  generate          Generate content using a Gemini model" +:+ nl;
    "  list-models       List available Gemini models" +:+ nl;
    "Run '" +:+ Args0
    +:+ " <command> --help' for more information on a command." +:+ nl ].

(** The usage text of a command, write by write: the one that main.go
    sets for generate, the one of package flag for the other two. *)
Definition usageText {flaglib : FlagLib} (Args0 command : string) : list string :=
  if (command =? "set-config")%string then
    ("Usage of set-config:" +:+ nl) :: setConfigCmd_defaults
  else if (command =? "generate")%string then
    ("Usage: " +:+ Args0
     +:+ " generate --model <model_name> [options] [part_type_1 part_value_1 ...]"
     +:+ nl)
    :: (nl +:+ "Options:" +:+ nl)
    :: (generateCmd_defaults
        ++ [ nl +:+ "Part Types and Values:" +:+ nl;
             "  text " +:+ dq +:+ "your text string" +:+ dq +:+ nl;
             "  file " +:+ dq +:+ "@/path/to/local/file" +:+ dq +:+ nl;
             "  file " +:+ dq +:+ "http(s)://url/to/file" +:+ dq +:+ nl;
             "  file " +:+ dq +:+ "file:///path/to/local/file" +:+ dq +:+ nl;
             "  file " +:+ dq +:+ "data:mime/type;base64,ABC..." +:+ dq +:+ nl;
             nl +:+ "Example:" +:+ nl;
             "  " +:+ Args0
             +:+ " generate --model models/gemini-1.5-flash-latest text "
             +:+ dq +:+ "Describe this image" +:+ dq +:+ " file "
             +:+ dq +:+ "@/path/to/image.jpg" +:+ dq +:+ nl ])%list
  else ("Usage of list-models:" +:+ nl) :: listModelsCmd_defaults.

(** What package flag makes of the arguments that follow the command:
    it parses them, is asked for help, or finds an error. A word that is
    no command has no flags. *)
Inductive flagsOutcome :=
  | FlagsParsed
  | FlagsHelp
  | FlagsError (msg : string).

Definition outcomeOf {A} (r : parseResult A) : flagsOutcome :=
  match r with
  | Parsed _ _ => FlagsParsed
  | HelpRequested => FlagsHelp
  | ParseError msg => FlagsError msg
  end.

Definition commandFlags {flaglib : FlagLib} (command : string) (rest : list string)
    : option flagsOutcome :=
  if (command =? "set-config")%string then Some (outcomeOf (setConfigCmd_parse rest))
  else if (command =? "generate")%string then Some (outcomeOf (generateCmd_parse rest))
  else if (command =? "list-models")%string
       then Some (outcomeOf (listModelsCmd_parse rest))
  else None.

(** * A second library instance, with the codecs of the API in place,
      and a command line

    The encoders of the request and of the model list are stand-ins that
    write a fixed text and the names of the models; the decoder of the
    model list answers with the two sample models. The flag parsers
    accept the flags in one fixed order. The server answers 200 to the
    requests of the API and serves one picture. *)

Module demo.
Definition lib : GoLib := {|
  GoLib_unicode := sample.unicode;
  os_PathSeparator := "/"%char;
  filepath_Join := fun a b => a +:+ "/" +:+ b;
  url_Parse := sample.parseURL;
  strconv_Quote := fun s => dq +:+ s +:+ dq;
  http_DetectContentType := fun _ => "application/octet-stream";
  json_Marshal_GenerateContentRequest := fun _ => inr "{}";
  json_Unmarshal_ListModelsResponse := fun _ =>
    inr (ListModelsResponse.mk [sample.gemini; sample.imagen]);
  json_MarshalIndent_models := fun ms =>
    inr (joinWith "," (map ModelOutputInfo.Name ms));
  json_MarshalIndent_Config := fun c => inr (json.MarshalIndent_Config (Config.APIKey c));
  json_Unmarshal_Config := fun data =>
    match json.Unmarshal_Config data with
    | inl e => inl e
    | inr k => inr (Config.mk k)
    end
|}.

Definition flagsOf (modelName systemInstructionStr : string) : GenerateFlags.t :=
  GenerateFlags.mk modelName systemInstructionStr
    sample.minusOne (-1) sample.minusOne (-1) "" "" "" (-1) false
    false false false "" sample.minusOne "".

Definition flags : FlagLib := {|
  generateCmd_parse := fun args =>
    match args with
    | "--help" :: _ => HelpRequested
    | "--model" :: m :: "--system-instruction" :: s :: rest => Parsed (flagsOf m s) rest
    | "--model" :: m :: rest => Parsed (flagsOf m "") rest
    | ("--temperature" :: _) as l => ParseError "invalid value for flag -temperature"
    | rest => Parsed (flagsOf "" "") rest
    end;
  setConfigCmd_parse := fun args =>
    match args with
    | "--help" :: _ => HelpRequested
    | "--key" :: k :: rest => Parsed k rest
    | rest => Parsed "" rest
    end;
  listModelsCmd_parse := fun args =>
    match args with
    | "--help" :: _ => HelpRequested
    | rest => Parsed tt rest
    end;
  generateCmd_defaults := ["  -model string" +:+ nl];
  setConfigCmd_defaults := ["  -key string" +:+ nl];
  listModelsCmd_defaults := []
|}.

Definition server (req : http.Request) : error + http.Response :=
  if (http.URL req =? "https://example.com/cat.png")%string
  then inr (http.mkResponse "200 OK" 200 "image/png" (inr "PNG"))
  else inr (http.mkResponse "200 OK" 200 "application/json" (inr "{}")).

Definition world : World :=
  mkWorld (UserConfigDir sample.world) (fs sample.world) server [] [] [].

(** The world after [set-config --key AIzaSy-k3y]. *)
Definition configured : World :=
  (saveAPIKey (golib := lib) "AIzaSy-k3y" world).2.
End demo.

(** * Properties *)

(** ** The library model on examples *)

Example TrimSpace_ex1 : strings.TrimSpace "  a b	" = "a b".
Proof. reflexivity. Qed.

Example Split_ex1 : strings.Split "a,b,,c" "," = ["a"; "b"; ""; "c"].
Proof. reflexivity. Qed.

Example Split_ex2 : strings.Split "," "," = [""; ""].
Proof. reflexivity. Qed.

Example SplitN_ex1 : strings.SplitN "a:b:c" ":" 2 = ["a"; "b:c"].
Proof. reflexivity. Qed.

Example SplitN_ex2 : strings.SplitN "" ":" 2 = [""].
Proof. reflexivity. Qed.

Example DecodeString_hello : base64.DecodeString "aGVsbG8=" = inr "hello".
Proof. reflexivity. Qed.

Example EncodeToString_hello : base64.EncodeToString "hello" = "aGVsbG8=".
Proof. reflexivity. Qed.

Example DecodeString_unpadded :
  base64.DecodeString "aGVsbG8" = inl "illegal base64 data at input byte 4".
Proof. reflexivity. Qed.

(** A key that is not valid UTF-8 does not come back: the encoder
    writes U+FFFD for the byte 0xFF. *)
Example Unmarshal_Marshal_invalid_utf8 :
  json.Unmarshal_Config (json.MarshalIndent_Config (String (ascii_of 0xFF) "k"))
  = inr (utf8_EncodeRune utf8.RuneError +:+ "k").
Proof. reflexivity. Qed.

Example Unmarshal_Marshal_abc :
  json.Unmarshal_Config (json.MarshalIndent_Config "k<1>") = inr "k<1>".
Proof. reflexivity. Qed.

Example Ext_png : filepath.Ext "/"%char "/tmp/a.b/photo.PNG" = ".PNG".
Proof. reflexivity. Qed.

Example Ext_none : filepath.Ext "/"%char "/tmp/a.b/photo" = "".
Proof. reflexivity. Qed.

(** ** Part parsing (main.go) *)

Lemma list_pair_ind {A} (P : list A -> Prop) :
  P [] -> (forall x, P [x]) -> (forall x y l, P l -> P (x :: y :: l)) ->
  forall l, P l.
Proof.
  intros H0 H1 H2 l.
  assert (P l /\ forall x, P (x :: l)) as [Hl _]; [|exact Hl].
  induction l as [|a l [IHl IHl']]; [auto|].
  split; [apply IHl'|intros x; apply H2, IHl].
Qed.

Lemma validPartType_eqb (t : string) :
  validPartType t <->
  negb (t =? "text")%string && negb (t =? "file")%string = false.
Proof.
  unfold validPartType.
  destruct (String.eqb_spec t "text"), (String.eqb_spec t "file"); simpl;
    intuition congruence.
Qed.

Lemma parseInputParts_loop_ok (args : list string) :
  (forall i t, Nat.Even i -> args !! i = Some t -> validPartType t) ->
  forall parts,
    parseInputParts_loop args parts = inr (parts ++ pairUp args)%list.
Proof.
  induction args as [|x|t v rest IH] using list_pair_ind; intros Hv parts.
  - simpl. by rewrite app_nil_r.
  - simpl. by rewrite app_nil_r.
  - cbn [parseInputParts_loop pairUp].
    assert (validPartType t) as Ht
      by (apply (Hv 0%nat); [exists 0%nat; lia | reflexivity]).
    apply validPartType_eqb in Ht. rewrite Ht.
    rewrite IH.
    + by rewrite <- app_assoc.
    + intros i u Hi Hu. apply (Hv (S (S i))); [|exact Hu].
      destruct Hi as [k ->]. exists (S k). lia.
Qed.

Lemma parseInputParts_loop_bad (args : list string) :
  Nat.Even (length args) ->
  (exists i t, Nat.Even i /\ args !! i = Some t /\ ~ validPartType t) ->
  forall parts, isErr (parseInputParts_loop args parts) = true.
Proof.
  induction args as [|x|t v rest IH] using list_pair_ind;
    intros Hlen (i & u & Hi & Hu & Hbad) parts.
  - discriminate Hu.
  - destruct Hlen as [k Hk]. simpl in Hk. lia.
  - cbn [parseInputParts_loop].
    destruct (negb (t =? "text")%string && negb (t =? "file")%string) eqn:E;
      [reflexivity|].
    apply validPartType_eqb in E.
    destruct Hi as [k ->].
    destruct k as [|k].
    + simpl in Hu. injection Hu as <-. contradiction.
    + apply IH.
      * destruct Hlen as [n Hn]. simpl in Hn. exists (n - 1)%nat. lia.
      * exists (2 * k)%nat, u. split; [by exists k|]. split; [|exact Hbad].
        replace (2 * S k)%nat with (S (S (2 * k))) in Hu by lia. exact Hu.
Qed.

Lemma pairUp_length (args : list string) :
  length (pairUp args) = (length args / 2)%nat.
Proof.
  induction args as [|x|t v rest IH] using list_pair_ind; [done..|].
  cbn [pairUp length]. rewrite IH.
  change (S (S (length rest))) with (1 * 2 + length rest)%nat.
  rewrite Nat.div_add_l by lia. reflexivity.
Qed.

Lemma pairUp_lookup (args : list string) (k : nat) (t v : string) :
  args !! (2 * k)%nat = Some t -> args !! (2 * k + 1)%nat = Some v ->
  pairUp args !! k = Some (ParsedPart.mk t v).
Proof.
  revert k.
  induction args as [|x|t' v' rest IH] using list_pair_ind; intros k Ht Hv.
  - discriminate Ht.
  - destruct k; [discriminate Hv|].
    replace (2 * S k)%nat with (S (S (2 * k))) in Ht by lia. discriminate Ht.
  - destruct k as [|k].
    + simpl in Ht, Hv. by simplify_eq.
    + replace (2 * S k)%nat with (S (S (2 * k))) in Ht by lia.
      replace (2 * S k + 1)%nat with (S (S (2 * k + 1))) in Hv by lia.
      simpl in Ht, Hv. cbn [pairUp]. simpl. by apply IH.
Qed.

Lemma even_mod2 (n : nat) : Nat.Even n <-> (n mod 2 =? 0)%nat = true.
Proof.
  rewrite Nat.eqb_eq. split.
  - intros [k ->]. rewrite Nat.mul_comm. apply Nat.Div0.mod_mul.
  - intros Hm. exists (n / 2)%nat.
    pose proof (Nat.div_mod_eq n 2). lia.
Qed.

(** C5. Part parsing: an argument list of even length whose
    even-indexed elements are all "text" or "file" parses to one
    (type, value) pair per argument pair, in input order, half as many
    as there are arguments; a list of odd length fails; a list with an
    even-indexed element that is neither "text" nor "file" fails,
    wherever that element stands. *)
Theorem parseInputParts_spec (args : list string) :
  (Nat.Even (length args) ->
   (forall i t, Nat.Even i -> args !! i = Some t -> validPartType t) ->
   exists parts,
     parseInputParts args = inr parts
     /\ length parts = (length args / 2)%nat
     /\ forall k t v,
          args !! (2 * k)%nat = Some t -> args !! (2 * k + 1)%nat = Some v ->
          parts !! k = Some (ParsedPart.mk t v))
  /\ (Nat.Odd (length args) -> isErr (parseInputParts args) = true)
  /\ ((exists i t, Nat.Even i /\ args !! i = Some t /\ ~ validPartType t) ->
      isErr (parseInputParts args) = true).
Proof.
  unfold parseInputParts. split; [|split].
  - intros Hlen Hv. exists (pairUp args).
    apply even_mod2 in Hlen. rewrite Hlen. simpl.
    rewrite (parseInputParts_loop_ok args Hv []). simpl.
    split; [reflexivity|]. split; [apply pairUp_length|].
    intros k t v. apply pairUp_lookup.
  - intros Hodd.
    destruct (length args mod 2 =? 0)%nat eqn:E; [|reflexivity].
    apply even_mod2 in E. destruct E as [a Ha], Hodd as [b Hb]. lia.
  - intros Hbad.
    destruct (length args mod 2 =? 0)%nat eqn:E; [|reflexivity].
    simpl. apply even_mod2 in E. by apply parseInputParts_loop_bad.
Qed.

Lemma parseInputParts_spec_witness :
  (exists parts,
     parseInputParts ["text"; "hello"; "file"; "@a.png"] = inr parts
     /\ length parts = 2%nat
     /\ parts !! 1%nat = Some (ParsedPart.mk "file" "@a.png"))
  /\ isErr (parseInputParts ["text"; "hello"; "file"]) = true
  /\ isErr (parseInputParts ["text"; "hello"; "image"; "@a.png"]) = true.
Proof.
  split; [|split].
  - destruct (proj1 (parseInputParts_spec ["text"; "hello"; "file"; "@a.png"]))
      as (parts & Hp & Hlen & Hk).
    + exists 2%nat. reflexivity.
    + intros i t [k ->] Ht.
      destruct k as [|[|k]].
      * injection Ht as <-. left. reflexivity.
      * injection Ht as <-. right. reflexivity.
      * replace (2 * S (S k))%nat with (S (S (S (S (2 * k))))) in Ht by lia.
        discriminate Ht.
    + exists parts. split; [exact Hp|]. split; [exact Hlen|].
      apply (Hk 1%nat); reflexivity.
  - apply (proj1 (proj2 (parseInputParts_spec ["text"; "hello"; "file"]))).
    exists 1%nat. reflexivity.
  - apply (proj2 (proj2 (parseInputParts_spec ["text"; "hello"; "image"; "@a.png"]))).
    exists 2%nat, "image". split; [exists 1%nat; reflexivity|].
    split; [reflexivity|]. intros [E|E]; discriminate E.
Defined.

(** ** Facts about the string functions *)

Lemma str_app_cons (c : ascii) (a b : string) :
  String c a +:+ b = String c (a +:+ b).
Proof. reflexivity. Qed.

Lemma str_app_nil_l (b : string) : "" +:+ b = b.
Proof. reflexivity. Qed.

Ltac str_norm :=
  repeat (progress (cbn [str_take str_drop len String.length Nat.add];
                    rewrite ?str_app_cons, ?str_app_nil_l)).

Lemma str_app_assoc (a b c : string) : (a +:+ b) +:+ c = a +:+ (b +:+ c).
Proof. induction a as [|x a IH]; str_norm; [reflexivity|f_equal; exact IH]. Qed.

Lemma str_app_nil_r (a : string) : a +:+ "" = a.
Proof. induction a as [|x a IH]; str_norm; [reflexivity|f_equal; exact IH]. Qed.

Lemma str_app_length (a b : string) : len (a +:+ b) = (len a + len b)%nat.
Proof. induction a as [|x a IH]; str_norm; [reflexivity|f_equal; exact IH]. Qed.

Lemma str_drop_app (a b : string) : str_drop (len a) (a +:+ b) = b.
Proof. induction a as [|x a IH]; str_norm; [by destruct b|exact IH]. Qed.

Lemma str_take_app (a b : string) : str_take (len a) (a +:+ b) = a.
Proof. induction a as [|x a IH]; str_norm; [by destruct b|f_equal; exact IH]. Qed.

Lemma str_take_drop (n : nat) (s : string) : str_take n s +:+ str_drop n s = s.
Proof.
  revert s. induction n as [|n IH]; intros [|c s]; str_norm; try reflexivity.
  f_equal. apply IH.
Qed.

Lemma str_drop_drop (n m : nat) (s : string) :
  str_drop m (str_drop n s) = str_drop (n + m) s.
Proof.
  revert s. induction n as [|n IH]; intros s; [reflexivity|].
  destruct s as [|c s]; str_norm; [by destruct m|apply IH].
Qed.

Lemma HasPrefix_spec (s p : string) : strings.HasPrefix s p = true <-> hasPrefix s p.
Proof.
  unfold strings.HasPrefix, hasPrefix. revert s.
  induction p as [|c p IH]; intros s; cbn [String.prefix].
  - split; [intros _; by exists s|by destruct s].
  - destruct s as [|d s]; [split; [discriminate|intros [t Ht]; discriminate Ht]|].
    cbn [String.prefix].
    destruct (Ascii.ascii_dec c d) as [->|Hne].
    + rewrite IH. split; intros [t Ht]; exists t; revert Ht; str_norm; congruence.
    + split; [discriminate|intros [t Ht]; revert Ht; str_norm; congruence].
Qed.

Lemma Index_Some (s sub : string) (m : nat) :
  strings.Index s sub = Some m ->
  s = str_take m s +:+ sub +:+ str_drop (m + len sub) s.
Proof.
  revert m. induction s as [|c s IH]; intros m; cbn [strings.Index].
  - destruct (strings.HasPrefix "" sub) eqn:E; [|discriminate].
    intros [= <-]. apply HasPrefix_spec in E as [t Ht].
    destruct sub; [reflexivity|discriminate Ht].
  - destruct (strings.HasPrefix (String c s) sub) eqn:E.
    + intros [= <-]. apply HasPrefix_spec in E as [t Ht].
      str_norm. rewrite Ht at 2. rewrite str_drop_app. exact Ht.
    + destruct (strings.Index s sub) as [k|] eqn:Ek; [|discriminate].
      intros [= <-]. str_norm. f_equal. by apply IH.
Qed.

Lemma Index_unfold (s sub : string) :
  strings.Index s sub =
  if strings.HasPrefix s sub then Some O
  else match s with
       | "" => None
       | String _ s' => S <$> strings.Index s' sub
       end.
Proof. by destruct s. Qed.

Lemma Index_None (s sub : string) :
  strings.Index s sub = None -> ~ contains s sub.
Proof.
  intros HN (a & b & ->). revert HN.
  induction a as [|c a IH]; str_norm; rewrite Index_unfold.
  - assert (strings.HasPrefix (sub +:+ b) sub = true) as ->
      by (apply HasPrefix_spec; by exists b).
    discriminate.
  - destruct (strings.HasPrefix _ sub); [discriminate|].
    destruct (strings.Index (a +:+ sub +:+ b) sub); [discriminate|].
    intros _. by apply IH.
Qed.

Lemma Contains_spec (s sub : string) :
  strings.Contains s sub = true <-> contains s sub.
Proof.
  unfold strings.Contains.
  destruct (strings.Index s sub) as [m|] eqn:E.
  - split; [intros _|reflexivity].
    exists (str_take m s), (str_drop (m + len sub) s). by apply Index_Some.
  - split; [discriminate|]. intros Hc. by apply Index_None in E.
Qed.

Lemma contains_here (a s b : string) : contains (a +:+ s +:+ b) s.
Proof. by exists a, b. Qed.

Lemma contains_app_r (a s sub : string) : contains s sub -> contains (a +:+ s) sub.
Proof.
  intros (x & y & ->). exists (a +:+ x), y. by rewrite str_app_assoc.
Qed.

Lemma contains_app_l (s b sub : string) : contains s sub -> contains (s +:+ b) sub.
Proof.
  intros (x & y & ->). exists x, (y +:+ b). by rewrite !str_app_assoc.
Qed.

Lemma hasPrefix_take (n : nat) (s p : string) :
  hasPrefix (str_take n s) p -> hasPrefix s p.
Proof.
  intros [t Ht]. exists (t +:+ str_drop n s).
  by rewrite <- str_app_assoc, <- Ht, str_take_drop.
Qed.

(** [Index] finds the first instance: none lies within the part before it. *)
Lemma Index_first (s sub : string) (m : nat) :
  sub <> "" -> strings.Index s sub = Some m -> ~ contains (str_take m s) sub.
Proof.
  intros Hne. revert m. induction s as [|c s IH]; intros m; rewrite Index_unfold.
  - destruct (strings.HasPrefix "" sub) eqn:E; [|discriminate].
    apply HasPrefix_spec in E as [t Ht]. destruct sub; [done|discriminate Ht].
  - destruct (strings.HasPrefix (String c s) sub) eqn:E.
    + intros [= <-] (a & b & Hab). cbn in Hab.
      destruct a; [|discriminate Hab]. destruct sub; [done|discriminate Hab].
    + destruct (strings.Index s sub) as [k|] eqn:Ek; [|discriminate].
      intros [= <-] (a & b & Hab). cbn [str_take] in Hab.
      destruct a as [|x a]; revert Hab; str_norm; intros Hab.
      * assert (strings.HasPrefix (String c s) sub = true); [|congruence].
        apply HasPrefix_spec, (hasPrefix_take (S k)). cbn [str_take]. by exists b.
      * injection Hab as _ Hab. apply (IH k eq_refl). by exists a, b.
Qed.

Lemma SplitN_2_cases (s sep : string) :
  strings.SplitN s sep 2 = [s]
  \/ exists a b, strings.SplitN s sep 2 = [a; b].
Proof.
  unfold strings.SplitN.
  destruct (Nat.min 2 (len s + 1)) as [|[|k]] eqn:E; [lia|by left|].
  assert (k = 0%nat) as -> by lia.
  cbn [strings.splitLoop]. destruct (strings.Index s sep); [right; eauto|by left].
Qed.

Lemma SplitN_2_inv (s sep a b : string) :
  sep <> "" -> strings.SplitN s sep 2 = [a; b] ->
  s = a +:+ sep +:+ b /\ ~ contains a sep.
Proof.
  intros Hne. unfold strings.SplitN.
  destruct (Nat.min 2 (len s + 1)) as [|[|k]] eqn:E; [discriminate..|].
  assert (k = 0%nat) as -> by lia. cbn [strings.splitLoop].
  destruct (strings.Index s sep) as [m|] eqn:Em; [|discriminate].
  intros [= <- <-]. split; [by apply Index_Some|by apply Index_first].
Qed.

(** ** The list-models classification *)

Section Classification.
Context {golib : GoLib}.

Lemma supportsGenContent_spec (methods : list string) :
  supportsGenContent methods = true <-> "generateContent" ∈ methods.
Proof.
  induction methods as [|method rest IH]; cbn [supportsGenContent].
  - split; [discriminate|]. by intros ?%elem_of_nil.
  - rewrite elem_of_cons. destruct (String.eqb_spec method "generateContent") as [->|Hne].
    + split; auto.
    + rewrite IH. split; [auto|]. intros [E|E]; [congruence|exact E].
Qed.

Lemma processModels_map (models : list ModelInfo.t) (acc : list ModelOutputInfo.t) :
  processModels models acc = (acc ++ map processModel models)%list.
Proof.
  revert acc. induction models as [|m rest IH]; intros acc; cbn [processModels map].
  - by rewrite app_nil_r.
  - rewrite IH. by rewrite <- app_assoc.
Qed.

Lemma specializedName_bool (dnLower : string) :
  strings.Contains dnLower "tts" || strings.HasPrefix dnLower "imagen"
  || strings.HasPrefix dnLower "veo" || strings.Contains dnLower "embedding" = true
  <-> specializedName dnLower.
Proof.
  unfold specializedName.
  rewrite !orb_true_iff, !Contains_spec, !HasPrefix_spec. tauto.
Qed.

Lemma isTextSupported_cases (m : ModelInfo.t) :
  let dnLower := strings.ToLower (ModelInfo.DisplayName m) in
  ("generateContent" ∉ ModelInfo.SupportedGenerationMethods m ->
   isTextSupported m = "No")
  /\ ("generateContent" ∈ ModelInfo.SupportedGenerationMethods m ->
      specializedName dnLower ->
      isTextSupported m = "No (Specialized: Audio/Image/Video/Embedding)")
  /\ ("generateContent" ∈ ModelInfo.SupportedGenerationMethods m ->
      ~ specializedName dnLower ->
      isTextSupported m = "Yes").
Proof.
  intros dnLower. unfold isTextSupported. fold dnLower.
  destruct (supportsGenContent _) eqn:Es.
  - apply supportsGenContent_spec in Es.
    destruct (_ || _ || _ || _) eqn:Ep.
    + apply specializedName_bool in Ep. tauto.
    + split; [tauto|]. split; [|reflexivity].
      intros _ Hsp. apply specializedName_bool in Hsp. congruence.
  - assert ("generateContent" ∉ ModelInfo.SupportedGenerationMethods m) as Hn.
    { intros Hin. apply supportsGenContent_spec in Hin. congruence. }
    tauto.
Qed.

(** C7. Every descriptor of a list-models response is reshaped into one
    output entry at the same position, whose text-output field is "No"
    when the supported methods lack "generateContent", and otherwise
    "Yes" unless the lower-cased display name contains "tts" or
    "embedding" or starts with "imagen" or "veo", in which case it is
    "No (Specialized: Audio/Image/Video/Embedding)". A descriptor with
    "generateContent" named "Imagen 3" is the specialised case, one
    named "Gemini 2.5 Pro" is "Yes". *)
Theorem list_models_classification
    (models : list ModelInfo.t) (i : nat) (m : ModelInfo.t) :
  models !! i = Some m ->
  exists o,
    processModels models [] !! i = Some o
    /\ ModelOutputInfo.Name o = ModelInfo.Name m
    /\ let dnLower := strings.ToLower (ModelInfo.DisplayName m) in
       let methods := ModelInfo.SupportedGenerationMethods m in
       let text := ModelOutputInfo.SupportedForTextOutput o in
       ("generateContent" ∉ methods -> text = "No")
       /\ ("generateContent" ∈ methods -> specializedName dnLower ->
           text = "No (Specialized: Audio/Image/Video/Embedding)")
       /\ ("generateContent" ∈ methods -> ~ specializedName dnLower ->
           text = "Yes")
       /\ ("generateContent" ∈ methods -> ModelInfo.DisplayName m = "Imagen 3" ->
           text = "No (Specialized: Audio/Image/Video/Embedding)")
       /\ ("generateContent" ∈ methods ->
           ModelInfo.DisplayName m = "Gemini 2.5 Pro" -> text = "Yes").
Proof.
  intros Hm. exists (processModel m).
  rewrite processModels_map. cbn [app].
  rewrite list_lookup_fmap, Hm. cbn.
  split; [reflexivity|]. split; [reflexivity|].
  destruct (isTextSupported_cases m) as (Hno & Hsp & Hyes).
  split; [exact Hno|]. split; [exact Hsp|]. split; [exact Hyes|]. split.
  - intros Hin Hdn. unfold isTextSupported.
    apply supportsGenContent_spec in Hin. rewrite Hin, Hdn. reflexivity.
  - intros Hin Hdn. unfold isTextSupported.
    apply supportsGenContent_spec in Hin. rewrite Hin, Hdn. reflexivity.
Qed.

End Classification.

Lemma list_models_classification_witness :
  exists o,
    processModels (golib := sample.lib) [sample.gemini; sample.imagen] []
      !! 1%nat = Some o
    /\ ModelOutputInfo.SupportedForTextOutput o
       = "No (Specialized: Audio/Image/Video/Embedding)".
Proof.
  destruct (list_models_classification (golib := sample.lib)
              [sample.gemini; sample.imagen] 1 sample.imagen)
    as (o & Ho & _ & _ & _ & _ & Him & _); [reflexivity|].
  exists o. split; [exact Ho|].
  apply Him; [|reflexivity].
  apply elem_of_cons. right. apply elem_of_cons. left. reflexivity.
Defined.

(** ** Running the monad *)

Lemma bind_run {E A B} (m : M E A) (k : A -> M E B) (w : World) :
  (m ≫= k) w = match m w with
               | (inl e, w') => (inl e, w')
               | (inr a, w') => k a w'
               end.
Proof. reflexivity. Qed.

Lemma ret_run {E A} (a : A) (w : World) : (mret a : M E A) w = (inr a, w).
Proof. reflexivity. Qed.

Lemma fail_run {E A} (e : E) (w : World) : (fail e : M E A) w = (inl e, w).
Proof. reflexivity. Qed.

Lemma try_run {E E' A} (m : M E A) (w : World) :
  (try m : M E' (E + A)) w = (inr (m w).1, (m w).2).
Proof. unfold try. by destruct (m w). Qed.

Ltac run := rewrite ?bind_run, ?try_run, ?ret_run, ?fail_run; cbn [fst snd].

(** ** The API client (api.go) *)

Section APIClient.
Context {golib : GoLib}.

Lemma makeAPIRequest_not_OK {T} (apiKey method endpointURL : string)
    (body : option string) (target : option (string -> error + T))
    (w : World) (req : http.Request) (resp : http.Response) (responseBody : string) :
  httpc.NewRequest method (baseURL +:+ endpointURL +:+ "?key=" +:+ apiKey) body
    = inr req ->
  remote w (httpc.Header_Set_ContentType "application/json" req) = inr resp ->
  http.RespBody resp = inr responseBody ->
  http.StatusCode resp <> http.StatusOK ->
  makeAPIRequest apiKey method endpointURL body target w
  = (inl ("API error: " +:+ http.Status resp +:+ ", Body: " +:+ responseBody),
     add_sent (httpc.Header_Set_ContentType "application/json" req) w).
Proof.
  intros Hreq Hresp Hbody Hcode. unfold makeAPIRequest.
  rewrite Hreq. run. unfold httpc.Do at 1 2. cbn [fst snd].
  rewrite Hresp, Hbody.
  destruct (Z.eqb_spec (http.StatusCode resp) http.StatusOK) as [E|_];
    [contradiction|].
  reflexivity.
Qed.

(** C9. Exactly status 200 is success, whatever response comes back.
    With any other status code (201 and 204 included) the call returns
    an error, never a result, and the body is neither decoded into the
    target nor printed; if the body could be read, the error is the API
    error made of the status line and the body. With status 200 and a
    body that could be read the status raises no error: without a
    target the body is printed and no error returned, with a target the
    result is what the decoder makes of the body. Hence the API error
    is returned if and only if the status is not 200 (and the body was
    read). *)
Theorem makeAPIRequest_only_200 {T} (apiKey method endpointURL : string)
    (body : option string) (target : option (string -> error + T))
    (w : World) (req : http.Request) (resp : http.Response) :
  httpc.NewRequest method (baseURL +:+ endpointURL +:+ "?key=" +:+ apiKey) body
    = inr req ->
  remote w (httpc.Header_Set_ContentType "application/json" req) = inr resp ->
  let '(r, w') := makeAPIRequest apiKey method endpointURL body target w in
  (http.StatusCode resp <> 200 ->
     isErr r = true
     /\ stdout w' = stdout w
     /\ forall responseBody,
          http.RespBody resp = inr responseBody ->
          r = inl ("API error: " +:+ http.Status resp +:+ ", Body: " +:+ responseBody))
  /\ (http.StatusCode resp = 200 ->
      forall responseBody,
        http.RespBody resp = inr responseBody ->
        match target with
        | None =>
          r = inr None /\ stdout w' = (stdout w ++ [responseBody +:+ nl])%list
        | Some unmarshal =>
          stdout w' = stdout w
          /\ r = match unmarshal responseBody with
                 | inr v => inr (Some v)
                 | inl err =>
                   inl ("failed to unmarshal response into target: " +:+ err
                        +:+ ". Raw response: " +:+ responseBody)
                 end
        end)
  /\ ((exists responseBody,
         r = inl ("API error: " +:+ http.Status resp +:+ ", Body: " +:+ responseBody))
      <-> http.StatusCode resp <> 200 /\ isErr (http.RespBody resp) = false).
Proof.
  intros Hreq Hresp. unfold makeAPIRequest.
  rewrite Hreq. run. unfold httpc.Do at 1 2. cbn [fst snd]. rewrite Hresp.
  destruct (http.RespBody resp) as [e|responseBody].
  - cbn. split_and!.
    + intros _. split_and!; [done|done|discriminate].
    + discriminate.
    + split; [|intros [_ [=]]].
      intros (b & Hb). discriminate Hb.
  - destruct (Z.eqb_spec (http.StatusCode resp) http.StatusOK) as [E|E];
      unfold http.StatusOK in E; cbn [negb].
    + destruct target as [unmarshal|].
      * destruct (unmarshal responseBody) as [err|v] eqn:Hv; cbn;
          (split_and!; [done| |split; [intros [b Hb]; discriminate Hb|by intros [? _]]]);
          intros _ ? [= <-]; by rewrite Hv.
      * cbn. split_and!; [done| |split; [intros [b Hb]; discriminate Hb|by intros [? _]]].
        by intros _ ? [= <-].
    + cbn. split_and!; [|done|].
      * intros _. split_and!; [done|done|]. by intros ? [= <-].
      * split; [done|]. intros _. by exists responseBody.
Qed.

Lemma makeAPIRequest_unread_body {T} (apiKey method endpointURL : string)
    (body : option string) (target : option (string -> error + T))
    (w : World) (req : http.Request) (resp : http.Response) (err : error) :
  httpc.NewRequest method (baseURL +:+ endpointURL +:+ "?key=" +:+ apiKey) body
    = inr req ->
  remote w (httpc.Header_Set_ContentType "application/json" req) = inr resp ->
  http.RespBody resp = inl err ->
  (makeAPIRequest apiKey method endpointURL body target w).1
  = inl ("failed to read response body: " +:+ err).
Proof.
  intros Hreq Hresp Hbody. unfold makeAPIRequest.
  rewrite Hreq. run. unfold httpc.Do at 1. cbn [fst snd].
  by rewrite Hresp, Hbody.
Qed.

(** C8. A response whose status is not in the 2xx class makes the call
    return an error, never a result; and the text of the error contains
    the status line of the response and its body, byte for byte. *)
Theorem makeAPIRequest_non_2xx {T} (apiKey method endpointURL : string)
    (body : option string) (target : option (string -> error + T))
    (w : World) (req : http.Request) (resp : http.Response) :
  httpc.NewRequest method (baseURL +:+ endpointURL +:+ "?key=" +:+ apiKey) body
    = inr req ->
  remote w (httpc.Header_Set_ContentType "application/json" req) = inr resp ->
  ~ (200 <= http.StatusCode resp <= 299) ->
  exists err,
    (makeAPIRequest apiKey method endpointURL body target w).1 = inl err
    /\ forall responseBody,
         http.RespBody resp = inr responseBody ->
         contains err (http.Status resp) /\ contains err responseBody.
Proof.
  intros Hreq Hresp Hcode.
  destruct (http.RespBody resp) as [e|responseBody] eqn:Hbody.
  - rewrite (makeAPIRequest_unread_body _ _ _ _ _ _ _ _ _ Hreq Hresp Hbody).
    eexists. split; [reflexivity|]. discriminate.
  - rewrite (makeAPIRequest_not_OK _ _ _ _ _ _ _ _ _ Hreq Hresp Hbody)
      by (unfold http.StatusOK; lia).
    eexists. split; [reflexivity|]. intros ? [= <-]. split.
    + apply contains_here.
    + exists ("API error: " +:+ http.Status resp +:+ ", Body: "), "".
      by rewrite !str_app_assoc, str_app_nil_r.
Qed.

End APIClient.

Lemma makeAPIRequest_only_200_witness :
  (let '(r, w') :=
     makeAPIRequest (golib := sample.lib) (T := unit)
       "k3y" "POST" "/models/m:generateContent" (Some "{}") None sample.world201 in
   r = inl "API error: 201 Created, Body: {}"
   /\ stdout w' = stdout sample.world201)
  /\ (let '(r, w') :=
        makeAPIRequest (golib := demo.lib) (T := unit)
          "k3y" "POST" "/models/m:generateContent" (Some "{}") None demo.world in
      r = inr None /\ stdout w' = ["{}" +:+ nl]).
Proof.
  split.
  - pose proof (makeAPIRequest_only_200 (golib := sample.lib) (T := unit)
                  "k3y" "POST" "/models/m:generateContent" (Some "{}") None
                  sample.world201 _ _ eq_refl eq_refl) as H.
    destruct (makeAPIRequest _ _ _ _ _ _) as [r w'].
    destruct H as [H _]. destruct (H ltac:(discriminate)) as (_ & Hout & Hr).
    split; [exact (Hr _ eq_refl)|exact Hout].
  - pose proof (makeAPIRequest_only_200 (golib := demo.lib) (T := unit)
                  "k3y" "POST" "/models/m:generateContent" (Some "{}") None
                  demo.world _ _ eq_refl eq_refl) as H.
    destruct (makeAPIRequest _ _ _ _ _ _) as [r w'].
    destruct H as (_ & H & _). exact (H eq_refl _ eq_refl).
Defined.

Lemma makeAPIRequest_non_2xx_witness :
  exists err,
    (makeAPIRequest (golib := sample.lib) (T := unit)
       "k3y" "GET" "/models" None None sample.world).1 = inl err
    /\ contains err "404 Not Found"
    /\ contains err "{ error: model not found }".
Proof.
  destruct (makeAPIRequest_non_2xx (golib := sample.lib) (T := unit)
              "k3y" "GET" "/models" None None sample.world
              _ _ eq_refl eq_refl ltac:(cbn; lia)) as (err & Herr & Hc).
  exists err. split; [exact Herr|]. by apply Hc.
Defined.

(** ** The key store *)

Section KeyStore.
Context {golib : GoLib}.

(** C10. [loadAPIKey] never succeeds with an empty key: whatever the
    configuration file holds and however it is decoded, the result is an
    error or a key that is not the empty string. *)
Theorem loadAPIKey_nonempty (w : World) :
  match (loadAPIKey w).1 with
  | inl _ => True
  | inr key => key <> ""
  end.
Proof.
  unfold loadAPIKey. run.
  destruct (getConfigPath w) as [[e|configPath] w1]; [exact I|].
  run. unfold os.Stat at 1. destruct (fs w1 !! configPath) as [n|]; [|exact I].
  cbn [os.IsNotExist]. run.
  destruct (os.ReadFile configPath w1) as [[e|data] w2]; cbn [fst snd]; [exact I|].
  destruct (json_Unmarshal_Config data) as [e|config]; [exact I|].
  destruct (String.eqb_spec (Config.APIKey config) "") as [E|E]; [exact I|].
  exact E.
Qed.

Lemma getConfigPath_inv (w w1 : World) (configPath : string) :
  getConfigPath w = (inr configPath, w1) ->
  exists configDir,
    UserConfigDir w = inr configDir
    /\ configPath = filepath_Join (filepath_Join configDir "gemini-cli") "config.json"
    /\ (exists perm, fs w1 !! filepath_Join configDir "gemini-cli" = Some (Dir perm))
    /\ UserConfigDir w1 = UserConfigDir w
    /\ stdout w1 = stdout w.
Proof.
  unfold getConfigPath. run. unfold os.GetUserConfigDir at 1.
  destruct (UserConfigDir w) as [e|configDir] eqn:Ed; [discriminate|].
  run. unfold os.MkdirAll.
  destruct (fs w !! filepath_Join configDir "gemini-cli") as [[p d|p]|] eqn:El;
    cbn [fst snd]; [discriminate| |]; intros [= <- <-]; exists configDir.
  - split_and!; try done. by exists p.
  - split_and!; try done. exists 0x1C0. cbn. apply lookup_insert_eq.
Qed.

Lemma getConfigPath_again (w : World) (configDir : string) (perm : Z) :
  UserConfigDir w = inr configDir ->
  fs w !! filepath_Join configDir "gemini-cli" = Some (Dir perm) ->
  getConfigPath w
  = (inr (filepath_Join (filepath_Join configDir "gemini-cli") "config.json"), w).
Proof.
  intros Hd Hl. unfold getConfigPath. run. unfold os.GetUserConfigDir at 1.
  rewrite Hd. run. unfold os.MkdirAll. rewrite Hl. reflexivity.
Qed.

(** What a successful [saveAPIKey] leaves behind: the encoded
    configuration is in the file at the configuration path, and looking
    up the path again gives the same path without changing anything. *)
Lemma saveAPIKey_inv (apiKey : string) (w w' : World) :
  saveAPIKey apiKey w = (inr tt, w') ->
  exists configPath data perm,
    json_MarshalIndent_Config (Config.mk apiKey) = inr data
    /\ fs w' !! configPath = Some (File perm data)
    /\ getConfigPath w' = (inr configPath, w').
Proof.
  unfold saveAPIKey. run.
  destruct (getConfigPath w) as [[e|configPath] w1] eqn:Eg; [discriminate|].
  apply getConfigPath_inv in Eg as (configDir & Hd & -> & [p Hdir] & Hd1 & _).
  destruct (json_MarshalIndent_Config (Config.mk apiKey)) as [e|data]; [discriminate|].
  run. unfold os.WriteFile at 1 2.
  remember (filepath_Join configDir "gemini-cli") as appDir eqn:Ea.
  remember (filepath_Join appDir "config.json") as configPath eqn:Ec.
  assert (forall perm' f,
            fs w1 !! configPath <> Some (Dir p) ->
            getConfigPath (add_stdout f (set_fs (<[configPath := File perm' data]> (fs w1)) w1))
            = (inr configPath,
               add_stdout f (set_fs (<[configPath := File perm' data]> (fs w1)) w1)))
    as Hagain.
  { intros perm' f Hnd. subst configPath appDir.
    apply (getConfigPath_again _ configDir p); [cbn; congruence|].
    cbn. rewrite lookup_insert_ne; [exact Hdir|].
    intros E. rewrite E in Hnd. congruence. }
  destruct (fs w1 !! configPath) as [[p' d'|p']|] eqn:El; cbn [fst snd];
    [|discriminate|]; run; unfold fmt.Print; intros [= <-].
  - exists configPath, data, p'. split; [reflexivity|]. split.
    + cbn. apply lookup_insert_eq.
    + by apply Hagain.
  - exists configPath, data, 0x180. split; [reflexivity|]. split.
    + cbn. apply lookup_insert_eq.
    + by apply Hagain.
Qed.

(** C6, as it holds. Storing a key and loading it back returns the same
    string, provided the key is not empty and the JSON codec gives it
    back unchanged. *)
Theorem save_then_load (apiKey : string) (w w' : World) :
  apiKey <> "" ->
  (forall data, json_MarshalIndent_Config (Config.mk apiKey) = inr data ->
                json_Unmarshal_Config data = inr (Config.mk apiKey)) ->
  saveAPIKey apiKey w = (inr tt, w') ->
  (loadAPIKey w').1 = inr apiKey.
Proof.
  intros Hne Hcodec Hsave.
  apply saveAPIKey_inv in Hsave as (configPath & data & perm & Hm & Hf & Hg).
  unfold loadAPIKey. run. rewrite Hg. run.
  unfold os.Stat at 1. rewrite Hf. cbn [os.IsNotExist]. run.
  unfold os.ReadFile. rewrite Hf. cbn [fst snd].
  rewrite (Hcodec data Hm). cbn [Config.APIKey].
  destruct (String.eqb_spec apiKey "") as [E|_]; [contradiction|].
  reflexivity.
Qed.

End KeyStore.

Lemma save_then_load_witness :
  (loadAPIKey (golib := sample.lib)
     (saveAPIKey (golib := sample.lib) "AIzaSy-k3y" sample.world).2).1
  = inr "AIzaSy-k3y".
Proof.
  apply (save_then_load (golib := sample.lib) "AIzaSy-k3y" sample.world).
  - discriminate.
  - intros data [= <-]. vm_compute. reflexivity.
  - vm_compute. reflexivity.
Defined.

(** C6 as stated fails at the empty key: [saveAPIKey] stores it, and
    [loadAPIKey] then reports that the file holds no key. *)
Lemma save_then_load_empty_key :
  (saveAPIKey (golib := sample.lib) "" sample.world).1 = inr tt
  /\ (loadAPIKey (golib := sample.lib)
        (saveAPIKey (golib := sample.lib) "" sample.world).2).1
     = inl ("API key not found in config file "
            +:+ "/home/u/.config/gemini-cli/config.json"
            +:+ ". Run 'set-config --key YOUR_KEY'").
Proof.
  split; vm_compute; reflexivity.
Qed.

(** ** The request builder (api.go) *)

Section Builder.
Context {golib : GoLib}.

Lemma readFileOrString_world (pathOrString : string) (w : World) :
  (readFileOrString pathOrString w).2 = w.
Proof.
  unfold readFileOrString. destruct (strings.HasPrefix _ _); [|reflexivity].
  run. unfold os.ReadFile.
  by destruct (fs w !! _) as [[]|].
Qed.

Lemma str_cons_app_ne (c d : ascii) (a b e : string) :
  c <> d -> String c a +:+ b <> String d e.
Proof. intros Hne. rewrite str_app_cons. congruence. Qed.

Lemma buildParts_error (parsedParts : list ParsedPart.t) (apiParts : list Part.t)
    (w w' : World) (e : error) :
  buildParts parsedParts apiParts w = (inl e, w') -> e <> emptyRequestError.
Proof.
  revert apiParts w. induction parsedParts as [|p rest IH]; intros apiParts w;
    cbn [buildParts].
  - discriminate.
  - destruct (ParsedPart.Type_ p =? "text")%string; [apply IH|].
    destruct (ParsedPart.Type_ p =? "file")%string.
    + run. destruct (processFileArgument (ParsedPart.Value p) w) as [[e'|[m d]] w1];
        cbn [fst snd].
      * intros [= <- _]. by apply str_cons_app_ne.
      * apply IH.
    + intros [= <- _]. by apply str_cons_app_ne.
Qed.

Lemma populateGenerationConfig_error (genConfigInput : GenerationConfigInput.t)
    (w w' : World) (e : error) :
  populateGenerationConfig genConfigInput w = (inl e, w') ->
  e <> emptyRequestError.
Proof.
  unfold populateGenerationConfig.
  repeat match goal with
         | |- context [if ?c then (_, true) else _] => destruct c
         end; cbv zeta; cbn iota; run.
  all: destruct (negb _); run;
    [destruct (readFileOrString _ w) as [[e'|c] w1]; cbn [fst snd] |];
    repeat match goal with
           | |- context [if ?c then (_, true) else _] => destruct c
           end;
    try discriminate; intros [= <- _]; by apply str_cons_app_ne.
Qed.

Lemma populateSafetySettings_error (pairs : list string)
    (settings : list SafetySetting.t) (e : error) :
  populateSafetySettings pairs settings = inl e -> e <> emptyRequestError.
Proof.
  revert settings. induction pairs as [|pair_ rest IH]; intros settings;
    cbn [populateSafetySettings]; [discriminate|].
  destruct (_ =? 2)%nat.
  - destruct (_ && _); [apply IH|]. intros [= <-]. by apply str_cons_app_ne.
  - destruct (negb _); [|apply IH]. intros [= <-]. by apply str_cons_app_ne.
Qed.

(** The builder, phase by phase. *)
Lemma build_run (systemInstructionStr : string) (parsedParts : list ParsedPart.t)
    (genConfigInput : GenerationConfigInput.t) (toolsInput : ToolsInput.t)
    (safetySettingsStr : string) (w : World) :
  buildGenerateContentRequest systemInstructionStr parsedParts genConfigInput
    toolsInput safetySettingsStr w
  = match buildContents systemInstructionStr parsedParts w with
    | (inl e, w1) => (inl e, w1)
    | (inr req, w1) =>
      match populateGenerationConfig genConfigInput w1 with
      | (inl e, w2) => (inl e, w2)
      | (inr (genCfg, genCfgChanged), w2) =>
        let req1 :=
          if genCfgChanged : bool
          then GenerateContentRequest.set_GenerationConfig genCfg req else req in
        let req2 :=
          if (0 <? length (populateTools toolsInput))%nat
          then GenerateContentRequest.set_Tools (populateTools toolsInput) req1
          else req1 in
        if negb (safetySettingsStr =? "")%string then
          match populateSafetySettings (strings.Split safetySettingsStr ",")
                  (GenerateContentRequest.SafetySettings req2) with
          | inl err => (inl err, w2)
          | inr settings =>
            (inr (GenerateContentRequest.set_SafetySettings settings req2), w2)
          end
        else (inr req2, w2)
      end
    end.
Proof.
  unfold buildGenerateContentRequest. run.
  destruct (buildContents _ _ w) as [[e|req] w1]; [reflexivity|]. run.
  destruct (populateGenerationConfig _ w1) as [[e|[genCfg ch]] w2]; [reflexivity|].
  cbv zeta. destruct (negb _); [|reflexivity].
  by destruct (populateSafetySettings _ _).
Qed.

Lemma buildContents_error (systemInstructionStr : string)
    (parsedParts : list ParsedPart.t) (w w' : World) (e : error) :
  parsedParts <> [] \/ systemInstructionStr <> "" ->
  buildContents systemInstructionStr parsedParts w = (inl e, w') ->
  e <> emptyRequestError.
Proof.
  intros Hin. unfold buildContents.
  destruct parsedParts as [|p rest]; cbn [length Nat.ltb Nat.leb].
  - destruct Hin as [Hin|Hin]; [contradiction|].
    destruct (String.eqb_spec systemInstructionStr "") as [E|_]; [contradiction|].
    discriminate.
  - run. destruct (buildParts (p :: rest) [] w) as [[e'|ps] w2] eqn:Eb;
      [|discriminate].
    intros [= <- _]. by apply buildParts_error in Eb.
Qed.

(** The request after the first block: the system instruction and the
    contents are in place, the other fields still empty. *)
Lemma buildContents_spec (systemInstructionStr : string)
    (parsedParts : list ParsedPart.t) (w w' : World) (req : GenerateContentRequest.t) :
  buildContents systemInstructionStr parsedParts w = (inr req, w') ->
  GenerateContentRequest.SystemInstruction req
  = (if negb (systemInstructionStr =? "")%string
     then Some (SystemInstruction.mk [TextPart.mk systemInstructionStr]) else None)
  /\ (if (0 <? length parsedParts)%nat
      then exists apiParts,
             buildParts parsedParts [] w = (inr apiParts, w')
             /\ GenerateContentRequest.Contents req = [Content.mk "" apiParts]
      else GenerateContentRequest.Contents req = [] /\ w' = w)
  /\ GenerateContentRequest.Tools req = []
  /\ GenerateContentRequest.SafetySettings req = []
  /\ GenerateContentRequest.GenerationConfig req = None.
Proof.
  unfold buildContents. destruct (0 <? length parsedParts)%nat.
  - run. destruct (buildParts parsedParts [] w) as [[e|apiParts] w1]; [discriminate|].
    intros [= <- <-]. destruct (negb _); cbn; split_and!; eauto.
  - destruct (systemInstructionStr =? "")%string; [discriminate|].
    intros [= <- <-]. cbn. split_and!; reflexivity.
Qed.

(** C1. With no part and no system instruction the builder returns the
    validation error and no request, touches nothing, and the generate
    command exits with status 1 without a network call; with a part or a
    system instruction present, whatever else goes wrong, it is not this
    check that fails. *)
Theorem request_needs_input
    (apiKey modelName systemInstructionStr : string)
    (parsedParts : list ParsedPart.t)
    (genConfigInput : GenerationConfigInput.t)
    (toolsInput : ToolsInput.t) (safetySettingsStr : string) (w : World) :
  (parsedParts = [] -> systemInstructionStr = "" ->
   buildGenerateContentRequest systemInstructionStr parsedParts genConfigInput
     toolsInput safetySettingsStr w = (inl emptyRequestError, w)
   /\ exists w',
        handleGenerateContent apiKey modelName systemInstructionStr parsedParts
          genConfigInput toolsInput safetySettingsStr w = (inl 1, w')
        /\ sent w' = sent w /\ stdout w' = stdout w)
  /\ (parsedParts <> [] \/ systemInstructionStr <> "" ->
      (buildGenerateContentRequest systemInstructionStr parsedParts genConfigInput
         toolsInput safetySettingsStr w).1 <> inl emptyRequestError).
Proof.
  split.
  - intros -> ->.
    assert (buildGenerateContentRequest "" [] genConfigInput toolsInput
              safetySettingsStr w = (inl emptyRequestError, w)) as Hb by reflexivity.
    split; [exact Hb|].
    unfold handleGenerateContent. run. rewrite Hb. cbn [fst snd]. run.
    eexists. split; [reflexivity|]. split; reflexivity.
  - intros Hin. rewrite build_run.
    destruct (buildContents _ _ w) as [[e|req] w1] eqn:Ec; cbn [fst].
    { apply buildContents_error in Ec; [congruence|exact Hin]. }
    destruct (populateGenerationConfig genConfigInput w1) as [[e|[genCfg ch]] w2] eqn:Eg;
      cbn [fst].
    { apply populateGenerationConfig_error in Eg. congruence. }
    cbv zeta. destruct (negb _); [|discriminate].
    destruct (populateSafetySettings _ _) as [e|st] eqn:Es; [|discriminate].
    apply populateSafetySettings_error in Es. cbn. congruence.
Qed.

Lemma float64_lt_not_ge (x y : float64) :
  float64_lt x y = true -> float64_ge x y = false.
Proof.
  unfold float64_lt, SFltb, float64_ge.
  destruct (SFcompare x y) as [[]|]; congruence.
Qed.

(** What "Populate GenerationConfig" computes, field by field. *)
Lemma populateGenerationConfig_spec (genConfigInput : GenerationConfigInput.t)
    (w w' : World) (genCfg : GenerationConfig.t) (genCfgChanged : bool) :
  populateGenerationConfig genConfigInput w = (inr (genCfg, genCfgChanged), w') ->
  let i := genConfigInput in
  w' = w
  /\ GenerationConfig.Temperature genCfg
     = (if float64_ge (GenerationConfigInput.Temperature i) float64_zero
        then Some (GenerationConfigInput.Temperature i) else None)
  /\ GenerationConfig.MaxOutputTokens genCfg
     = (if GenerationConfigInput.MaxOutputTokens i >=? 0
        then Some (GenerationConfigInput.MaxOutputTokens i) else None)
  /\ GenerationConfig.TopP genCfg
     = (if float64_ge (GenerationConfigInput.TopP i) float64_zero
        then Some (GenerationConfigInput.TopP i) else None)
  /\ GenerationConfig.TopK genCfg
     = (if GenerationConfigInput.TopK i >=? 0
        then Some (GenerationConfigInput.TopK i) else None)
  /\ GenerationConfig.StopSequences genCfg
     = (if negb (GenerationConfigInput.StopSequence i =? "")%string
        then [GenerationConfigInput.StopSequence i] else [])
  /\ GenerationConfig.ResponseMimeType genCfg
     = (if negb (GenerationConfigInput.ResponseMimeType i =? "")%string
        then Some (GenerationConfigInput.ResponseMimeType i) else None)
  /\ (if negb (GenerationConfigInput.ResponseSchemaFileOrJSON i =? "")%string
      then exists schemaContent,
             (readFileOrString (GenerationConfigInput.ResponseSchemaFileOrJSON i) w).1
               = inr schemaContent
             /\ GenerationConfig.ResponseSchema genCfg = Some schemaContent
      else GenerationConfig.ResponseSchema genCfg = None)
  /\ GenerationConfig.ThinkingConfig genCfg
     = (if (GenerationConfigInput.ThinkingBudget i >=? 0)
           || GenerationConfigInput.IncludeThoughts i
        then Some (ThinkingConfig.mk
                     (if GenerationConfigInput.ThinkingBudget i >=? 0
                      then Some (GenerationConfigInput.ThinkingBudget i) else None)
                     (if GenerationConfigInput.IncludeThoughts i
                      then Some true else None))
        else None)
  /\ genCfgChanged = anySet i.
Proof.
  cbv zeta. unfold populateGenerationConfig, anySet.
  pose proof (readFileOrString_world
                (GenerationConfigInput.ResponseSchemaFileOrJSON genConfigInput) w) as Hw.
  destruct (float64_ge (GenerationConfigInput.Temperature _) _),
    (GenerationConfigInput.MaxOutputTokens _ >=? 0),
    (float64_ge (GenerationConfigInput.TopP _) _),
    (GenerationConfigInput.TopK _ >=? 0),
    (negb (GenerationConfigInput.StopSequence _ =? "")%string),
    (negb (GenerationConfigInput.ResponseMimeType _ =? "")%string),
    (negb (GenerationConfigInput.ResponseSchemaFileOrJSON _ =? "")%string),
    (GenerationConfigInput.ThinkingBudget _ >=? 0),
    (GenerationConfigInput.IncludeThoughts _);
    cbv zeta; cbn iota; run;
    try (destruct (readFileOrString _ w) as [[e|c] w1]; cbn [fst snd] in *;
         [discriminate|]; subst w1);
    intros [= <- <- <-]; cbn; split_and!; try reflexivity; by eexists.
Qed.

(** C2. In a request that the builder returns: if every generation
    parameter is at its "unset" value there is no generation block; if
    exactly temperature 0.7 and topK 40 are set the block holds these
    two fields and nothing else; and a thinking sub-block sits inside
    the generation block exactly when the thinking budget is not
    negative or includeThoughts is true. *)
Theorem generation_block
    (systemInstructionStr : string) (parsedParts : list ParsedPart.t)
    (genConfigInput : GenerationConfigInput.t) (toolsInput : ToolsInput.t)
    (safetySettingsStr : string) (w w' : World) (req : GenerateContentRequest.t) :
  buildGenerateContentRequest systemInstructionStr parsedParts genConfigInput
    toolsInput safetySettingsStr w = (inr req, w') ->
  let i := genConfigInput in
  let othersUnset :=
    GenerationConfigInput.MaxOutputTokens i < 0
    /\ float64_lt (GenerationConfigInput.TopP i) float64_zero = true
    /\ GenerationConfigInput.ThinkingBudget i < 0
    /\ GenerationConfigInput.StopSequence i = ""
    /\ GenerationConfigInput.ResponseMimeType i = ""
    /\ GenerationConfigInput.ResponseSchemaFileOrJSON i = ""
    /\ GenerationConfigInput.IncludeThoughts i = false in
  (float64_lt (GenerationConfigInput.Temperature i) float64_zero = true ->
   GenerationConfigInput.TopK i < 0 -> othersUnset ->
   GenerateContentRequest.GenerationConfig req = None)
  /\ (GenerationConfigInput.Temperature i = float64_0_7 ->
      GenerationConfigInput.TopK i = 40 -> othersUnset ->
      GenerateContentRequest.GenerationConfig req
      = Some (GenerationConfig.mk [] (Some float64_0_7) None None (Some 40)
                None None None))
  /\ ((exists genCfg thinkingCfg,
         GenerateContentRequest.GenerationConfig req = Some genCfg
         /\ GenerationConfig.ThinkingConfig genCfg = Some thinkingCfg)
      <-> (GenerationConfigInput.ThinkingBudget i >= 0
           \/ GenerationConfigInput.IncludeThoughts i = true)).
Proof.
  rewrite build_run.
  destruct (buildContents _ _ w) as [[e|req0] w1] eqn:Ec; [discriminate|].
  destruct (populateGenerationConfig genConfigInput w1) as [[e|[genCfg ch]] w2] eqn:Eg;
    [discriminate|].
  apply populateGenerationConfig_spec in Eg
    as (_ & HT & HM & HP & HK & HS & HR & HJ & HTh & Hch).
  apply buildContents_spec in Ec as (_ & _ & _ & _ & Hg0).
  cbv zeta. intros Hb.
  assert (GenerateContentRequest.GenerationConfig req
          = if ch then Some genCfg else None) as Hreq.
  { destruct (negb (safetySettingsStr =? "")%string).
    - destruct (populateSafetySettings _ _); [discriminate|].
      injection Hb as <- _.
      by destruct ch, (0 <? length (populateTools toolsInput))%nat.
    - injection Hb as <- _.
      by destruct ch, (0 <? length (populateTools toolsInput))%nat. }
  rewrite Hreq. clear Hreq.
  assert (forall z, z < 0 -> (z >=? 0) = false) as Hneg by (intros; lia).
  split; [|split].
  - intros Ht Hk (Hm & Hp & Hbu & Hs & Hr & Hj & Hi).
    subst ch. unfold anySet.
    rewrite (float64_lt_not_ge _ _ Ht), (float64_lt_not_ge _ _ Hp),
      !Hneg, Hs, Hr, Hj, Hi by assumption.
    reflexivity.
  - intros Ht Hk (Hm & Hp & Hbu & Hs & Hr & Hj & Hi).
    subst ch. unfold anySet. destruct genCfg as [ss t m p k r j th]. cbn in *.
    rewrite Ht, Hk, (float64_lt_not_ge _ _ Hp), Hs, Hr, Hj, Hi, !Hneg in *
      by assumption.
    cbn in *. by subst.
  - subst ch. split.
    + intros (g & t & Hg & Ht).
      destruct (anySet genConfigInput); [|discriminate]. injection Hg as <-.
      rewrite HTh in Ht.
      destruct (Z.geb_spec (GenerationConfigInput.ThinkingBudget genConfigInput) 0);
        [left; lia|].
      destruct (GenerationConfigInput.IncludeThoughts genConfigInput); [by right|].
      discriminate.
    + intros Hset.
      assert ((GenerationConfigInput.ThinkingBudget genConfigInput >=? 0)
              || GenerationConfigInput.IncludeThoughts genConfigInput = true) as Hor.
      { destruct Hset as [Hbu|Hi]; [|by rewrite Hi, orb_true_r].
        apply orb_true_iff. left. lia. }
      assert (anySet genConfigInput = true) as ->.
      { unfold anySet. rewrite <- orb_assoc, Hor. apply orb_true_r. }
      rewrite Hor in HTh. eauto.
Qed.

(** *** Safety settings *)

Lemma splitLoop_join (n : nat) (s sep : string) :
  joinWith sep (strings.splitLoop n s sep) = s.
Proof.
  revert s. induction n as [|n IH]; intros s; cbn [strings.splitLoop]; [reflexivity|].
  destruct (strings.Index s sep) as [m|] eqn:E; [|reflexivity].
  cbn [joinWith]. specialize (IH (str_drop (m + len sep) s)).
  destruct (strings.splitLoop n _ sep) as [|x rest] eqn:El.
  - by destruct n; cbn in El; [|destruct (strings.Index _ _)].
  - rewrite IH. symmetry. by apply Index_Some.
Qed.

Lemma str_drop_length (n : nat) (s : string) : len (str_drop n s) = (len s - n)%nat.
Proof.
  revert s. induction n as [|n IH]; intros [|c s]; cbn; try reflexivity.
  apply IH.
Qed.

Lemma splitLoop_no_sep (n : nat) (s sep e : string) :
  sep <> "" -> (len s <= n)%nat -> e ∈ strings.splitLoop n s sep ->
  ~ contains e sep.
Proof.
  intros Hne. revert s. induction n as [|n IH]; intros s Hlen;
    cbn [strings.splitLoop].
  - intros ->%list_elem_of_singleton. destruct s; [|cbn in Hlen; lia].
    intros (a & b & Hab). destruct a; [|discriminate Hab].
    destruct sep; [done|discriminate Hab].
  - destruct (strings.Index s sep) as [m|] eqn:E.
    + intros [->|Hin]%elem_of_cons; [by apply Index_first|].
      apply (IH (str_drop (m + len sep) s)); [|exact Hin].
      rewrite str_drop_length. destruct sep; [done|]. cbn [len String.length]. lia.
    + intros ->%list_elem_of_singleton. by apply Index_None.
Qed.

(** What each kind of entry looks like. *)
Lemma readEntry_spec (p : string) :
  match readEntry p with
  | Blank => strings.TrimSpace p = ""
  | NoColon => strings.TrimSpace p <> "" /\ ~ contains (strings.TrimSpace p) ":"
  | Setting c t =>
    exists a b, strings.TrimSpace p = a +:+ ":" +:+ b /\ ~ contains a ":"
                /\ c = strings.TrimSpace a /\ t = strings.TrimSpace b
                /\ c <> "" /\ t <> ""
  | EmptyField =>
    exists a b, strings.TrimSpace p = a +:+ ":" +:+ b /\ ~ contains a ":"
                /\ (strings.TrimSpace a = "" \/ strings.TrimSpace b = "")
  end.
Proof.
  unfold readEntry.
  destruct (strings.SplitN (strings.TrimSpace p) ":" 2) as [|a [|b [|x l]]] eqn:E.
  - destruct (SplitN_2_cases (strings.TrimSpace p) ":") as [?|(?&?&?)]; congruence.
  - destruct (String.eqb_spec (strings.TrimSpace p) ""); [done|]. split; [done|].
    unfold strings.SplitN in E.
    destruct (Nat.min 2 (len (strings.TrimSpace p) + 1)) as [|[|k]] eqn:Em;
      [lia| |].
    + destruct (strings.TrimSpace p); [done|]. cbn [len String.length] in Em. lia.
    + assert (k = 0%nat) as -> by lia. cbn [strings.splitLoop] in E.
      destruct (strings.Index _ ":") eqn:Ei; [discriminate|]. by apply Index_None.
  - apply SplitN_2_inv in E as [E Hn]; [|discriminate].
    destruct (String.eqb_spec (strings.TrimSpace a) ""),
      (String.eqb_spec (strings.TrimSpace b) ""); cbn [orb]; exists a, b; auto 10.
  - destruct (SplitN_2_cases (strings.TrimSpace p) ":") as [?|(?&?&?)]; congruence.
Qed.

Lemma populateSafetySettings_step (p : string) (rest : list string)
    (settings : list SafetySetting.t) :
  populateSafetySettings (p :: rest) settings
  = match readEntry p with
    | Blank => populateSafetySettings rest settings
    | Setting c t => populateSafetySettings rest (settings ++ [SafetySetting.mk c t])%list
    | EmptyField => inl (safetyPairError p)
    | NoColon => inl (safetyFormatError p)
    end.
Proof.
  cbn [populateSafetySettings]. unfold readEntry.
  destruct (SplitN_2_cases (strings.TrimSpace p) ":") as [->|(a & b & ->)];
    cbn [length Nat.eqb nth].
  - destruct (strings.TrimSpace p =? "")%string; reflexivity.
  - destruct (strings.TrimSpace a =? "")%string,
      (strings.TrimSpace b =? "")%string; reflexivity.
Qed.

Lemma populateSafetySettings_ok (entries : list string)
    (settings : list SafetySetting.t) :
  Forall wellFormedEntry entries ->
  populateSafetySettings entries settings = inr (settings ++ settingsOf entries)%list.
Proof.
  intros Hwf. revert settings.
  induction Hwf as [|p rest [Hp|(c & t & Hp)] _ IH]; intros settings.
  - cbn. by rewrite app_nil_r.
  - rewrite populateSafetySettings_step. cbn [settingsOf]. rewrite Hp. apply IH.
  - rewrite populateSafetySettings_step. cbn [settingsOf]. rewrite Hp, IH.
    by rewrite <- app_assoc.
Qed.

Lemma populateSafetySettings_first_bad (before after : list string) (p : string)
    (settings : list SafetySetting.t) :
  Forall wellFormedEntry before ->
  populateSafetySettings (before ++ p :: after) settings
  = match readEntry p with
    | EmptyField => inl (safetyPairError p)
    | NoColon => inl (safetyFormatError p)
    | _ => populateSafetySettings (before ++ p :: after) settings
    end.
Proof.
  intros Hwf. revert settings.
  induction Hwf as [|q rest [Hq|(c & t & Hq)] _ IH]; intros settings; cbn [app].
  - rewrite populateSafetySettings_step. by destruct (readEntry p).
  - rewrite populateSafetySettings_step, Hq, IH. by destruct (readEntry p).
  - rewrite populateSafetySettings_step, Hq, IH. by destruct (readEntry p).
Qed.

Lemma populateSafetySettings_bad (entries : list string) (p : string)
    (settings : list SafetySetting.t) :
  p ∈ entries -> readEntry p = EmptyField \/ readEntry p = NoColon ->
  isErr (populateSafetySettings entries settings) = true.
Proof.
  intros Hin Hbad. revert settings.
  induction entries as [|q rest IH]; intros settings.
  - by apply elem_of_nil in Hin.
  - rewrite populateSafetySettings_step.
    apply elem_of_cons in Hin as [<-|Hin].
    + destruct Hbad as [-> | ->]; reflexivity.
    + destruct (readEntry q); try reflexivity; by apply IH.
Qed.

(** The builder on a safety string, from the builder on the same
    command without one. *)
Lemma build_safety (systemInstructionStr : string) (parsedParts : list ParsedPart.t)
    (genConfigInput : GenerationConfigInput.t) (toolsInput : ToolsInput.t)
    (safetySettingsStr : string) (w : World) :
  buildGenerateContentRequest systemInstructionStr parsedParts genConfigInput
    toolsInput safetySettingsStr w
  = match buildGenerateContentRequest systemInstructionStr parsedParts
            genConfigInput toolsInput "" w with
    | (inl e, w') => (inl e, w')
    | (inr req, w') =>
      if negb (safetySettingsStr =? "")%string then
        match populateSafetySettings (strings.Split safetySettingsStr ",") [] with
        | inl err => (inl err, w')
        | inr settings =>
          (inr (GenerateContentRequest.set_SafetySettings settings req), w')
        end
      else (inr req, w')
    end
    /\ forall req w',
         buildGenerateContentRequest systemInstructionStr parsedParts
           genConfigInput toolsInput "" w = (inr req, w') ->
         GenerateContentRequest.SafetySettings req = [].
Proof.
  rewrite !build_run.
  destruct (buildContents _ _ w) as [[e|req0] w1] eqn:Ec; [by split|].
  apply buildContents_spec in Ec as (_ & _ & _ & Hs0 & _).
  destruct (populateGenerationConfig genConfigInput w1) as [[e|[genCfg ch]] w2];
    [by split|].
  cbv zeta. cbn [String.eqb negb].
  assert (forall r, GenerateContentRequest.SafetySettings r = [] ->
            GenerateContentRequest.SafetySettings
              (if (0 <? length (populateTools toolsInput))%nat
               then GenerateContentRequest.set_Tools (populateTools toolsInput)
                      (if ch then GenerateContentRequest.set_GenerationConfig genCfg r
                       else r)
               else if ch then GenerateContentRequest.set_GenerationConfig genCfg r
                    else r) = []) as Hs.
  { intros r Hr. by destruct (0 <? length _)%nat, ch. }
  split.
  - destruct (negb _); [|reflexivity]. by rewrite (Hs req0 Hs0).
  - intros req w' [= <- _]. by apply Hs.
Qed.

(** C3. The safety string is split on commas and each
    trimmed entry on its first colon. With the empty string the request
    is the one built without safety settings, which has no override. The
    first entry that has no colon, or whose category or threshold is
    empty after trimming, makes the build fail with the error that names
    it, and any such entry makes the build fail. Without such an entry
    the overrides are the trimmed (category, threshold) pairs in order;
    for the two-entry example these are the two named overrides, and
    "BAD_PAIR" fails. *)
Theorem safety_settings
    (systemInstructionStr : string) (parsedParts : list ParsedPart.t)
    (genConfigInput : GenerationConfigInput.t) (toolsInput : ToolsInput.t)
    (safetySettingsStr : string) (w : World) :
  let build := buildGenerateContentRequest systemInstructionStr parsedParts
                 genConfigInput toolsInput in
  let entries := strings.Split safetySettingsStr "," in
  (joinWith "," entries = safetySettingsStr
   /\ forall p, p ∈ entries ->
        ~ contains p ","
        /\ match readEntry p with
           | Blank => strings.TrimSpace p = ""
           | NoColon =>
             strings.TrimSpace p <> "" /\ ~ contains (strings.TrimSpace p) ":"
           | Setting c t =>
             exists a b,
               strings.TrimSpace p = a +:+ ":" +:+ b /\ ~ contains a ":"
               /\ c = strings.TrimSpace a /\ t = strings.TrimSpace b
               /\ c <> "" /\ t <> ""
           | EmptyField =>
             exists a b,
               strings.TrimSpace p = a +:+ ":" +:+ b /\ ~ contains a ":"
               /\ (strings.TrimSpace a = "" \/ strings.TrimSpace b = "")
           end)
  /\ (forall e w', build "" w = (inl e, w') -> build safetySettingsStr w = (inl e, w'))
  /\ (forall req w', build "" w = (inr req, w') ->
      GenerateContentRequest.SafetySettings req = []
      /\ (safetySettingsStr = "" -> build safetySettingsStr w = (inr req, w'))
      /\ (safetySettingsStr <> "" -> Forall wellFormedEntry entries ->
          build safetySettingsStr w
          = (inr (GenerateContentRequest.set_SafetySettings (settingsOf entries) req), w'))
      /\ (forall before p after,
            safetySettingsStr <> "" -> entries = (before ++ p :: after)%list ->
            Forall wellFormedEntry before ->
            (readEntry p = EmptyField ->
             build safetySettingsStr w = (inl (safetyPairError p), w'))
            /\ (readEntry p = NoColon ->
                build safetySettingsStr w = (inl (safetyFormatError p), w'))))
  /\ (forall p, safetySettingsStr <> "" -> p ∈ entries ->
      readEntry p = EmptyField \/ readEntry p = NoColon ->
      isErr (build safetySettingsStr w).1 = true)
  /\ (safetySettingsStr
      = "HARM_CATEGORY_HARASSMENT:BLOCK_ONLY_HIGH,HARM_CATEGORY_HATE_SPEECH:BLOCK_MEDIUM_AND_ABOVE" ->
      forall req w', build "" w = (inr req, w') ->
      build safetySettingsStr w
      = (inr (GenerateContentRequest.set_SafetySettings
                [SafetySetting.mk "HARM_CATEGORY_HARASSMENT" "BLOCK_ONLY_HIGH";
                 SafetySetting.mk "HARM_CATEGORY_HATE_SPEECH" "BLOCK_MEDIUM_AND_ABOVE"]
                req), w'))
  /\ (safetySettingsStr = "BAD_PAIR" -> isErr (build safetySettingsStr w).1 = true).
Proof.
  cbv zeta.
  destruct (build_safety systemInstructionStr parsedParts genConfigInput toolsInput
              safetySettingsStr w) as [Hb Hs0].
  split; [|split; [|split; [|split; [|split]]]].
  - split; [apply splitLoop_join|].
    intros p Hp. split; [|apply readEntry_spec].
    by apply (splitLoop_no_sep (len safetySettingsStr) safetySettingsStr "," p).
  - intros e w' He. by rewrite Hb, He.
  - intros req w' Hr. rewrite Hb, Hr. split; [by eapply Hs0|].
    split; [by intros ->|]. split.
    + intros Hne Hwf. apply String.eqb_neq in Hne. rewrite Hne. cbn [negb].
      by rewrite populateSafetySettings_ok.
    + intros before p after Hne He Hwf. apply String.eqb_neq in Hne.
      rewrite Hne, He. cbn [negb].
      rewrite (populateSafetySettings_first_bad _ _ _ _ Hwf).
      split; by intros ->.
  - intros p Hne Hin Hbad. rewrite Hb.
    destruct (buildGenerateContentRequest _ _ _ _ "" w) as [[e|req] w']; [reflexivity|].
    apply String.eqb_neq in Hne. rewrite Hne. cbn [negb].
    pose proof (populateSafetySettings_bad _ _ [] Hin Hbad) as Hp.
    by destruct (populateSafetySettings _ _).
  - intros -> req w' Hr. rewrite Hb, Hr. reflexivity.
  - intros ->. rewrite Hb.
    by destruct (buildGenerateContentRequest _ _ _ _ "" w) as [[e|req] w'].
Qed.

End Builder.

(** ** The base64 decoder accepts the well-formed payloads *)

Ltac zbool :=
  repeat match goal with
         | H : _ && _ = true |- _ => apply andb_true_iff in H as [? ?]
         | H : _ || _ = true |- _ => apply orb_true_iff in H as [?|?]
         | H : _ && _ = false |- _ => apply andb_false_iff in H as [?|?]
         | H : _ || _ = false |- _ => apply orb_false_iff in H as [? ?]
         | H : negb _ = true |- _ => apply negb_true_iff in H
         | H : negb _ = false |- _ => apply negb_false_iff in H
         end;
  repeat match goal with
         | H : (_ <=? _) = true |- _ => apply Z.leb_le in H
         | H : (_ <=? _) = false |- _ => apply Z.leb_gt in H
         | H : (_ <? _) = true |- _ => apply Z.ltb_lt in H
         | H : (_ <? _) = false |- _ => apply Z.ltb_ge in H
         | H : (_ =? _) = true |- _ => apply Z.eqb_eq in H
         | H : (_ =? _) = false |- _ => apply Z.eqb_neq in H
         end.

Lemma decodeMap_base64Char (c : ascii) :
  base64Char c = match base64.decodeMap c with Some _ => true | None => false end.
Proof.
  unfold base64Char, base64.decodeMap. cbv zeta.
  destruct ((0x41 <=? byte_of c) && (byte_of c <=? 0x5A)); [reflexivity|].
  destruct ((0x61 <=? byte_of c) && (byte_of c <=? 0x7A)); [reflexivity|].
  destruct ((0x30 <=? byte_of c) && (byte_of c <=? 0x39)); [reflexivity|].
  destruct (byte_of c =? 0x2B); [reflexivity|].
  destruct (byte_of c =? 0x2F); reflexivity.
Qed.

Lemma base64Char_not_newline (c : ascii) :
  base64Char c = true -> base64.isNewline c = false.
Proof.
  unfold base64Char, base64.isNewline. cbv zeta. intros H.
  destruct ((byte_of c =? 0x0A) || (byte_of c =? 0x0D)) eqn:E; [|reflexivity].
  exfalso. zbool; lia.
Qed.

Lemma base64Char_not_pad (c : ascii) :
  base64Char c = true -> base64.isPad c = false.
Proof.
  unfold base64Char, base64.isPad. cbv zeta. intros H.
  destruct (_ =? 0x3D) eqn:E; [|reflexivity]. exfalso. zbool; lia.
Qed.

Lemma isPad_not_newline (c : ascii) :
  base64.isPad c = true -> base64.isNewline c = false.
Proof.
  unfold base64.isNewline, base64.isPad. intros H.
  destruct ((byte_of c =? 0x0A) || (byte_of c =? 0x0D)) eqn:E; [|reflexivity].
  exfalso. zbool; lia.
Qed.

Lemma skipNewlines_spec (s : string) (si : nat) :
  let '(rest, si') := base64.skipNewlines s si in
  stripLineBreaks s = stripLineBreaks rest
  /\ match rest with
     | "" => True
     | String c _ => base64.isNewline c = false
     end.
Proof.
  revert si. induction s as [|c s IH]; intros si; cbn [base64.skipNewlines].
  - by split.
  - destruct (base64.isNewline c) eqn:E.
    + specialize (IH (S si)). destruct (base64.skipNewlines s (S si)) as [rest si'].
      cbn [stripLineBreaks]. by rewrite E.
    + by split.
Qed.

Lemma afterPadding_spec (rest : string) (si : nat) (dst : string) (dbuf : list Z) :
  isErr (base64.afterPadding rest si dst dbuf)
  = match stripLineBreaks rest with [] => false | _ => true end.
Proof.
  unfold base64.afterPadding.
  pose proof (skipNewlines_spec rest si) as Hs.
  destruct (base64.skipNewlines rest si) as [rest' si'].
  destruct Hs as [-> Hc]. destruct rest' as [|c r]; [reflexivity|].
  cbn [stripLineBreaks]. by rewrite Hc.
Qed.

(** The decoder, started in the middle of a group of which the
    characters [pre] have been read, accepts exactly when [pre] followed
    by the rest of the input is well formed. *)
Lemma decodeLoop_wfGroups (src : string) :
  forall (si : nat) (dbuf : list Z) (dst : string) (pre : list ascii),
    length pre = length dbuf -> (length dbuf < 4)%nat ->
    forallb base64Char pre = true ->
    isErr (base64.decodeLoop src si dbuf dst)
    = negb (wfGroups (pre ++ stripLineBreaks src)).
Proof.
  induction src as [|c src IH]; intros si dbuf dst pre Hlen Hlt Hpre.
  - cbn [base64.decodeLoop stripLineBreaks]. rewrite app_nil_r.
    destruct dbuf as [|v0 [|v1 [|v2 [|v3 l]]]];
      destruct pre as [|a [|b [|c0 [|d0 l']]]]; try discriminate Hlen;
      try reflexivity.
    cbn in Hlt. lia.
  - cbn [base64.decodeLoop stripLineBreaks].
    pose proof (decodeMap_base64Char c) as Hc.
    destruct (base64.decodeMap c) as [v|].
    + rewrite (base64Char_not_newline c Hc).
      destruct (length (dbuf ++ [v]) =? 4)%nat eqn:E4.
      * apply Nat.eqb_eq in E4. rewrite length_app in E4. cbn in E4.
        rewrite (IH (S si) [] _ []) by (cbn; (reflexivity || lia)).
        destruct pre as [|a [|b [|c0 [|d0 l']]]]; cbn in Hlen; try lia.
        cbn in Hpre. zbool. cbn [app wfGroups].
        by rewrite H, H0, H1, Hc.
      * apply Nat.eqb_neq in E4. rewrite length_app in E4. cbn in E4.
        rewrite (IH (S si) (dbuf ++ [v])%list dst (pre ++ [c])%list).
        -- by rewrite <- app_assoc.
        -- rewrite !length_app. cbn. lia.
        -- rewrite length_app. cbn. lia.
        -- rewrite forallb_app, Hpre. cbn. by rewrite Hc.
    + destruct (base64.isNewline c) eqn:En; [by apply IH|].
      assert (forall x y : bool, x && (y && false) = false) as Hff
        by (intros [] []; reflexivity).
      destruct (base64.isPad c) eqn:Ep; cbn [negb].
      * destruct dbuf as [|v0 [|v1 [|v2 [|v3 l]]]];
          destruct pre as [|a [|b [|c0 [|d0 l']]]]; try discriminate Hlen;
          cbn [length] in *; try lia; cbn in Hpre; zbool.
        -- cbn [app]. destruct (stripLineBreaks src) as [|? [|? [|? ?]]];
             cbn [wfGroups]; rewrite ?Hc; reflexivity.
        -- cbn [app]. destruct (stripLineBreaks src) as [|? [|? ?]];
             cbn [wfGroups]; rewrite ?Hc, ?andb_false_r; reflexivity.
        -- pose proof (skipNewlines_spec src (S si)) as Hs.
           destruct (base64.skipNewlines src (S si)) as [rest si2].
           destruct Hs as [-> Hr]. destruct rest as [|c2 rest2]; [reflexivity|].
           cbn [stripLineBreaks]. rewrite Hr.
           destruct (base64.isPad c2) eqn:Ep2; cbn [negb].
           ++ rewrite afterPadding_spec. cbn [app wfGroups].
              rewrite H, H0, Hc, Ep, Ep2. cbn.
              by destruct (stripLineBreaks rest2).
           ++ cbn [app wfGroups]. rewrite H, H0, Hc, Ep2. cbn.
              rewrite andb_false_r. by destruct (stripLineBreaks rest2).
        -- rewrite afterPadding_spec. cbn [app wfGroups].
           rewrite H, H0, H1, Hc, Ep. cbn.
           by destruct (stripLineBreaks src).
      * destruct pre as [|a [|b [|c0 [|d0 l']]]];
          destruct dbuf as [|v0 [|v1 [|v2 [|v3 l]]]]; try discriminate Hlen;
          cbn [length] in *; try lia; cbn in Hpre; zbool; cbn [app].
        -- destruct (stripLineBreaks src) as [|? [|? [|? ?]]];
             cbn [wfGroups]; rewrite ?Hc; reflexivity.
        -- destruct (stripLineBreaks src) as [|? [|? ?]];
             cbn [wfGroups]; rewrite ?Hc, ?andb_false_r; reflexivity.
        -- destruct (stripLineBreaks src) as [|d1 rest1]; [reflexivity|].
           cbn [wfGroups]. rewrite H, H0, Hc, Ep. cbn. by destruct rest1.
        -- cbn [wfGroups]. rewrite H, H0, H1, Hc, Ep. cbn.
           by destruct (stripLineBreaks src).
Qed.

(** [DecodeString] returns bytes exactly on the well-formed payloads. *)
Lemma DecodeString_wellFormed (s : string) :
  isErr (base64.DecodeString s) = false <-> wellFormedBase64 s.
Proof.
  unfold base64.DecodeString, wellFormedBase64.
  rewrite (decodeLoop_wfGroups s 0 [] "" []) by (cbn; (reflexivity || lia)).
  cbn [app]. by destruct (wfGroups _).
Qed.

(** ** Data URIs *)

Lemma str_map_app (f : ascii -> ascii) (a b : string) :
  str_map f (a +:+ b) = str_map f a +:+ str_map f b.
Proof.
  induction a as [|c a IH]; [reflexivity|].
  rewrite str_app_cons. cbn [str_map]. by rewrite str_app_cons, IH.
Qed.

Lemma isASCII_app (a b : string) :
  strings.isASCII (a +:+ b) = strings.isASCII a && strings.isASCII b.
Proof.
  unfold strings.isASCII. induction a as [|c a IH]; [reflexivity|].
  rewrite str_app_cons. cbn [str_forall]. by rewrite IH, andb_assoc.
Qed.

(** Before the first comma and after it: the split is unique. *)
Lemma comma_split_unique (a a' b b' : string) :
  ~ contains a "," -> ~ contains a' "," ->
  a +:+ "," +:+ b = a' +:+ "," +:+ b' -> a = a' /\ b = b'.
Proof.
  revert a'. induction a as [|c a IH]; intros [|c' a'] Ha Ha'; str_norm.
  - by intros [= ->].
  - intros [= <- _]. exfalso. apply Ha'. by exists "", a'.
  - intros [= -> _]. exfalso. apply Ha. by exists "", a.
  - intros [= -> Hr]. destruct (IH a') as [-> ->]; [| |exact Hr|done].
    + intros (x & y & ->). apply Ha. by exists (String c' x), y.
    + intros (x & y & ->). apply Ha'. by exists (String c' x), y.
Qed.

(** Before the first instance of a one-byte separator and after it. *)
Lemma char_split_unique (c : ascii) (a a' b b' : string) :
  ~ contains a (String c "") -> ~ contains a' (String c "") ->
  a +:+ String c "" +:+ b = a' +:+ String c "" +:+ b' -> a = a' /\ b = b'.
Proof.
  revert a'. induction a as [|x a IH]; intros [|x' a'] Ha Ha'; str_norm.
  - by intros [= ->].
  - intros [= <- _]. exfalso. apply Ha'. by exists "", a'.
  - intros [= -> _]. exfalso. apply Ha. by exists "", a.
  - intros [= -> Hr]. destruct (IH a') as [-> ->]; [| |exact Hr|done].
    + intros (u & v & ->). apply Ha. by exists (String x' u), v.
    + intros (u & v & ->). apply Ha'. by exists (String x' u), v.
Qed.

Lemma SplitN_2_first (c : ascii) (a b : string) :
  ~ contains a (String c "") ->
  strings.SplitN (a +:+ String c "" +:+ b) (String c "") 2 = [a; b].
Proof.
  intros Ha. remember (a +:+ String c "" +:+ b) as s eqn:Hs.
  unfold strings.SplitN.
  destruct (Nat.min 2 (len s + 1)) as [|[|k]] eqn:E.
  - lia.
  - exfalso. assert (len s = 0%nat) as H0 by lia.
    rewrite Hs, !str_app_length in H0. cbn in H0. lia.
  - assert (k = 0%nat) as -> by lia. cbn [strings.splitLoop].
    destruct (strings.Index s (String c "")) as [m|] eqn:Em.
    + pose proof (Index_Some _ _ _ Em) as Hm.
      assert (String c "" <> "") as Hne by discriminate.
      pose proof (Index_first _ _ _ Hne Em) as Hf.
      rewrite Hs in Hm at 1.
      apply char_split_unique in Hm as [<- <-]; done.
    + apply Index_None in Em. exfalso. apply Em. rewrite Hs. by exists a, b.
Qed.

Lemma contains_char_app (c : ascii) (a b : string) :
  contains (a +:+ b) (String c "") ->
  contains a (String c "") \/ contains b (String c "").
Proof.
  induction a as [|x a IH]; str_norm; [by right|].
  intros (u & v & Huv). destruct u as [|y u]; revert Huv; str_norm.
  - intros [= <- _]. left. by exists "", a.
  - intros [= <- Hr]. destruct IH as [(u' & v' & ->)|Hb]; [by exists u, v| |by right].
    left. by exists (String x u'), v'.
Qed.

Section DataURI.
Context {golib : GoLib}.

(** What an accepted data URI looks like, and what is returned for it. *)
Lemma parseDataURI_accepts (dataURI mimeType base64Data : string) :
  parseDataURI dataURI = inr (mimeType, base64Data) ->
  exists mime enc,
    dataURI = ("data:" +:+ mime +:+ ";" +:+ enc) +:+ "," +:+ base64Data
    /\ ~ contains ("data:" +:+ mime +:+ ";" +:+ enc) ","
    /\ ~ contains mime ";"
    /\ strings.ToLower enc = "base64"
    /\ mimeType = (if (mime =? "")%string then "text/plain" else mime)
    /\ wellFormedBase64 base64Data.
Proof.
  unfold parseDataURI.
  destruct (SplitN_2_cases dataURI ",") as [->|(header & payload & Hs)];
    [discriminate|].
  rewrite Hs. apply SplitN_2_inv in Hs as [-> Hnc]; [|discriminate].
  destruct (strings.HasPrefix header "data:") eqn:Hp; cbn [negb]; [|discriminate].
  apply HasPrefix_spec in Hp as [hc ->].
  assert (strings.TrimPrefix ("data:" +:+ hc) "data:" = hc) as ->.
  { unfold strings.TrimPrefix.
    assert (strings.HasPrefix ("data:" +:+ hc) "data:" = true) as ->
      by (apply HasPrefix_spec; by exists hc).
    apply (str_drop_app "data:"). }
  destruct (SplitN_2_cases hc ";") as [->|(mime & enc & Hs)]; [discriminate|].
  rewrite Hs. apply SplitN_2_inv in Hs as [-> Hns]; [|discriminate].
  cbn [length Nat.ltb Nat.leb nth andb].
  destruct (String.eqb_spec (strings.ToLower enc) "base64") as [He|_];
    cbn [negb]; [|discriminate].
  destruct (base64.DecodeString payload) as [e|out] eqn:Ed; [discriminate|].
  intros [= <- <-]. exists mime, enc. split_and!; try done.
  apply DecodeString_wellFormed. by rewrite Ed.
Qed.

(** C4. The two example URIs parse to their MIME type ("text/plain"
    when none is given) and the payload as written. A URI is accepted
    only if the text after the first ';' of its header is "base64",
    compared without regard to letter case as the code does, and its
    payload is well-formed standard base64, as [base64.StdEncoding]
    reads it (carriage returns and line feeds are skipped); the payload
    returned is then everything after the first comma, byte for byte.
    Every URI of this shape is accepted. So a header that lacks
    ";base64" is rejected, and so is a payload that is not well formed,
    which is to say one that the decoder rejects. *)
Theorem parseDataURI_spec :
  parseDataURI "data:image/png;base64,aGVsbG8=" = inr ("image/png", "aGVsbG8=")
  /\ parseDataURI "data:;base64,aGVsbG8=" = inr ("text/plain", "aGVsbG8=")
  /\ (forall dataURI mimeType base64Data,
        parseDataURI dataURI = inr (mimeType, base64Data) ->
        exists mime enc,
          dataURI = ("data:" +:+ mime +:+ ";" +:+ enc) +:+ "," +:+ base64Data
          /\ ~ contains ("data:" +:+ mime +:+ ";" +:+ enc) ","
          /\ ~ contains mime ";"
          /\ strings.ToLower enc = "base64"
          /\ mimeType = (if (mime =? "")%string then "text/plain" else mime)
          /\ wellFormedBase64 base64Data)
  /\ (forall mime enc payload,
        ~ contains mime "," -> ~ contains mime ";" -> ~ contains enc "," ->
        strings.ToLower enc = "base64" -> wellFormedBase64 payload ->
        parseDataURI (("data:" +:+ mime +:+ ";" +:+ enc) +:+ "," +:+ payload)
        = inr (if (mime =? "")%string then "text/plain" else mime, payload))
  /\ (forall header payload,
        ~ contains header "," ->
        (forall pre enc, header = pre +:+ ";" +:+ enc ->
                         strings.ToLower enc <> "base64") ->
        isErr (parseDataURI (header +:+ "," +:+ payload)) = true)
  /\ (forall header payload,
        ~ contains header "," -> strings.isASCII header = true ->
        strings.Contains (strings.ToLower header) ";base64" = false ->
        isErr (parseDataURI (header +:+ "," +:+ payload)) = true)
  /\ (forall header payload,
        ~ contains header "," -> ~ wellFormedBase64 payload ->
        isErr (parseDataURI (header +:+ "," +:+ payload)) = true)
  /\ (forall header payload,
        ~ contains header "," -> isErr (base64.DecodeString payload) = true ->
        isErr (parseDataURI (header +:+ "," +:+ payload)) = true).
Proof.
  split; [reflexivity|]. split; [reflexivity|].
  split; [exact parseDataURI_accepts|].
  split.
  { intros mime enc payload Hmc Hms Hec He Hwf. unfold parseDataURI.
    rewrite (SplitN_2_first ","%char).
    2:{ intros [Hc|Hc]%contains_char_app.
        - apply Contains_spec in Hc. vm_compute in Hc. discriminate Hc.
        - apply contains_char_app in Hc as [Hc|Hc]; [done|].
          apply contains_char_app in Hc as [Hc|Hc]; [|done].
          apply Contains_spec in Hc. vm_compute in Hc. discriminate Hc. }
    assert (strings.HasPrefix ("data:" +:+ mime +:+ ";" +:+ enc) "data:" = true)
      as Hp by (apply HasPrefix_spec; by eexists).
    unfold strings.TrimPrefix. rewrite Hp. cbn [negb].
    rewrite (str_drop_app "data:"), (SplitN_2_first ";"%char) by done.
    cbn [length Nat.ltb Nat.leb nth andb]. rewrite He. cbn [negb].
    apply DecodeString_wellFormed in Hwf.
    by destruct (base64.DecodeString payload). }
  assert (forall header payload m p,
            ~ contains header "," ->
            parseDataURI (header +:+ "," +:+ payload) = inr (m, p) ->
            exists mime enc,
              header = "data:" +:+ mime +:+ ";" +:+ enc
              /\ strings.ToLower enc = "base64" /\ wellFormedBase64 payload) as Hacc.
  { intros header payload m p Hnc Hok.
    apply parseDataURI_accepts in Hok as (mime & enc & Hu & Hnc' & _ & He & _ & Hwf).
    apply comma_split_unique in Hu as [-> ->]; [|done..].
    by exists mime, enc. }
  split_and!.
  - intros header payload Hnc Hno.
    destruct (parseDataURI _) as [e|[m p]] eqn:Ep; [reflexivity|].
    apply Hacc in Ep as (mime & enc & -> & He & _); [|done].
    exfalso. apply (Hno ("data:" +:+ mime) enc); [|done].
    by rewrite !str_app_assoc.
  - intros header payload Hnc Hascii Hno.
    destruct (parseDataURI _) as [e|[m p]] eqn:Ep; [reflexivity|].
    apply Hacc in Ep as (mime & enc & -> & He & _); [|done].
    exfalso. apply not_true_iff_false in Hno. apply Hno, Contains_spec.
    unfold strings.ToLower in *. rewrite Hascii.
    rewrite <- !str_app_assoc, isASCII_app in Hascii.
    apply andb_true_iff in Hascii as [_ Ha]. rewrite Ha in He.
    rewrite <- !str_app_assoc, str_map_app, He.
    exists (str_map strings.lowerByte ("data:" +:+ mime)), "".
    rewrite str_map_app. by rewrite !str_app_assoc.
  - intros header payload Hnc Hwf.
    destruct (parseDataURI _) as [e|[m p]] eqn:Ep; [reflexivity|].
    apply Hacc in Ep as (mime & enc & _ & _ & Hw); [|done]. contradiction.
  - intros header payload Hnc Hdec.
    destruct (parseDataURI _) as [e|[m p]] eqn:Ep; [reflexivity|].
    apply Hacc in Ep as (mime & enc & _ & _ & Hw); [|done].
    apply DecodeString_wellFormed in Hw. congruence.
Qed.

End DataURI.

(** The encoding is compared without regard to letter case, and the
    decoder that validates the payload skips line breaks: the payload is
    returned as it was written. *)
Lemma parseDataURI_upper_case_accepted :
  parseDataURI (golib := sample.lib) "data:image/png;BASE64,aGVsbG8="
  = inr ("image/png", "aGVsbG8=").
Proof. reflexivity. Qed.

Lemma parseDataURI_line_break_accepted :
  parseDataURI (golib := sample.lib)
    ("data:text/plain;base64,aGVs" +:+ nl +:+ "bG8=")
  = inr ("text/plain", "aGVs" +:+ nl +:+ "bG8=").
Proof. reflexivity. Qed.

(** ** The configuration codec gives back every valid UTF-8 key *)

Lemma land_shiftl_low (a b k : Z) :
  0 <= k -> 0 <= b < 2 ^ k -> Z.land (a * 2 ^ k) b = 0.
Proof.
  intros Hk Hb. apply Z.bits_inj'. intros n Hn.
  rewrite Z.land_spec, Z.bits_0.
  destruct (Z.ltb_spec n k).
  - by rewrite Z.mul_pow2_bits_low by lia.
  - destruct (Z.eq_dec b 0) as [->|Hb0].
    + by rewrite Z.bits_0, andb_false_r.
    + rewrite (Z.bits_above_log2 b n), andb_false_r; [reflexivity|lia|].
      assert (Z.log2 b < k) by (apply Z.log2_lt_pow2; lia). lia.
Qed.

Lemma lor_shiftl_low (a b k : Z) :
  0 <= k -> 0 <= b < 2 ^ k -> Z.lor (Z.shiftl a k) b = a * 2 ^ k + b.
Proof.
  intros Hk Hb. rewrite Z.shiftl_mul_pow2 by lia.
  rewrite <- Z.lxor_lor by (by apply land_shiftl_low).
  symmetry. apply Z.add_nocarry_lxor. by apply land_shiftl_low.
Qed.

Lemma lor_const_low (c b k : Z) :
  0 <= k -> 0 <= b < 2 ^ k -> c mod 2 ^ k = 0 -> Z.lor c b = c + b.
Proof.
  intros Hk Hb Hc.
  replace c with ((c / 2 ^ k) * 2 ^ k) at 1 2.
  - rewrite <- Z.shiftl_mul_pow2 by lia. rewrite lor_shiftl_low by lia.
    rewrite Z.shiftl_mul_pow2 by lia. reflexivity.
  - pose proof (Z.div_mod c (2 ^ k)). lia.
Qed.

Lemma byte_of_range (c : ascii) : 0 <= byte_of c < 256.
Proof.
  unfold byte_of. pose proof (N_ascii_bounded c). lia.
Qed.

Lemma ascii_of_byte_of (c : ascii) : ascii_of (byte_of c) = c.
Proof. unfold ascii_of, byte_of. by rewrite N2Z.id, ascii_N_embedding. Qed.

Lemma land_low (x : Z) (k : Z) (m : Z) :
  0 <= k -> m = Z.ones k -> Z.land x m = x mod 2 ^ k.
Proof. intros Hk ->. by apply Z.land_ones. Qed.

Ltac pow2 :=
  change (2 ^ 3) with 8 in *; change (2 ^ 4) with 16 in *;
  change (2 ^ 5) with 32 in *; change (2 ^ 6) with 64 in *;
  change (2 ^ 12) with 4096 in *; change (2 ^ 18) with 262144 in *.

Ltac dm := Z.div_mod_to_equations; lia.

Ltac arith_bits :=
  rewrite ?(land_low _ 6 0x3F), ?(land_low _ 5 0x1F), ?(land_low _ 4 0x0F),
    ?(land_low _ 3 0x07), ?Z.shiftl_mul_pow2, ?Z.shiftr_div_pow2 by (reflexivity || lia);
  pow2.

Lemma lor_low6 (c b : Z) : 0 <= b < 64 -> c mod 64 = 0 -> Z.lor c b = c + b.
Proof. intros. by apply (lor_const_low c b 6). Qed.
Lemma lor_low12 (c b : Z) : 0 <= b < 4096 -> c mod 4096 = 0 -> Z.lor c b = c + b.
Proof. intros. by apply (lor_const_low c b 12). Qed.
Lemma lor_low18 (c b : Z) : 0 <= b < 262144 -> c mod 262144 = 0 -> Z.lor c b = c + b.
Proof. intros. by apply (lor_const_low c b 18). Qed.

Lemma cont_spec (c : ascii) : utf8.cont (byte_of c) = true <-> validCont c.
Proof. unfold utf8.cont, validCont. lia. Qed.

Lemma first_cases (b : Z) :
  match utf8.first b with
  | None => True
  | Some (sz, lo, hi) =>
    (sz = 2%nat /\ 0xC2 <= b <= 0xDF /\ lo = 0x80 /\ hi = 0xBF)
    \/ (sz = 3%nat /\ ((b = 0xE0 /\ lo = 0xA0 /\ hi = 0xBF)
                       \/ (0xE1 <= b <= 0xEC /\ lo = 0x80 /\ hi = 0xBF)
                       \/ (b = 0xED /\ lo = 0x80 /\ hi = 0x9F)
                       \/ (0xEE <= b <= 0xEF /\ lo = 0x80 /\ hi = 0xBF)))
    \/ (sz = 4%nat /\ ((b = 0xF0 /\ lo = 0x90 /\ hi = 0xBF)
                       \/ (0xF1 <= b <= 0xF3 /\ lo = 0x80 /\ hi = 0xBF)
                       \/ (b = 0xF4 /\ lo = 0x80 /\ hi = 0x8F)))
  end.
Proof.
  unfold utf8.first.
  repeat match goal with
         | |- context [if ?c then _ else _] => destruct c eqn:?
         end; try exact I; zbool; lia.
Qed.

(** A decoded rune of width above one comes from a well-formed sequence. *)
Lemma DecodeRuneInString_wide (s : string) (r : Z) (size : nat) :
  utf8.DecodeRuneInString s = (r, size) -> (1 < size)%nat ->
  (exists c0 c1 t, s = String c0 (String c1 t) /\ size = 2%nat /\ seq2 c0 c1
     /\ r = (byte_of c0 mod 32) * 64 + byte_of c1 mod 64)
  \/ (exists c0 c1 c2 t, s = String c0 (String c1 (String c2 t)) /\ size = 3%nat
        /\ seq3 c0 c1 c2
        /\ r = (byte_of c0 mod 16) * 4096 + (byte_of c1 mod 64) * 64 + byte_of c2 mod 64)
  \/ (exists c0 c1 c2 c3 t,
        s = String c0 (String c1 (String c2 (String c3 t))) /\ size = 4%nat
        /\ seq4 c0 c1 c2 c3
        /\ r = (byte_of c0 mod 8) * 262144 + (byte_of c1 mod 64) * 4096
               + (byte_of c2 mod 64) * 64 + byte_of c3 mod 64).
Proof.
  unfold utf8.DecodeRuneInString.
  destruct s as [|c0 t]; [intros [= <- <-]; lia|].
  destruct (byte_of c0 <? utf8.RuneSelf); [intros [= <- <-]; lia|].
  pose proof (first_cases (byte_of c0)) as Hf.
  destruct (utf8.first (byte_of c0)) as [[[sz lo] hi]|]; [|intros [= <- <-]; lia].
  destruct (len (String c0 t) <? sz)%nat; [intros [= <- <-]; lia|].
  destruct t as [|c1 t1]; [intros [= <- <-]; lia|].
  destruct ((byte_of c1 <? lo) || (hi <? byte_of c1)) eqn:E1; [intros [= <- <-]; lia|].
  pose proof (byte_of_range c0). pose proof (byte_of_range c1).
  destruct (sz <=? 2)%nat eqn:E2.
  { intros [= <- <-] _. left. exists c0, c1, t1. split; [done|]. split; [done|].
    apply Nat.leb_le in E2. zbool. unfold seq2, validCont.
    split; [lia|]. clear Hf. arith_bits. rewrite lor_low6 by dm. reflexivity. }
  destruct t1 as [|c2 t2]; [intros [= <- <-]; lia|].
  destruct (utf8.cont (byte_of c2)) eqn:Ec2; cbn [negb]; [|intros [= <- <-]; lia].
  apply cont_spec in Ec2. pose proof (byte_of_range c2).
  destruct (sz <=? 3)%nat eqn:E3.
  { intros [= <- <-] _. right. left. exists c0, c1, c2, t2.
    split; [done|]. split; [done|].
    apply Nat.leb_le in E3. apply Nat.leb_gt in E2. zbool. unfold seq3, validCont in *.
    split; [lia|]. clear Hf. arith_bits.
    rewrite (lor_low12 (_ * 4096)) by dm.
    rewrite lor_low6 by dm. reflexivity. }
  destruct t2 as [|c3 t3]; [intros [= <- <-]; lia|].
  destruct (utf8.cont (byte_of c3)) eqn:Ec3; cbn [negb]; [|intros [= <- <-]; lia].
  apply cont_spec in Ec3. pose proof (byte_of_range c3).
  intros [= <- <-] _. right. right. exists c0, c1, c2, c3, t3.
  split; [done|].
  apply Nat.leb_gt in E3. zbool. unfold seq4, validCont in *.
  assert (sz = 4%nat) as -> by lia.
  split; [done|]. split; [lia|]. clear Hf. arith_bits.
  rewrite (lor_low18 (_ * 262144)) by dm.
  rewrite (lor_low12 (_ + _)) by dm.
  rewrite lor_low6 by dm. reflexivity.
Qed.

Ltac decide_bools :=
  repeat first
    [ match goal with
      | |- context [?a <=? ?b] =>
        first [rewrite (proj2 (Z.leb_le a b)) by dm
              |rewrite (proj2 (Z.leb_gt a b)) by dm]
      | |- context [?a <? ?b] =>
        first [rewrite (proj2 (Z.ltb_lt a b)) by dm
              |rewrite (proj2 (Z.ltb_ge a b)) by dm]
      | |- context [?a =? ?b] =>
        first [rewrite (proj2 (Z.eqb_eq a b)) by dm
              |rewrite (proj2 (Z.eqb_neq a b)) by dm]
      end
    | progress cbn [andb orb negb] ].

Lemma lor_low5 (c b : Z) : 0 <= b < 32 -> c mod 32 = 0 -> Z.lor c b = c + b.
Proof. intros. by apply (lor_const_low c b 5). Qed.
Lemma lor_low4 (c b : Z) : 0 <= b < 16 -> c mod 16 = 0 -> Z.lor c b = c + b.
Proof. intros. by apply (lor_const_low c b 4). Qed.

Lemma str_byte_eq (x : Z) (c : ascii) (a b : string) :
  x = byte_of c -> a = b -> String (ascii_of x) a = String c b.
Proof. intros -> ->. by rewrite ascii_of_byte_of. Qed.

Lemma EncodeRune_seq2 (c0 c1 : ascii) :
  seq2 c0 c1 ->
  utf8_EncodeRune ((byte_of c0 mod 32) * 64 + byte_of c1 mod 64)
  = String c0 (String c1 "").
Proof.
  unfold seq2, validCont. intros H.
  pose proof (byte_of_range c0). pose proof (byte_of_range c1).
  unfold utf8_EncodeRune. decide_bools. arith_bits.
  rewrite !lor_low6 by dm.
  apply str_byte_eq; [dm|]. apply str_byte_eq; [dm|reflexivity].
Qed.

Lemma EncodeRune_seq3 (c0 c1 c2 : ascii) :
  seq3 c0 c1 c2 ->
  utf8_EncodeRune ((byte_of c0 mod 16) * 4096 + (byte_of c1 mod 64) * 64
                   + byte_of c2 mod 64)
  = String c0 (String c1 (String c2 "")).
Proof.
  unfold seq3, validCont. intros [H Hc2].
  pose proof (byte_of_range c0). pose proof (byte_of_range c1).
  pose proof (byte_of_range c2).
  unfold utf8_EncodeRune, utf8.RuneError.
  destruct H as [H|[H|[H|H]]]; decide_bools; arith_bits;
    rewrite lor_low5, !lor_low6 by dm;
    (apply str_byte_eq; [dm|]); (apply str_byte_eq; [dm|]);
    (apply str_byte_eq; [dm|reflexivity]).
Qed.

Lemma EncodeRune_seq4 (c0 c1 c2 c3 : ascii) :
  seq4 c0 c1 c2 c3 ->
  utf8_EncodeRune ((byte_of c0 mod 8) * 262144 + (byte_of c1 mod 64) * 4096
                   + (byte_of c2 mod 64) * 64 + byte_of c3 mod 64)
  = String c0 (String c1 (String c2 (String c3 ""))).
Proof.
  unfold seq4, validCont. intros (H & Hc2 & Hc3).
  pose proof (byte_of_range c0). pose proof (byte_of_range c1).
  pose proof (byte_of_range c2). pose proof (byte_of_range c3).
  unfold utf8_EncodeRune, utf8.RuneError.
  destruct H as [H|[H|H]]; decide_bools; arith_bits;
    rewrite lor_low4, !lor_low6 by dm;
    (apply str_byte_eq; [dm|]); (apply str_byte_eq; [dm|]);
    (apply str_byte_eq; [dm|]); (apply str_byte_eq; [dm|reflexivity]).
Qed.

Lemma DecodeRuneInString_seq2 (c0 c1 : ascii) (t : string) :
  seq2 c0 c1 ->
  utf8.DecodeRuneInString (String c0 (String c1 t))
  = ((byte_of c0 mod 32) * 64 + byte_of c1 mod 64, 2%nat).
Proof.
  unfold seq2, validCont. intros H.
  pose proof (byte_of_range c0). pose proof (byte_of_range c1).
  unfold utf8.DecodeRuneInString, utf8.first, utf8.RuneSelf. decide_bools.
  cbn [len String.length Nat.ltb Nat.leb]. decide_bools. cbn [Nat.leb].
  arith_bits. by rewrite lor_low6 by dm.
Qed.

Lemma DecodeRuneInString_seq3 (c0 c1 c2 : ascii) (t : string) :
  seq3 c0 c1 c2 ->
  utf8.DecodeRuneInString (String c0 (String c1 (String c2 t)))
  = ((byte_of c0 mod 16) * 4096 + (byte_of c1 mod 64) * 64 + byte_of c2 mod 64,
     3%nat).
Proof.
  unfold seq3, validCont. intros [H Hc2].
  pose proof (byte_of_range c0). pose proof (byte_of_range c1).
  pose proof (byte_of_range c2).
  unfold utf8.DecodeRuneInString, utf8.first, utf8.RuneSelf, utf8.cont.
  destruct H as [H|[H|[H|H]]]; decide_bools;
    cbn [len String.length Nat.ltb Nat.leb]; decide_bools; cbn [Nat.leb];
    arith_bits; rewrite (lor_low12 (_ * 4096)) by dm; by rewrite lor_low6 by dm.
Qed.

Lemma DecodeRuneInString_seq4 (c0 c1 c2 c3 : ascii) (t : string) :
  seq4 c0 c1 c2 c3 ->
  utf8.DecodeRuneInString (String c0 (String c1 (String c2 (String c3 t))))
  = ((byte_of c0 mod 8) * 262144 + (byte_of c1 mod 64) * 4096
     + (byte_of c2 mod 64) * 64 + byte_of c3 mod 64, 4%nat).
Proof.
  unfold seq4, validCont. intros (H & Hc2 & Hc3).
  pose proof (byte_of_range c0). pose proof (byte_of_range c1).
  pose proof (byte_of_range c2). pose proof (byte_of_range c3).
  unfold utf8.DecodeRuneInString, utf8.first, utf8.RuneSelf, utf8.cont.
  destruct H as [H|[H|H]]; decide_bools;
    cbn [len String.length Nat.ltb Nat.leb]; decide_bools; cbn [Nat.leb];
    arith_bits; rewrite (lor_low18 (_ * 262144)) by dm;
    rewrite (lor_low12 (_ + _)) by dm; by rewrite lor_low6 by dm.
Qed.

(** On a first byte outside ASCII the decoder gives the error rune with
    width one, or a width above one. *)
Lemma DecodeRuneInString_narrow (c0 : ascii) (t : string) (r : Z) (size : nat) :
  utf8.RuneSelf <= byte_of c0 ->
  utf8.DecodeRuneInString (String c0 t) = (r, size) ->
  (size = 1%nat /\ r = utf8.RuneError) \/ (1 < size)%nat.
Proof.
  intros H0. unfold utf8.DecodeRuneInString.
  destruct (Z.ltb_spec (byte_of c0) utf8.RuneSelf); [lia|].
  repeat match goal with
         | |- (utf8.RuneError, _) = _ -> _ => intros [= <- <-]; by left
         | |- (_, 2%nat) = _ -> _ => intros [= <- <-]; right; lia
         | |- (_, 3%nat) = _ -> _ => intros [= <- <-]; right; lia
         | |- (_, 4%nat) = _ -> _ => intros [= <- <-]; right; lia
         | |- context [match ?x with _ => _ end] => destruct x
         end.
Qed.

Lemma escape_step (c : ascii) (n : nat) (X : string) :
  byte_of c < utf8.RuneSelf -> json.htmlSafe (byte_of c) = false ->
  json.readString (S n) (json.escapeByte (byte_of c) +:+ X)
  = ('(t, rest) ← json.readString n X; Some (String c t, rest)).
Proof.
  destruct c as [[] [] [] [] [] [] [] []]; intros H1 H2;
    try (exfalso; cbv in H1; discriminate H1 || (clear - H1; lia));
    try discriminate H2; reflexivity.
Qed.

Lemma str_take_length (n : nat) (s : string) :
  (n <= len s)%nat -> len (str_take n s) = n.
Proof.
  unfold len. revert s. induction n as [|n IH]; intros [|c s] H; cbn in *; try lia.
  f_equal. apply IH. lia.
Qed.

Lemma htmlSafe_plain (b : Z) :
  json.htmlSafe b = true ->
  (b =? 0x22) = false /\ (b <? 0x20) = false /\ (b =? 0x5C) = false
  /\ (b <? utf8.RuneSelf) = true.
Proof.
  unfold json.htmlSafe, utf8.RuneSelf. intros H. zbool. lia.
Qed.

Lemma wide_not_special (b : Z) :
  utf8.RuneSelf <= b ->
  (b =? 0x22) = false /\ (b <? 0x20) = false /\ (b =? 0x5C) = false
  /\ (b <? utf8.RuneSelf) = false.
Proof. unfold utf8.RuneSelf. lia. Qed.

Lemma readString_wide (n : nat) (src X : string) (r : Z) (size : nat) :
  utf8.DecodeRuneInString src = (r, size) -> (1 < size)%nat ->
  json.readString (S n) (str_take size src +:+ X)
  = ('(t, rest) ← json.readString n X; Some (str_take size src +:+ t, rest)).
Proof.
  intros Hd Hs.
  destruct (DecodeRuneInString_wide src r size Hd Hs)
    as [(c0 & c1 & t & -> & -> & Hq & ->)
       |[(c0 & c1 & c2 & t & -> & -> & Hq & ->)
        |(c0 & c1 & c2 & c3 & t & -> & -> & Hq & ->)]];
    cbn [str_take]; rewrite !str_app_cons; rewrite str_app_nil_l;
    cbn [json.readString].
  - assert (utf8.RuneSelf <= byte_of c0) as Hw
      by (unfold seq2, utf8.RuneSelf in *; lia).
    destruct (wide_not_special _ Hw) as (-> & -> & -> & ->).
    rewrite (DecodeRuneInString_seq2 c0 c1 X Hq), (EncodeRune_seq2 c0 c1 Hq).
    cbn [str_drop]. reflexivity.
  - assert (utf8.RuneSelf <= byte_of c0) as Hw
      by (unfold seq3, utf8.RuneSelf in *; lia).
    destruct (wide_not_special _ Hw) as (-> & -> & -> & ->).
    rewrite (DecodeRuneInString_seq3 c0 c1 c2 X Hq), (EncodeRune_seq3 c0 c1 c2 Hq).
    cbn [str_drop]. reflexivity.
  - assert (utf8.RuneSelf <= byte_of c0) as Hw
      by (unfold seq4, utf8.RuneSelf in *; lia).
    destruct (wide_not_special _ Hw) as (-> & -> & -> & ->).
    rewrite (DecodeRuneInString_seq4 c0 c1 c2 c3 X Hq),
      (EncodeRune_seq4 c0 c1 c2 c3 Hq).
    cbn [str_drop]. reflexivity.
Qed.

(** The escape written for U+2028 and U+2029 reads back as the rune. *)
Lemma readString_line_sep (n : nat) (src X : string) (r : Z) (size : nat) :
  utf8.DecodeRuneInString src = (r, size) -> (1 < size)%nat ->
  (r =? 0x2028) || (r =? 0x2029) = true ->
  json.readString (S n) (json.bs +:+ "u202" +:+ String (json.hex r) X)
  = ('(t, rest) ← json.readString n X; Some (str_take size src +:+ t, rest)).
Proof.
  intros Hd Hs Hr.
  destruct (DecodeRuneInString_wide src r size Hd Hs)
    as [(c0 & c1 & t & -> & -> & Hq & Er)
       |[(c0 & c1 & c2 & t & -> & -> & Hq & Er)
        |(c0 & c1 & c2 & c3 & t & -> & -> & Hq & Er)]].
  - exfalso. pose proof (byte_of_range c0). pose proof (byte_of_range c1).
    zbool; dm.
  - cbn [str_take]. rewrite <- (EncodeRune_seq3 c0 c1 c2 Hq), <- Er.
    apply orb_true_iff in Hr as [->%Z.eqb_eq| ->%Z.eqb_eq]; reflexivity.
  - exfalso. unfold seq4, validCont in Hq.
    pose proof (byte_of_range c0). pose proof (byte_of_range c1).
    pose proof (byte_of_range c2). pose proof (byte_of_range c3).
    zbool; dm.
Qed.

Lemma readString_plain (n : nat) (c : ascii) (X : string) :
  json.htmlSafe (byte_of c) = true ->
  json.readString (S n) (String c X)
  = ('(t, rest) ← json.readString n X; Some (String c t, rest)).
Proof.
  intros Es. cbn [json.readString].
  by destruct (htmlSafe_plain _ Es) as (-> & -> & -> & ->).
Qed.

Lemma appendString_readString (f : nat) :
  forall (src : string) (n : nat) (tail : string),
    utf8.validLoop f src = true ->
    (len (json.appendStringLoop f src) <= n)%nat ->
    json.readString (S n) (json.appendStringLoop f src +:+ json.quote +:+ tail)
    = Some (src, tail).
Proof.
  induction f as [|f IH]; intros src n tail Hv Hn.
  - destruct src; [reflexivity|discriminate Hv].
  - destruct src as [|c rest]; [reflexivity|].
    cbn [utf8.validLoop] in Hv. cbn [json.appendStringLoop] in *.
    destruct (Z.ltb_spec (byte_of c) utf8.RuneSelf) as [Ha|Hw].
    + assert (utf8.DecodeRuneInString (String c rest) = (byte_of c, 1%nat)) as Hd.
      { unfold utf8.DecodeRuneInString.
        by destruct (Z.ltb_spec (byte_of c) utf8.RuneSelf); [|lia]. }
      rewrite Hd in Hv. cbn [Nat.eqb andb str_drop] in Hv.
      assert (utf8.validLoop f rest = true) as Hv'
        by (by destruct (_ && _)).
      destruct (json.htmlSafe (byte_of c)) eqn:Es.
      * rewrite str_app_cons, (readString_plain _ _ _ Es).
        cbn [len String.length] in Hn.
        destruct n as [|n]; [lia|].
        rewrite IH by (done || (fold (len (json.appendStringLoop f rest)) in Hn; lia)).
        reflexivity.
      * rewrite str_app_assoc, escape_step by done.
        rewrite str_app_length in Hn.
        assert (1 <= len (json.escapeByte (byte_of c)))%nat.
        { unfold json.escapeByte.
          repeat match goal with |- context [if ?x then _ else _] => destruct x end;
            rewrite str_app_length; cbn; lia. }
        destruct n as [|n]; [lia|].
        rewrite IH by (done || lia). reflexivity.
    + destruct (utf8.DecodeRuneInString (String c rest)) as [r size] eqn:Hd.
      destruct ((r =? utf8.RuneError) && (size =? 1)%nat) eqn:Ee; [discriminate|].
      assert (1 < size)%nat as Hs.
      { destruct (DecodeRuneInString_narrow c rest r size Hw Hd) as [[-> ->]|]; [|done].
        discriminate Ee. }
      destruct ((r =? 0x2028) || (r =? 0x2029)) eqn:El.
      * rewrite !str_app_assoc, (str_app_cons (json.hex r)).
        rewrite (readString_line_sep _ _ _ _ _ Hd Hs El).
        rewrite !str_app_length in Hn.
        cbn -[json.appendStringLoop str_drop] in Hn. unfold len in Hn.
        destruct n as [|n]; [lia|].
        rewrite IH by (done || (unfold len; lia)).
        cbn. by rewrite str_take_drop.
      * rewrite str_app_assoc, (readString_wide _ _ _ _ _ Hd Hs).
        rewrite str_app_length in Hn.
        assert (size <= len (String c rest))%nat.
        { destruct (DecodeRuneInString_wide _ _ _ Hd Hs)
            as [(?&?&?&E&->&_)|[(?&?&?&?&E&->&_)|(?&?&?&?&?&E&->&_)]];
            rewrite E; cbn; lia. }
        rewrite str_take_length in Hn by done.
        destruct n as [|n]; [lia|].
        rewrite IH by (done || lia).
        cbn. by rewrite str_take_drop.
Qed.

Lemma readString_value (body src tail : string) :
  (forall (m : nat) (tail : string), (len body <= m)%nat ->
     json.readString (S m) (body +:+ json.quote +:+ tail) = Some (src, tail)) ->
  json.readString (len (body +:+ json.quote +:+ tail)) (body +:+ json.quote +:+ tail)
  = Some (src, tail).
Proof.
  intros H. rewrite str_app_length. unfold json.quote at 1.
  rewrite str_app_cons, str_app_nil_l. cbn [len String.length].
  rewrite Nat.add_succ_r. apply H. unfold len. lia.
Qed.

Ltac eval_tests :=
  repeat match goal with
         | |- context [if ?b then _ else _] =>
           let v := eval vm_compute in b in
           match v with
           | true => change b with true
           | false => change b with false
           end; cbv beta iota
         end.

Lemma readValue_Str (n : nat) (r t rest : string) :
  json.readString (len r) r = Some (t, rest) ->
  json.readValue (S n) (String " " (String (ascii_of 34) r))
  = Some (json.Str t, rest).
Proof.
  intros H. cbn -[len json.readString]. eval_tests. by rewrite H.
Qed.

Lemma readMembers_one (n : nat) (r key rest r1 rest1 r2 : string) (v : json.value) :
  json.readString (len r) r = Some (key, rest) ->
  json.skipSpace rest = String ":" r1 ->
  json.readValue n r1 = Some (v, rest1) ->
  json.skipSpace rest1 = String "}" r2 ->
  json.readMembers (S n) (String (ascii_of 34) r) = Some ([(key, v)], r2).
Proof.
  intros H1 H2 H3 H4. cbn -[len json.readString json.readValue json.skipSpace].
  cbn [json.skipSpace]. eval_tests.
  rewrite H1. cbn -[len json.readString json.readValue json.skipSpace].
  rewrite H2. eval_tests.
  rewrite H3. cbn -[len json.readString json.readValue json.skipSpace].
  rewrite H4. reflexivity.
Qed.

Lemma readValue_Object (n : nat) (r r' rest : string) (ms : list (string * json.value)) :
  json.skipSpace r = String (ascii_of 34) r' ->
  json.readMembers n (String (ascii_of 34) r') = Some (ms, rest) ->
  json.readValue (S n) (String "{" r) = Some (json.Object ms, rest).
Proof.
  intros H1 H2. cbn -[len json.readMembers json.skipSpace].
  cbn [json.skipSpace]. eval_tests.
  rewrite H1. eval_tests. by rewrite H2.
Qed.

Lemma readString_key (tail : string) :
  json.readString (len ("api_key" +:+ json.quote +:+ tail))
    ("api_key" +:+ json.quote +:+ tail)
  = Some ("api_key", tail).
Proof.
  apply readString_value. intros m T Hm.
  by apply (appendString_readString 7 "api_key").
Qed.

Lemma parse_Marshal (key : string) :
  utf8.ValidString key = true ->
  json.parse (json.MarshalIndent_Config key)
  = Some (json.Object [("api_key", json.Str key)]).
Proof.
  intros Hv.
  pose proof (fun m tail => appendString_readString (len key) key m tail Hv) as Hr.
  pose proof (readString_value _ _ (String (ascii_of 10) "}") Hr) as Hb.
  unfold json.MarshalIndent_Config, json.appendString, json.parse.
  generalize dependent (json.appendStringLoop (len key) key). intros body _ Hb.
  rewrite !str_app_assoc.
  change ("{" +:+ ?X) with (String "{" X).
  cbn [len String.length].
  match goal with
  | |- context [json.readValue ?f ?s] =>
    assert (json.readValue f s
            = Some (json.Object [("api_key", json.Str key)], "")) as ->
  end; [|reflexivity].
  eapply readValue_Object; [reflexivity|].
  eapply readMembers_one.
  - apply readString_key.
  - reflexivity.
  - apply readValue_Str, Hb.
  - reflexivity.
Qed.

Theorem Unmarshal_Marshal (key : string) :
  utf8.ValidString key = true ->
  json.Unmarshal_Config (json.MarshalIndent_Config key) = inr key.
Proof.
  intros Hv. unfold json.Unmarshal_Config. by rewrite (parse_Marshal key Hv).
Qed.

(** The codec of the sample library satisfies the premise of
    [save_then_load] at every valid UTF-8 key. *)
Lemma sample_codec_round_trip (apiKey data : string) :
  utf8.ValidString apiKey = true ->
  json_MarshalIndent_Config (GoLib := sample.lib) (Config.mk apiKey) = inr data ->
  json_Unmarshal_Config (GoLib := sample.lib) data = inr (Config.mk apiKey).
Proof.
  intros Hv [= <-]. cbn [json_Unmarshal_Config sample.lib Config.APIKey].
  by rewrite (Unmarshal_Marshal apiKey Hv).
Qed.

(** ** The statements on the sample world *)

Lemma not_contains_by_Contains (s sub : string) :
  strings.Contains s sub = false -> ~ contains s sub.
Proof. intros Hf Hc. apply Contains_spec in Hc. congruence. Qed.

Lemma request_needs_input_witness :
  buildGenerateContentRequest (golib := sample.lib)
    "" [] sample.genUnset sample.toolsOff "" sample.world
  = (inl emptyRequestError, sample.world)
  /\ (buildGenerateContentRequest (golib := sample.lib)
        "Answer briefly." [] sample.genUnset sample.toolsOff "" sample.world).1
     <> inl emptyRequestError.
Proof.
  split.
  - apply (proj1 (request_needs_input (golib := sample.lib) "k3y" "gemini-2.5-pro"
                    "" [] sample.genUnset sample.toolsOff "" sample.world));
      reflexivity.
  - apply (proj2 (request_needs_input (golib := sample.lib) "k3y" "gemini-2.5-pro"
                    "Answer briefly." [] sample.genUnset sample.toolsOff ""
                    sample.world)).
    right. discriminate.
Defined.

Lemma generation_block_witness :
  match (buildGenerateContentRequest (golib := sample.lib)
           "" [ParsedPart.mk "text" "hello"]
           (GenerationConfigInput.mk float64_0_7 (-1) sample.minusOne 40 "" "" "" (-1) false)
           sample.toolsOff "" sample.world).1 with
  | inr req =>
    GenerateContentRequest.GenerationConfig req
    = Some (GenerationConfig.mk [] (Some float64_0_7) None None (Some 40)
              None None None)
  | inl _ => False
  end.
Proof.
  destruct (buildGenerateContentRequest (golib := sample.lib) _ _ _ _ _ _)
    as [[e|req] w'] eqn:E; cbn [fst].
  - vm_compute in E. discriminate E.
  - apply (proj1 (proj2 (generation_block (golib := sample.lib) _ _ _ _ _ _ _ _ E)));
      [reflexivity|reflexivity|].
    cbn. split_and!; (reflexivity || lia).
Defined.

Lemma safety_settings_witness :
  match (buildGenerateContentRequest (golib := sample.lib)
           "Answer briefly." [] sample.genUnset sample.toolsOff
           "HARM_CATEGORY_HARASSMENT:BLOCK_ONLY_HIGH,HARM_CATEGORY_HATE_SPEECH:BLOCK_MEDIUM_AND_ABOVE"
           sample.world).1 with
  | inr req =>
    GenerateContentRequest.SafetySettings req
    = [SafetySetting.mk "HARM_CATEGORY_HARASSMENT" "BLOCK_ONLY_HIGH";
       SafetySetting.mk "HARM_CATEGORY_HATE_SPEECH" "BLOCK_MEDIUM_AND_ABOVE"]
  | inl _ => False
  end
  /\ isErr (buildGenerateContentRequest (golib := sample.lib)
              "Answer briefly." [] sample.genUnset sample.toolsOff
              " a : b , :x " sample.world).1 = true.
Proof.
  split.
  - destruct (safety_settings (golib := sample.lib)
                "Answer briefly." [] sample.genUnset sample.toolsOff
                "HARM_CATEGORY_HARASSMENT:BLOCK_ONLY_HIGH,HARM_CATEGORY_HATE_SPEECH:BLOCK_MEDIUM_AND_ABOVE"
                sample.world) as (_ & _ & _ & _ & Hex & _).
    destruct (buildGenerateContentRequest (golib := sample.lib)
                "Answer briefly." [] sample.genUnset sample.toolsOff "" sample.world)
      as [[e|req] w'] eqn:E.
    + vm_compute in E. discriminate E.
    + rewrite (Hex eq_refl req w' eq_refl). reflexivity.
  - destruct (safety_settings (golib := sample.lib)
                "Answer briefly." [] sample.genUnset sample.toolsOff
                " a : b , :x " sample.world) as (_ & _ & _ & Hbad & _).
    apply (Hbad " :x "); [discriminate| |left; reflexivity].
    apply elem_of_cons. right. apply elem_of_cons. left. reflexivity.
Defined.

Lemma parseDataURI_spec_witness :
  isErr (parseDataURI (golib := sample.lib) "data:text/plain,hello") = true
  /\ isErr (parseDataURI (golib := sample.lib) "data:text/plain;charset=utf-8,hello") = true
  /\ isErr (parseDataURI (golib := sample.lib) "data:image/png;base64,aGVsbG8") = true.
Proof.
  destruct (parseDataURI_spec (golib := sample.lib))
    as (_ & _ & _ & _ & Henc & Hlow & Hwf & _).
  split; [|split].
  - apply (Henc "data:text/plain" "hello").
    + by apply not_contains_by_Contains.
    + intros pre enc He. exfalso.
      apply (not_contains_by_Contains "data:text/plain" ";"); [reflexivity|].
      by exists pre, enc.
  - apply (Hlow "data:text/plain;charset=utf-8" "hello");
      [by apply not_contains_by_Contains|reflexivity|reflexivity].
  - apply (Hwf "data:image/png;base64" "aGVsbG8").
    + by apply not_contains_by_Contains.
    + unfold wellFormedBase64. cbn. discriminate.
Defined.

(** * Further properties of the code

    What the functions do beyond the statements of the specification:
    their effects on the world, their failures, and how they compose. *)

(** ** The base64 encoder and decoder are inverse *)

Lemma land63_range (v : Z) : 0 <= Z.land v 0x3F < 64.
Proof.
  change 0x3F with (Z.ones 6). rewrite Z.land_ones by lia.
  apply Z.mod_pos_bound. lia.
Qed.

Lemma decodeMap_enc (v : Z) : base64.decodeMap (base64.enc v) = Some (Z.land v 0x3F).
Proof.
  unfold base64.enc. pose proof (land63_range v) as Hr.
  rewrite <- (Z2Nat.id (Z.land v 0x3F)) at 2 by lia.
  assert (Z.to_nat (Z.land v 0x3F) < 64)%nat as Hk by lia.
  generalize dependent (Z.to_nat (Z.land v 0x3F)). intros k Hk.
  do 64 (destruct k as [|k]; [reflexivity|]). lia.
Qed.

Lemma quantum_sum (d0 d1 d2 d3 : Z) :
  0 <= d0 -> 0 <= d1 < 64 -> 0 <= d2 < 64 -> 0 <= d3 < 64 ->
  base64.quantum [d0; d1; d2; d3] = d0 * 262144 + d1 * 4096 + d2 * 64 + d3.
Proof.
  intros H0 H1 H2 H3. unfold base64.quantum. cbn [nth].
  rewrite !Z.shiftl_mul_pow2 by lia.
  change (2 ^ 18) with 262144. change (2 ^ 12) with 4096. change (2 ^ 6) with 64.
  rewrite (lor_const_low (d0 * 262144) (d1 * 4096) 18) by (try dm; change (2 ^ 18) with 262144; lia).
  rewrite (lor_const_low (d0 * 262144 + d1 * 4096) (d2 * 64) 12) by (try dm; change (2 ^ 12) with 4096; try dm; lia).
  rewrite (lor_const_low _ d3 6) by (try dm; change (2 ^ 6) with 64; try dm; lia).
  reflexivity.
Qed.

Lemma land63_div (v k : Z) : 0 <= k -> Z.land (Z.shiftr v k) 0x3F = (v / 2 ^ k) mod 64.
Proof.
  intros Hk. change 0x3F with (Z.ones 6). rewrite Z.land_ones by lia.
  by rewrite Z.shiftr_div_pow2 by lia.
Qed.

Lemma land255_div (v k : Z) : 0 <= k -> Z.land (Z.shiftr v k) 0xFF = (v / 2 ^ k) mod 256.
Proof.
  intros Hk. change 0xFF with (Z.ones 8). rewrite Z.land_ones by lia.
  by rewrite Z.shiftr_div_pow2 by lia.
Qed.

Lemma val3 (a b c : Z) :
  0 <= a < 256 -> 0 <= b < 256 -> 0 <= c < 256 ->
  Z.lor (Z.lor (Z.shiftl a 16) (Z.shiftl b 8)) c = a * 65536 + b * 256 + c.
Proof.
  intros Ha Hb Hc. rewrite !Z.shiftl_mul_pow2 by lia.
  change (2 ^ 16) with 65536. change (2 ^ 8) with 256.
  rewrite (lor_const_low (a * 65536) (b * 256) 16) by (try dm; change (2 ^ 16) with 65536; lia).
  rewrite (lor_const_low _ c 8) by (try dm; change (2 ^ 8) with 256; try dm; lia).
  reflexivity.
Qed.

(** The bytes of a 24-bit word read off as the decoder does. *)
Lemma quantumBytes_val (dbuf : list Z) (a b c : ascii) :
  base64.quantum dbuf = byte_of a * 65536 + byte_of b * 256 + byte_of c ->
  base64.quantumBytes dbuf
  = str_take (length dbuf - 1) (String a (String b (String c ""))).
Proof.
  intros Hq. unfold base64.quantumBytes. cbv zeta. rewrite Hq.
  pose proof (byte_of_range a). pose proof (byte_of_range b).
  pose proof (byte_of_range c).
  rewrite (land255_div _ 16), (land255_div _ 8) by lia.
  change (Z.land ?v 255) with (Z.land (Z.shiftr v 0) 255).
  rewrite (land255_div _ 0) by lia.
  change (2 ^ 16) with 65536. change (2 ^ 8) with 256. change (2 ^ 0) with 1.
  f_equal. repeat (apply str_byte_eq; [dm|]). reflexivity.
Qed.

Lemma decode_group3 (a b c : ascii) :
  let val := Z.lor (Z.lor (Z.shiftl (byte_of a) 16) (Z.shiftl (byte_of b) 8))
                   (byte_of c) in
  base64.quantumBytes
    [Z.land (Z.shiftr val 18) 0x3F; Z.land (Z.shiftr val 12) 0x3F;
     Z.land (Z.shiftr val 6) 0x3F; Z.land val 0x3F]
  = String a (String b (String c "")).
Proof.
  cbv zeta.
  pose proof (byte_of_range a). pose proof (byte_of_range b).
  pose proof (byte_of_range c).
  rewrite val3 by lia.
  rewrite (quantumBytes_val _ a b c); [reflexivity|].
  rewrite quantum_sum by (apply land63_range).
  change (Z.land ?v 63) with (Z.land (Z.shiftr v 0) 63) at 4.
  rewrite !land63_div by lia.
  change (2 ^ 18) with 262144. change (2 ^ 12) with 4096. change (2 ^ 6) with 64.
  change (2 ^ 0) with 1. dm.
Qed.

Lemma decode_group2 (a b : ascii) :
  let val := Z.lor (Z.shiftl (byte_of a) 16) (Z.shiftl (byte_of b) 8) in
  base64.quantumBytes
    [Z.land (Z.shiftr val 18) 0x3F; Z.land (Z.shiftr val 12) 0x3F;
     Z.land (Z.shiftr val 6) 0x3F]
  = String a (String b "").
Proof.
  cbv zeta.
  pose proof (byte_of_range a). pose proof (byte_of_range b).
  replace (Z.lor (Z.shiftl (byte_of a) 16) (Z.shiftl (byte_of b) 8))
    with (byte_of a * 65536 + byte_of b * 256 + byte_of (ascii_of 0)).
  2:{ rewrite <- (val3 _ _ (byte_of (ascii_of 0))) by (done || lia).
      change (byte_of (ascii_of 0)) with 0. by rewrite Z.lor_0_r. }
  rewrite (quantumBytes_val _ a b (ascii_of 0)); [reflexivity|].
  change (base64.quantum [?x; ?y; ?z]) with (base64.quantum [x; y; z; 0]).
  rewrite quantum_sum by (apply land63_range || lia).
  rewrite !land63_div by lia.
  change (2 ^ 18) with 262144. change (2 ^ 12) with 4096. change (2 ^ 6) with 64.
  change (byte_of (ascii_of 0)) with 0. dm.
Qed.

Lemma decode_group1 (a : ascii) :
  let val := Z.shiftl (byte_of a) 16 in
  base64.quantumBytes
    [Z.land (Z.shiftr val 18) 0x3F; Z.land (Z.shiftr val 12) 0x3F]
  = String a "".
Proof.
  cbv zeta.
  pose proof (byte_of_range a).
  replace (Z.shiftl (byte_of a) 16)
    with (byte_of a * 65536 + byte_of (ascii_of 0) * 256 + byte_of (ascii_of 0)).
  2:{ rewrite Z.shiftl_mul_pow2 by lia. change (byte_of (ascii_of 0)) with 0.
      change (2 ^ 16) with 65536. lia. }
  rewrite (quantumBytes_val _ a (ascii_of 0) (ascii_of 0)); [reflexivity|].
  change (base64.quantum [?x; ?y]) with (base64.quantum [x; y; 0; 0]).
  rewrite quantum_sum by (apply land63_range || lia).
  rewrite !land63_div by lia.
  change (2 ^ 18) with 262144. change (2 ^ 12) with 4096.
  change (byte_of (ascii_of 0)) with 0. dm.
Qed.

Lemma decodeLoop_Encode (n : nat) :
  forall (s : string) (si : nat) (dst : string),
    (len s <= n)%nat ->
    base64.decodeLoop (base64.EncodeToString s) si [] dst = inr (dst +:+ s).
Proof.
  induction n as [|n IH]; intros s si dst Hn.
  - destruct s; [|cbn in Hn; lia]. cbn. by rewrite str_app_nil_r.
  - destruct s as [|a [|b [|c rest]]].
    + cbn. by rewrite str_app_nil_r.
    + cbn [base64.EncodeToString base64.decodeLoop]. cbv zeta.
      repeat (rewrite decodeMap_enc; cbn [app length Nat.eqb base64.decodeLoop]).
      change (base64.decodeMap "=") with (@None Z).
      change (base64.isNewline "=") with false. change (base64.isPad "=") with true.
      cbn [negb base64.skipNewlines]. unfold base64.afterPadding.
      cbn [base64.skipNewlines]. by rewrite decode_group1.
    + cbn [base64.EncodeToString base64.decodeLoop]. cbv zeta.
      repeat (rewrite decodeMap_enc; cbn [app length Nat.eqb base64.decodeLoop]).
      change (base64.decodeMap "=") with (@None Z).
      change (base64.isNewline "=") with false. change (base64.isPad "=") with true.
      cbn [negb]. unfold base64.afterPadding.
      cbn [base64.skipNewlines]. by rewrite decode_group2.
    + cbn [base64.EncodeToString base64.decodeLoop]. cbv zeta.
      repeat (rewrite decodeMap_enc; cbn [app length Nat.eqb base64.decodeLoop]).
      rewrite decode_group3. rewrite IH by (cbn in Hn; unfold len; lia).
      by rewrite str_app_assoc.
Qed.

(** Decoding what the encoder wrote gives the bytes back. *)
Lemma DecodeString_EncodeToString (s : string) :
  base64.DecodeString (base64.EncodeToString s) = inr s.
Proof.
  unfold base64.DecodeString. by rewrite (decodeLoop_Encode (len s)).
Qed.

(** ** The key store: effects and round trips *)

Lemma sameFiles_refl (w : World) : sameFiles w w.
Proof. by intros p perm data. Qed.

Lemma sameFiles_trans (w1 w2 w3 : World) :
  sameFiles w1 w2 -> sameFiles w2 w3 -> sameFiles w1 w3.
Proof. intros H12 H23 p perm data. etransitivity; [apply H23|apply H12]. Qed.

Lemma silent_refl (w : World) : silent w w.
Proof. by repeat split. Qed.

Lemma silent_trans (w1 w2 w3 : World) :
  silent w1 w2 -> silent w2 w3 -> silent w1 w3.
Proof. intros (?&?&?) (?&?&?). repeat split; congruence. Qed.

Section KeyStoreEffects.
Context {golib : GoLib}.

Lemma getConfigPath_effects (w w1 : World) (r : error + string) :
  getConfigPath w = (r, w1) ->
  sameFiles w w1 /\ silent w w1 /\ UserConfigDir w1 = UserConfigDir w
  /\ remote w1 = remote w.
Proof.
  unfold getConfigPath. run. unfold os.GetUserConfigDir at 1.
  destruct (UserConfigDir w) as [e|configDir] eqn:Ed.
  { intros [= <- <-]. split_and!; try done; apply sameFiles_refl. }
  run. unfold os.MkdirAll.
  destruct (fs w !! filepath_Join configDir "gemini-cli") as [[p d|p]|] eqn:El;
    cbn [fst snd]; intros [= <- <-]; split_and!; try done;
    try apply sameFiles_refl.
  intros q perm data. cbn.
  destruct (decide (filepath_Join configDir "gemini-cli" = q)) as [<-|Hne].
  - rewrite lookup_insert_eq, El. split; discriminate.
  - by rewrite lookup_insert_ne.
Qed.


Lemma loadAPIKey_world (w : World) :
  sameFiles w (loadAPIKey w).2 /\ silent w (loadAPIKey w).2.
Proof.
  unfold loadAPIKey. run.
  destruct (getConfigPath w) as [[e|configPath] w1] eqn:Eg;
    pose proof (getConfigPath_effects _ _ _ Eg) as (Hf & Hs & _); cbn [snd];
    [by split|].
  run. unfold os.Stat at 1 2.
  destruct (fs w1 !! configPath) as [n|] eqn:El; cbn [os.IsNotExist fst snd];
    [|by split].
  run. unfold os.ReadFile. rewrite El.
  destruct n as [p d|p]; cbn [fst snd]; [|by split].
  destruct (json_Unmarshal_Config d) as [e|config]; [by split|].
  by destruct (Config.APIKey config =? "")%string.
Qed.

(** X2. [loadAPIKey] only reads: whatever it returns, no file has been
    created, removed or rewritten, and nothing was printed or sent. *)
Theorem loadAPIKey_reads_only (w : World) (r : error + string) (w' : World) :
  loadAPIKey w = (r, w') -> sameFiles w w' /\ silent w w'.
Proof.
  intros Hl. pose proof (loadAPIKey_world w) as H. by rewrite Hl in H.
Qed.

Lemma loadAPIKey_success_aux (w : World) (key : string) :
  (loadAPIKey w).1 = inr key -> key <> "".
Proof.
  unfold loadAPIKey. run.
  destruct (getConfigPath w) as [[e|configPath] w1]; [discriminate|].
  run. unfold os.Stat at 1. destruct (fs w1 !! configPath) as [n|]; [|discriminate].
  cbn [os.IsNotExist]. run.
  destruct (os.ReadFile configPath w1) as [[e|data] w2]; cbn [fst snd]; [discriminate|].
  destruct (json_Unmarshal_Config data) as [e|config]; [discriminate|].
  destruct (String.eqb_spec (Config.APIKey config) "") as [E|E]; [discriminate|].
  by intros [= <-].
Qed.

(** X3. [loadAPIKey] returns a key exactly when the configuration path
    can be determined, a file is there, its content decodes to a
    configuration, and the key in it is not empty. *)
Theorem loadAPIKey_success_iff (w : World) (key : string) :
  (loadAPIKey w).1 = inr key
  <-> exists configPath w1 perm data,
        getConfigPath w = (inr configPath, w1)
        /\ fs w !! configPath = Some (File perm data)
        /\ json_Unmarshal_Config data = inr (Config.mk key)
        /\ key <> "".
Proof.
  unfold loadAPIKey. run.
  destruct (getConfigPath w) as [[e|configPath] w1] eqn:Eg; cbn [fst].
  { split; [discriminate|]. by intros (?&?&?&?&?&_). }
  pose proof (getConfigPath_effects _ _ _ Eg) as (Hf & _).
  run. unfold os.Stat. split.
  - destruct (fs w1 !! configPath) as [n|] eqn:El; cbn [os.IsNotExist fst snd];
      [|discriminate].
    run. unfold os.ReadFile. rewrite El.
    destruct n as [p d|p]; cbn [fst snd]; [|discriminate].
    destruct (json_Unmarshal_Config d) as [e|[k]] eqn:Eu; [discriminate|].
    cbn [Config.APIKey].
    destruct (String.eqb_spec k "") as [E|E]; [discriminate|].
    intros [= <-]. exists configPath, w1, p, d.
    split; [reflexivity|]. split; [by apply Hf|]. by split.
  - intros (configPath' & w1' & p & d & [= <- <-] & Hl & Hu & Hne).
    apply Hf in Hl. rewrite Hl. cbn [os.IsNotExist fst snd].
    run. unfold os.ReadFile. rewrite Hl. cbn [fst snd]. rewrite Hu.
    cbn [Config.APIKey].
    by destruct (String.eqb_spec key "") as [E|E].
Qed.

(** What [saveAPIKey] does to the world. *)
Lemma saveAPIKey_run (apiKey : string) (w : World) :
  saveAPIKey apiKey w
  = match getConfigPath w with
    | (inl e, w1) => (inl e, w1)
    | (inr configPath, w1) =>
      match json_MarshalIndent_Config (Config.mk apiKey) with
      | inl err => (inl ("failed to marshal config: " +:+ err), w1)
      | inr data =>
        match fs w1 !! configPath with
        | Some (Dir _) =>
          (inl ("failed to write config file " +:+ configPath +:+ ": "
                +:+ os.Error (os.mkPathError "open" configPath os.EISDIR)), w1)
        | Some (File perm' _) =>
          (inr tt, add_stdout ("API key saved to " +:+ configPath +:+ nl)
                     (set_fs (<[configPath := File perm' data]> (fs w1)) w1))
        | None =>
          (inr tt, add_stdout ("API key saved to " +:+ configPath +:+ nl)
                     (set_fs (<[configPath := File 0x180 data]> (fs w1)) w1))
        end
      end
    end.
Proof.
  unfold saveAPIKey. run.
  destruct (getConfigPath w) as [[e|configPath] w1]; [reflexivity|].
  destruct (json_MarshalIndent_Config _) as [e|data]; [reflexivity|].
  run. unfold os.WriteFile.
  by destruct (fs w1 !! configPath) as [[p d|p]|].
Qed.

Lemma saveAPIKey_quiet (apiKey : string) (w w' : World) (r : error + unit) :
  saveAPIKey apiKey w = (r, w') ->
  stderr w' = stderr w /\ sent w' = sent w
  /\ (forall e, r = inl e -> stdout w' = stdout w /\ sameFiles w w').
Proof.
  rewrite saveAPIKey_run.
  destruct (getConfigPath w) as [[e|configPath] w1] eqn:Eg;
    pose proof (getConfigPath_effects _ _ _ Eg) as (Hf & (Ho & He & Hs) & _).
  { intros [= <- <-]. by split_and!. }
  destruct (json_MarshalIndent_Config _) as [e|data].
  { intros [= <- <-]. by split_and!. }
  destruct (fs w1 !! configPath) as [[p1 d1|p1]|] eqn:E1; intros [= <- <-];
    by split_and!.
Qed.

(** X4. The effects of [saveAPIKey]. It never writes to the error stream
    or the network. When it fails, nothing is printed and no file is
    touched. When it succeeds, it has printed the one line naming the
    path; the file at that path holds the encoded configuration, with
    mode 0600 if the file is new and with its old mode otherwise; and
    no other file has changed. *)
Theorem saveAPIKey_effects (apiKey : string) (w w' : World) (r : error + unit) :
  saveAPIKey apiKey w = (r, w') ->
  stderr w' = stderr w /\ sent w' = sent w
  /\ match r with
     | inl _ => stdout w' = stdout w /\ sameFiles w w'
     | inr _ =>
       exists configPath data,
         json_MarshalIndent_Config (Config.mk apiKey) = inr data
         /\ stdout w' = (stdout w ++ ["API key saved to " +:+ configPath +:+ nl])%list
         /\ fs w' !! configPath
            = Some (File (match fs w !! configPath with
                          | Some (File perm _) => perm
                          | _ => 0x180
                          end) data)
         /\ forall p, p <> configPath ->
              forall perm d,
                fs w' !! p = Some (File perm d) <-> fs w !! p = Some (File perm d)
     end.
Proof.
  rewrite saveAPIKey_run.
  destruct (getConfigPath w) as [[e|configPath] w1] eqn:Eg;
    pose proof (getConfigPath_effects _ _ _ Eg) as (Hf & (Ho & He & Hs) & _).
  { intros [= <- <-]. by split_and!. }
  destruct (json_MarshalIndent_Config _) as [e|data].
  { intros [= <- <-]. by split_and!. }
  destruct (fs w1 !! configPath) as [[p1 d1|p1]|] eqn:E1; intros [= <- <-].
  - split; [exact He|]. split; [exact Hs|]. exists configPath, data.
    split; [reflexivity|]. split; [cbn; by rewrite Ho|]. split.
    + cbn. rewrite lookup_insert_eq. apply Hf in E1. by rewrite E1.
    + intros p Hp perm d. cbn. rewrite lookup_insert_ne by done. apply Hf.
  - by split_and!.
  - split; [exact He|]. split; [exact Hs|]. exists configPath, data.
    split; [reflexivity|]. split; [cbn; by rewrite Ho|]. split.
    + cbn. rewrite lookup_insert_eq. do 2 f_equal.
      destruct (fs w !! configPath) as [[p0 d0|p0]|] eqn:E0; try reflexivity.
      apply Hf in E0. congruence.
    + intros p Hp perm d. cbn. rewrite lookup_insert_ne by done. apply Hf.
Qed.


Lemma loadAPIKey_after_save (apiKey : string) (w w' : World) :
  saveAPIKey apiKey w = (inr tt, w') ->
  apiKey <> "" ->
  (forall data, json_MarshalIndent_Config (Config.mk apiKey) = inr data ->
                json_Unmarshal_Config data = inr (Config.mk apiKey)) ->
  loadAPIKey w' = (inr apiKey, w').
Proof.
  intros Hsave Hne Hcodec.
  apply saveAPIKey_inv in Hsave as (configPath & data & perm & Hm & Hf & Hg).
  unfold loadAPIKey. run. rewrite Hg. run.
  unfold os.Stat. rewrite Hf. cbn [os.IsNotExist fst snd]. run.
  unfold os.ReadFile. rewrite Hf. cbn [fst snd].
  rewrite (Hcodec data Hm). cbn [Config.APIKey].
  by destruct (String.eqb_spec apiKey "") as [E|_].
Qed.

(** X5. The last key saved wins. After a successful [saveAPIKey], saving
    another key that the codec can encode succeeds as well, and
    [loadAPIKey] then returns the second key. *)
Theorem saveAPIKey_overwrites (k1 k2 : string) (w w1 : World) (data2 : string) :
  saveAPIKey k1 w = (inr tt, w1) ->
  json_MarshalIndent_Config (Config.mk k2) = inr data2 ->
  json_Unmarshal_Config data2 = inr (Config.mk k2) ->
  k2 <> "" ->
  exists w2, saveAPIKey k2 w1 = (inr tt, w2) /\ (loadAPIKey w2).1 = inr k2.
Proof.
  intros Hsave Hm Hu Hne.
  apply saveAPIKey_inv in Hsave as (configPath & data & perm & _ & Hf & Hg).
  assert (exists w2, saveAPIKey k2 w1 = (inr tt, w2)) as [w2 Hs2].
  { rewrite saveAPIKey_run, Hg, Hm, Hf. by eexists. }
  exists w2. split; [exact Hs2|].
  rewrite (loadAPIKey_after_save k2 w1 w2); [reflexivity|exact Hs2|exact Hne|].
  intros d. rewrite Hm. by intros [= <-].
Qed.

(** X6. [handleSetConfig] returns normally exactly when the key was
    saved; otherwise it exits with status 1 after one line on the error
    stream that carries the error of [saveAPIKey], having printed
    nothing on the output stream and changed no file. *)
Theorem handleSetConfig_outcome (apiKey : string) (w w' : World) (r : Z + unit) :
  handleSetConfig apiKey w = (r, w') ->
  sent w' = sent w
  /\ match r with
     | inr _ => saveAPIKey apiKey w = (inr tt, w') /\ stderr w' = stderr w
     | inl code =>
       code = 1
       /\ exists err,
            (saveAPIKey apiKey w).1 = inl err
            /\ stderr w' = (stderr w ++ ["Error saving API key: " +:+ err +:+ nl])%list
            /\ stdout w' = stdout w
            /\ sameFiles w w'
     end.
Proof.
  unfold handleSetConfig. run.
  destruct (saveAPIKey apiKey w) as [[err|[]] w1] eqn:Es; cbn [fst snd];
    pose proof (saveAPIKey_quiet _ _ _ _ Es) as (He & Hs & Hr).
  - run. unfold fmt.Fprint_Stderr at 1. cbn [fst snd]. unfold os.Exit. run.
    intros [= <- <-]. split; [exact Hs|]. split; [reflexivity|].
    exists err. destruct (Hr err eq_refl) as [Ho Hf]. split; [reflexivity|].
    split; [cbn; by rewrite He|]. split; [exact Ho|exact Hf].
  - intros [= <- <-]. by split_and!.
Qed.

(** X7. With the codec of encoding/json, every key that is valid UTF-8
    and not empty survives the round trip through the file. *)
Theorem save_then_load_valid_utf8 (apiKey : string) (w w' : World) :
  usesConfigCodec golib ->
  utf8.ValidString apiKey = true ->
  apiKey <> "" ->
  saveAPIKey apiKey w = (inr tt, w') ->
  (loadAPIKey w').1 = inr apiKey.
Proof.
  intros [Hm Hu] Hv Hne Hsave.
  rewrite (loadAPIKey_after_save apiKey w w'); [reflexivity|exact Hsave|exact Hne|].
  intros data. rewrite Hm, Hu. cbn [Config.APIKey]. intros [= <-].
  by rewrite (Unmarshal_Marshal apiKey Hv).
Qed.

End KeyStoreEffects.

(** ** The file-argument resolver *)

Lemma contains_refl (s : string) : contains s s.
Proof. exists "", "". by rewrite str_app_nil_l, str_app_nil_r. Qed.

Lemma hasPrefix_here (p t : string) : hasPrefix (p +:+ t) p.
Proof. by exists t. Qed.

Lemma hasPrefix_first (c d : ascii) (s p t : string) :
  hasPrefix s (String c p) -> s = String d t -> c = d.
Proof. intros [x ->]. rewrite str_app_cons. congruence. Qed.

Section FileArgument.
Context {golib : GoLib}.

(** X8. [readFileOrString] reads and never writes. A value that does
    not begin with '@' is returned as given; "@path" gives the content
    of the file at [path], and an error naming the path if there is no
    file to read. *)
Theorem readFileOrString_spec (pathOrString : string) (w : World) :
  (readFileOrString pathOrString w).2 = w
  /\ (strings.HasPrefix pathOrString "@" = false ->
      (readFileOrString pathOrString w).1 = inr pathOrString)
  /\ (forall path, pathOrString = "@" +:+ path ->
      match fs w !! path with
      | Some (File _ data) => (readFileOrString pathOrString w).1 = inr data
      | _ => exists e, (readFileOrString pathOrString w).1 = inl e /\ contains e path
      end).
Proof.
  split; [apply readFileOrString_world|]. unfold readFileOrString. split.
  - by intros ->.
  - intros path ->.
    assert (strings.HasPrefix ("@" +:+ path) "@" = true) as Hp
      by (apply HasPrefix_spec; by exists path).
    rewrite Hp. unfold strings.TrimPrefix. rewrite Hp.
    change (str_drop (len "@") ("@" +:+ path)) with path.
    run. unfold os.ReadFile.
    destruct (fs w !! path) as [[p d|p]|]; cbn [fst snd]; [reflexivity| |];
      (eexists; split; [reflexivity|]; apply contains_app_r, contains_app_l;
       apply contains_refl).
Qed.

Lemma readFileAsBase64_run (filePath : string) (w : World) :
  (readFileAsBase64 filePath w).2 = w
  /\ match fs w !! filePath with
     | Some (File _ data) =>
       exists mimeType,
         (readFileAsBase64 filePath w).1 = inr (mimeType, base64.EncodeToString data)
     | _ =>
       exists e, (readFileAsBase64 filePath w).1 = inl e
                 /\ hasPrefix e "failed to read file '" /\ contains e filePath
     end.
Proof.
  unfold readFileAsBase64. run. unfold os.ReadFile.
  destruct (fs w !! filePath) as [[p d|p]|]; cbn [fst snd].
  - split; [reflexivity|]. by eexists.
  - split; [reflexivity|]. eexists. split; [reflexivity|].
    split; [apply hasPrefix_here|].
    apply contains_app_r, contains_app_l, contains_refl.
  - split; [reflexivity|]. eexists. split; [reflexivity|].
    split; [apply hasPrefix_here|].
    apply contains_app_r, contains_app_l, contains_refl.
Qed.

(** X9. [readFileAsBase64] succeeds exactly when there is a file at the
    path; the data it returns then decodes to the bytes of the file; it
    changes nothing. *)
Theorem readFileAsBase64_decodes (filePath : string) (w : World) :
  (readFileAsBase64 filePath w).2 = w
  /\ (forall perm data,
        fs w !! filePath = Some (File perm data) ->
        isErr (readFileAsBase64 filePath w).1 = false)
  /\ (forall mimeType base64Data,
        (readFileAsBase64 filePath w).1 = inr (mimeType, base64Data) ->
        exists perm data,
          fs w !! filePath = Some (File perm data)
          /\ base64.DecodeString base64Data = inr data).
Proof.
  destruct (readFileAsBase64_run filePath w) as [Hw Hr].
  split; [exact Hw|]. split.
  - intros perm data Hf. rewrite Hf in Hr. destruct Hr as [m ->]. reflexivity.
  - intros mimeType base64Data He.
    destruct (fs w !! filePath) as [[p d|p]|].
    + destruct Hr as [m Hm]. rewrite Hm in He. injection He as _ <-.
      exists p, d. split; [reflexivity|apply DecodeString_EncodeToString].
    + destruct Hr as (e & Hr & _). congruence.
    + destruct Hr as (e & Hr & _). congruence.
Qed.

Lemma validMethod_GET : httpc.validMethod "GET" = true.
Proof. reflexivity. Qed.

Lemma NewRequest_GET (url : string) :
  httpc.NewRequest "GET" url None
  = match url_Parse url with
    | inl err => inl err
    | inr _ => inr (http.mkRequest "GET" url "" None)
    end.
Proof.
  unfold httpc.NewRequest. cbn [String.eqb Ascii.eqb Bool.eqb].
  by rewrite validMethod_GET.
Qed.

(** The type that [readURLAsBase64] settles on, given the header of the
    response, the parsed URL and the body. *)
Lemma readURLAsBase64_run (fileURL : string) (w : World) :
  let req := http.mkRequest "GET" fileURL "" None in
  match url_Parse fileURL with
  | inl err =>
    readURLAsBase64 fileURL w
    = (inl ("failed to fetch URL '" +:+ fileURL +:+ "': " +:+ err), w)
  | inr parsedURL =>
    match remote w req with
    | inl err =>
      readURLAsBase64 fileURL w
      = (inl ("failed to fetch URL '" +:+ fileURL +:+ "': " +:+ err), add_sent req w)
    | inr resp =>
      if negb (http.StatusCode resp =? http.StatusOK) then
        readURLAsBase64 fileURL w
        = (inl ("failed to fetch URL '" +:+ fileURL +:+ "': status "
                +:+ http.Status resp), add_sent req w)
      else
        match http.RespBody resp with
        | inl err =>
          readURLAsBase64 fileURL w
          = (inl ("failed to read response body from URL '" +:+ fileURL +:+ "': "
                  +:+ err), add_sent req w)
        | inr data =>
          exists mimeType,
            readURLAsBase64 fileURL w
            = (inr (mimeType, base64.EncodeToString data), add_sent req w)
            /\ (specificType (http.RespContentType resp) ->
                mimeType = http.RespContentType resp)
            /\ (http_DetectContentType data <> "" -> mimeType <> "")
        end
    end
  end.
Proof.
  cbv zeta. unfold readURLAsBase64, httpc.Get. run. rewrite NewRequest_GET.
  destruct (url_Parse fileURL) as [err|parsedURL] eqn:Eu; [reflexivity|].
  unfold httpc.Do. cbn [fst snd].
  destruct (remote w _) as [err|resp]; [reflexivity|].
  destruct (negb (http.StatusCode resp =? http.StatusOK)); [reflexivity|].
  destruct (http.RespBody resp) as [err|data]; [reflexivity|].
  run. set (ct := http.RespContentType resp).
  destruct (String.eqb_spec ct "") as [E1|E1]; cbn [orb].
  { set (ext := strings.ToLower _).
    destruct (negb (_ =? "")%string) eqn:Ep.
    - run. eexists. split; [reflexivity|]. split.
      + intros (? & _). contradiction.
      + intros _ E. rewrite E in Ep. discriminate Ep.
    - destruct (String.eqb_spec (http_DetectContentType data)
                  "application/octet-stream") as [Ed|Ed]; cbn [negb]; run.
      + eexists. split; [reflexivity|]. split; [|discriminate].
        intros (? & _). contradiction.
      + eexists. split; [reflexivity|]. split; [|done].
        intros (? & _). contradiction. }
  destruct (String.eqb_spec ct "application/octet-stream") as [E2|E2]; cbn [orb].
  { set (ext := strings.ToLower _).
    destruct (negb (_ =? "")%string) eqn:Ep.
    - run. eexists. split; [reflexivity|]. split.
      + intros (_ & ? & _). contradiction.
      + intros _ E. rewrite E in Ep. discriminate Ep.
    - destruct (String.eqb_spec (http_DetectContentType data)
                  "application/octet-stream") as [Ed|Ed]; cbn [negb]; run.
      + eexists. split; [reflexivity|]. split; [|done].
        intros (_ & ? & _). contradiction.
      + eexists. split; [reflexivity|]. split; [|done].
        intros (_ & ? & _). contradiction. }
  destruct (strings.Contains ct "/") eqn:E3; cbn [negb].
  { run. eexists. split; [reflexivity|]. by split. }
  assert (~ specificType ct) as Hns.
  { intros (_ & _ & Hc). apply Contains_spec in Hc. congruence. }
  set (ext := strings.ToLower _).
  destruct (negb (_ =? "")%string) eqn:Ep.
  - run. eexists. split; [reflexivity|]. split; [done|].
    intros _ E. rewrite E in Ep. discriminate Ep.
  - destruct (String.eqb_spec (http_DetectContentType data)
                "application/octet-stream") as [Ed|Ed]; cbn [negb]; run.
    + eexists. split; [reflexivity|]. by split.
    + eexists. split; [reflexivity|]. by split.
Qed.

(** X10. What a successful [readURLAsBase64] has done. One GET request
    without a body went to the URL as given, the answer had status 200,
    and the data returned decodes to the body of the answer. A type in
    the Content-Type header that has a slash and is not
    application/octet-stream is returned as it is; and the type returned
    is never empty if content sniffing never answers with the empty
    string. *)
Theorem readURLAsBase64_success (fileURL : string) (w w' : World)
    (mimeType base64Data : string) :
  readURLAsBase64 fileURL w = (inr (mimeType, base64Data), w') ->
  exists resp data,
    w' = add_sent (http.mkRequest "GET" fileURL "" None) w
    /\ remote w (http.mkRequest "GET" fileURL "" None) = inr resp
    /\ http.StatusCode resp = 200
    /\ http.RespBody resp = inr data
    /\ base64.DecodeString base64Data = inr data
    /\ (specificType (http.RespContentType resp) ->
        mimeType = http.RespContentType resp)
    /\ (http_DetectContentType data <> "" -> mimeType <> "").
Proof.
  pose proof (readURLAsBase64_run fileURL w) as Hr. cbv zeta in Hr.
  destruct (url_Parse fileURL) as [err|parsedURL]; [by rewrite Hr|].
  destruct (remote w _) as [err|resp]; [by rewrite Hr|].
  destruct (Z.eqb_spec (http.StatusCode resp) http.StatusOK) as [Ec|Ec];
    cbn [negb] in Hr; [|by rewrite Hr].
  destruct (http.RespBody resp) as [err|data] eqn:Eb; [by rewrite Hr|].
  destruct Hr as (m & -> & Hs & Hn). intros [= <- <- <-].
  exists resp, data. split_and!; try done.
  apply DecodeString_EncodeToString.
Qed.

Lemma readURLAsBase64_error (fileURL : string) (w : World) (e : error) :
  (readURLAsBase64 fileURL w).1 = inl e ->
  hasPrefix e "failed to " /\ contains e fileURL /\ e <> nilDereference.
Proof.
  assert (forall t : string,
            hasPrefix ("failed to fetch URL '" +:+ fileURL +:+ t) "failed to "
            /\ contains ("failed to fetch URL '" +:+ fileURL +:+ t) fileURL
            /\ "failed to fetch URL '" +:+ fileURL +:+ t <> nilDereference) as H1.
  { intros t. split; [by exists ("fetch URL '" +:+ fileURL +:+ t)|].
    split; [by exists "failed to fetch URL '", t|]. discriminate. }
  assert (forall t : string,
            hasPrefix ("failed to read response body from URL '" +:+ fileURL +:+ t)
              "failed to "
            /\ contains ("failed to read response body from URL '" +:+ fileURL +:+ t)
                 fileURL
            /\ "failed to read response body from URL '" +:+ fileURL +:+ t
               <> nilDereference) as H2.
  { intros t. split; [by exists ("read response body from URL '" +:+ fileURL +:+ t)|].
    split; [by exists "failed to read response body from URL '", t|]. discriminate. }
  pose proof (readURLAsBase64_run fileURL w) as Hr. cbv zeta in Hr.
  destruct (url_Parse fileURL) as [err|parsedURL].
  { rewrite Hr. intros [= <-]. apply H1. }
  destruct (remote w _) as [err|resp].
  { rewrite Hr. intros [= <-]. apply H1. }
  destruct (negb (http.StatusCode resp =? http.StatusOK)).
  { rewrite Hr. intros [= <-]. apply H1. }
  destruct (http.RespBody resp) as [err|data].
  { rewrite Hr. intros [= <-]. apply H2. }
  destruct Hr as (m & -> & _). discriminate.
Qed.

Lemma readURLAsBase64_world (fileURL : string) (w : World) :
  fs (readURLAsBase64 fileURL w).2 = fs w
  /\ stdout (readURLAsBase64 fileURL w).2 = stdout w
  /\ stderr (readURLAsBase64 fileURL w).2 = stderr w
  /\ (sent (readURLAsBase64 fileURL w).2 = sent w
      \/ sent (readURLAsBase64 fileURL w).2
         = (sent w ++ [http.mkRequest "GET" fileURL "" None])%list).
Proof.
  pose proof (readURLAsBase64_run fileURL w) as Hr. cbv zeta in Hr.
  destruct (url_Parse fileURL) as [err|parsedURL].
  { rewrite Hr. split_and!; try done. by left. }
  destruct (remote w _) as [err|resp].
  { rewrite Hr. split_and!; try done. by right. }
  destruct (negb (http.StatusCode resp =? http.StatusOK)).
  { rewrite Hr. split_and!; try done. by right. }
  destruct (http.RespBody resp) as [err|data].
  { rewrite Hr. split_and!; try done. by right. }
  destruct Hr as (m & -> & _). split_and!; try done. by right.
Qed.

Lemma readURLAsBase64_data (fileURL : string) (w w' : World)
    (mimeType base64Data : string) :
  readURLAsBase64 fileURL w = (inr (mimeType, base64Data), w') ->
  exists data, base64Data = base64.EncodeToString data.
Proof.
  pose proof (readURLAsBase64_run fileURL w) as Hr. cbv zeta in Hr.
  destruct (url_Parse fileURL) as [err|parsedURL]; [by rewrite Hr|].
  destruct (remote w _) as [err|resp]; [by rewrite Hr|].
  destruct (negb (http.StatusCode resp =? http.StatusOK)); [by rewrite Hr|].
  destruct (http.RespBody resp) as [err|data]; [by rewrite Hr|].
  destruct Hr as (m & -> & _). intros [= _ <- _]. by exists data.
Qed.

Lemma readFileAsBase64_data (filePath : string) (w w' : World)
    (mimeType base64Data : string) :
  readFileAsBase64 filePath w = (inr (mimeType, base64Data), w') ->
  exists data, base64Data = base64.EncodeToString data.
Proof.
  intros He. destruct (readFileAsBase64_run filePath w) as [_ Hr].
  rewrite He in Hr. cbn [fst] in Hr.
  destruct (fs w !! filePath) as [[p d|p]|].
  - destruct Hr as [m [= _ ->]]. by exists d.
  - by destruct Hr as (e & Hr & _).
  - by destruct Hr as (e & Hr & _).
Qed.

(** X11. Every failure of [readURLAsBase64] is reported as an error that
    begins with "failed to " and names the URL. The URL is parsed a
    second time with the error ignored, but that parse cannot fail where
    the first one succeeded: the nil dereference never happens. Files
    and the two streams are left alone, and at most one request is
    sent. *)
Theorem readURLAsBase64_failure (fileURL : string) (w : World) :
  (forall e, (readURLAsBase64 fileURL w).1 = inl e ->
     hasPrefix e "failed to " /\ contains e fileURL /\ e <> nilDereference)
  /\ fs (readURLAsBase64 fileURL w).2 = fs w
  /\ stdout (readURLAsBase64 fileURL w).2 = stdout w
  /\ stderr (readURLAsBase64 fileURL w).2 = stderr w
  /\ (sent (readURLAsBase64 fileURL w).2 = sent w
      \/ sent (readURLAsBase64 fileURL w).2
         = (sent w ++ [http.mkRequest "GET" fileURL "" None])%list).
Proof.
  split; [apply readURLAsBase64_error|apply readURLAsBase64_world].
Qed.

Lemma parseDataURI_error (dataURI : string) (e : error) :
  parseDataURI dataURI = inl e -> hasPrefix e "invalid " \/ hasPrefix e "data URI ".
Proof.
  unfold parseDataURI.
  destruct (strings.SplitN dataURI "," 2) as [|header [|payload [|x l]]];
    try (intros [= <-]; left; by eexists).
  destruct (negb (strings.HasPrefix header "data:"));
    [intros [= <-]; left; by eexists|].
  destruct (negb _); [intros [= <-]; right; by eexists|].
  destruct (base64.DecodeString payload); [|discriminate].
  intros [= <-]; left; by eexists.
Qed.

(** X12. [processFileArgument] reports an unsupported format exactly for
    an argument that begins with none of "@", "file://", "http://",
    "https://" and "data:". *)
Theorem processFileArgument_unsupported (arg : string) (w : World) :
  (processFileArgument arg w).1 = inl (unsupportedFormatError arg)
  <-> strings.HasPrefix arg "@" = false
      /\ strings.HasPrefix arg "file://" = false
      /\ strings.HasPrefix arg "http://" = false
      /\ strings.HasPrefix arg "https://" = false
      /\ strings.HasPrefix arg "data:" = false.
Proof.
  unfold processFileArgument, unsupportedFormatError.
  destruct (strings.HasPrefix arg "@") eqn:E1.
  { split; [|by intros [? _]]. intros He. exfalso.
    destruct (readFileAsBase64_run (strings.TrimPrefix arg "@") w) as [_ Hr].
    destruct (fs w !! _) as [[p d|p]|];
      [destruct Hr as [m Hm]; congruence|..];
      destruct Hr as (e & Hr & Hp & _); rewrite Hr in He; injection He as ->;
      by pose proof (hasPrefix_first _ _ _ _ _ Hp eq_refl). }
  destruct (strings.HasPrefix arg "file://") eqn:E2.
  { split; [|by intros (_ & ? & _)]. intros He. exfalso.
    destruct (url_Parse arg) as [err|u]; [discriminate He|].
    match type of He with
    | (readFileAsBase64 ?p w).1 = _ =>
      destruct (readFileAsBase64_run p w) as [_ Hr];
      destruct (fs w !! p) as [[q d|q]|]
    end; [destruct Hr as [m Hm]; congruence|..];
      destruct Hr as (e & Hr & Hp & _); rewrite Hr in He; injection He as ->;
      by pose proof (hasPrefix_first _ _ _ _ _ Hp eq_refl). }
  destruct (strings.HasPrefix arg "http://" || strings.HasPrefix arg "https://") eqn:E3.
  { split; [|intros (_ & _ & E4 & E5 & _); rewrite E4, E5 in E3; discriminate E3].
    intros He. exfalso.
    destruct (readURLAsBase64_error arg w _ He) as ([t Ht] & _).
    discriminate Ht. }
  apply orb_false_iff in E3 as [E3 E4].
  destruct (strings.HasPrefix arg "data:") eqn:E5.
  { split; [|by intros (_ & _ & _ & _ & ?)]. cbn [fst]. intros He. exfalso.
    apply parseDataURI_error in He as [[t Ht]|[t Ht]]; discriminate Ht. }
  split; [by intros _|reflexivity].
Qed.

Lemma processFileArgument_world (arg : string) (w : World) :
  fs (processFileArgument arg w).2 = fs w
  /\ stdout (processFileArgument arg w).2 = stdout w
  /\ stderr (processFileArgument arg w).2 = stderr w
  /\ (sent (processFileArgument arg w).2 = sent w
      \/ sent (processFileArgument arg w).2
         = (sent w ++ [http.mkRequest "GET" arg "" None])%list).
Proof.
  unfold processFileArgument.
  destruct (strings.HasPrefix arg "@") eqn:E1.
  { destruct (readFileAsBase64_run (strings.TrimPrefix arg "@") w) as [-> _].
    split_and!; try done. by left. }
  destruct (strings.HasPrefix arg "file://") eqn:E2.
  { destruct (url_Parse arg) as [err|u]; [split_and!; try done; by left|].
    match goal with
    | |- context [readFileAsBase64 ?p w] =>
      destruct (readFileAsBase64_run p w) as [-> _]
    end.
    split_and!; try done. by left. }
  destruct (strings.HasPrefix arg "http://" || strings.HasPrefix arg "https://") eqn:E3;
    [apply readURLAsBase64_world|].
  destruct (strings.HasPrefix arg "data:"); split_and!; try done; by left.
Qed.

Lemma processFileArgument_local (arg : string) (w : World) :
  strings.HasPrefix arg "@" = true
  \/ (strings.HasPrefix arg "http://" = false
      /\ strings.HasPrefix arg "https://" = false) ->
  (processFileArgument arg w).2 = w.
Proof.
  unfold processFileArgument.
  destruct (strings.HasPrefix arg "@") eqn:E1.
  { by destruct (readFileAsBase64_run (strings.TrimPrefix arg "@") w) as [-> _]. }
  destruct (strings.HasPrefix arg "file://") eqn:E2.
  { destruct (url_Parse arg) as [err|u]; [done|].
    match goal with
    | |- context [readFileAsBase64 ?p w] =>
      by destruct (readFileAsBase64_run p w) as [-> _]
    end. }
  intros [?|[-> ->]]; [done|]. cbn [orb].
  by destruct (strings.HasPrefix arg "data:").
Qed.

(** X13. [processFileArgument] never touches files or the two streams.
    A request goes out only for an argument that begins with "http://"
    or "https://" (and not with "@"), and then it is at most one GET
    request to the address as given; for every other argument the world
    is left exactly as it was. *)
Theorem processFileArgument_effects (arg : string) (w : World) :
  (fs (processFileArgument arg w).2 = fs w
   /\ stdout (processFileArgument arg w).2 = stdout w
   /\ stderr (processFileArgument arg w).2 = stderr w
   /\ (sent (processFileArgument arg w).2 = sent w
       \/ sent (processFileArgument arg w).2
          = (sent w ++ [http.mkRequest "GET" arg "" None])%list))
  /\ (strings.HasPrefix arg "@" = true
      \/ (strings.HasPrefix arg "http://" = false
          /\ strings.HasPrefix arg "https://" = false) ->
      (processFileArgument arg w).2 = w).
Proof.
  split; [apply processFileArgument_world|apply processFileArgument_local].
Qed.

(** The data that [processFileArgument] returns is always standard
    base64 that decodes without error, whichever of the four sources it
    came from. *)
Lemma processFileArgument_decodable (arg : string) (w w' : World)
    (mimeType base64Data : string) :
  processFileArgument arg w = (inr (mimeType, base64Data), w') ->
  isErr (base64.DecodeString base64Data) = false.
Proof.
  unfold processFileArgument.
  assert (forall p, readFileAsBase64 p w = (inr (mimeType, base64Data), w') ->
                    isErr (base64.DecodeString base64Data) = false) as Hfile.
  { intros p Hp. apply readFileAsBase64_data in Hp as [data ->].
    by rewrite DecodeString_EncodeToString. }
  destruct (strings.HasPrefix arg "@"); [apply Hfile|].
  destruct (strings.HasPrefix arg "file://").
  { destruct (url_Parse arg) as [err|u]; [discriminate|apply Hfile]. }
  destruct (strings.HasPrefix arg "http://" || strings.HasPrefix arg "https://").
  { intros Hu. apply readURLAsBase64_data in Hu as [data ->].
    by rewrite DecodeString_EncodeToString. }
  destruct (strings.HasPrefix arg "data:"); [|discriminate].
  intros [= Hd _]. apply parseDataURI_accepts in Hd as (_ & _ & _ & _ & _ & _ & _ & Hw).
  apply DecodeString_wellFormed in Hw. exact Hw.
Qed.

(** X14. The check of [parseDataURI] that the header begins with "data:"
    never fails for an argument that [processFileArgument] hands to it. *)
Theorem parseDataURI_header_check (arg : string) :
  strings.HasPrefix arg "data:" = true ->
  parseDataURI arg <> inl "invalid data URI format: must start with 'data:'".
Proof.
  intros Hp. unfold parseDataURI.
  destruct (SplitN_2_cases arg ",") as [->|(header & payload & Hs)];
    [discriminate|].
  rewrite Hs. apply SplitN_2_inv in Hs as [-> Hnc]; [|discriminate].
  assert (strings.HasPrefix header "data:" = true) as ->.
  { apply HasPrefix_spec in Hp as [t Ht]. apply HasPrefix_spec.
    clear Hnc.
    destruct header as [|c0 [|c1 [|c2 [|c3 [|c4 h]]]]]; revert Ht; str_norm;
      intros Ht; simplify_eq. by exists h. }
  cbn [negb]. destruct (negb _); [discriminate|].
  destruct (base64.DecodeString payload); discriminate.
Qed.

End FileArgument.

(** ** The request builder: shape, effects and failures *)

Section BuilderShape.
Context {golib : GoLib}.

Lemma buildParts_inv (parsedParts : list ParsedPart.t) :
  forall (apiParts : list Part.t) (w w' : World) (out : list Part.t),
    buildParts parsedParts apiParts w = (inr out, w') ->
    exists new, out = (apiParts ++ new)%list /\ Forall2 partOf parsedParts new.
Proof.
  induction parsedParts as [|p rest IH]; intros apiParts w w' out;
    cbn [buildParts].
  - intros [= <- <-]. exists []. by rewrite app_nil_r.
  - destruct (String.eqb_spec (ParsedPart.Type_ p) "text") as [Et|Et].
    { intros Hb. apply IH in Hb as (new & -> & Hf).
      exists (Part.mk (Some (ParsedPart.Value p)) None :: new).
      split; [by rewrite <- app_assoc|]. constructor; [by left|exact Hf]. }
    destruct (String.eqb_spec (ParsedPart.Type_ p) "file") as [Ef|Ef];
      [|discriminate].
    run.
    destruct (processFileArgument (ParsedPart.Value p) w) as [[e|[m d]] w1] eqn:Ep;
      cbn [fst snd]; [discriminate|].
    intros Hb. apply IH in Hb as (new & -> & Hf).
    exists (Part.mk None (Some (InlinePart.mk m d)) :: new).
    split; [by rewrite <- app_assoc|]. constructor; [|exact Hf].
    right. split; [exact Ef|]. exists m, d. split; [reflexivity|].
    by apply processFileArgument_decodable in Ep.
Qed.

Lemma buildParts_world (parsedParts : list ParsedPart.t) :
  forall (apiParts : list Part.t) (w : World),
    let w' := (buildParts parsedParts apiParts w).2 in
    fs w' = fs w /\ stdout w' = stdout w /\ stderr w' = stderr w
    /\ exists reqs, sent w' = (sent w ++ reqs)%list /\ Forall isFetch reqs
                    /\ (length reqs <= length parsedParts)%nat.
Proof.
  induction parsedParts as [|p rest IH]; intros apiParts w; cbn [buildParts].
  - cbn. split_and!; try done. exists []. by rewrite app_nil_r.
  - destruct (ParsedPart.Type_ p =? "text")%string.
    { destruct (IH (apiParts ++ [Part.mk (Some (ParsedPart.Value p)) None])%list w)
        as (Hf & Ho & He & reqs & Hs & Hq & Hl).
      split_and!; try done. exists reqs. split_and!; try done. cbn. lia. }
    destruct (ParsedPart.Type_ p =? "file")%string.
    2:{ cbn. split_and!; try done. exists []. rewrite app_nil_r.
        split_and!; try done. cbn. lia. }
    run.
    pose proof (processFileArgument_world (ParsedPart.Value p) w)
      as (Hf1 & Ho1 & He1 & Hs1).
    destruct (processFileArgument (ParsedPart.Value p) w) as [[e|[m d]] w1];
      cbn [fst snd] in *.
    { run. split_and!; try done.
      destruct Hs1 as [->| ->].
      - exists []. rewrite app_nil_r. split_and!; try done. cbn. lia.
      - eexists. split; [reflexivity|]. split; [by repeat constructor|]. cbn. lia. }
    destruct (IH (apiParts ++ [Part.mk None (Some (InlinePart.mk m d))])%list w1)
      as (Hf & Ho & He & reqs & Hs & Hq & Hl).
    split_and!; try congruence.
    destruct Hs1 as [E|E]; rewrite Hs, E.
    + exists reqs. split_and!; try done. cbn. lia.
    + eexists. rewrite <- app_assoc. split; [reflexivity|].
      split; [constructor; [by split|exact Hq]|]. cbn. lia.
Qed.

Lemma populateGenerationConfig_world (genConfigInput : GenerationConfigInput.t)
    (w : World) :
  (populateGenerationConfig genConfigInput w).2 = w.
Proof.
  unfold populateGenerationConfig.
  repeat match goal with
         | |- context [if ?c then (_, true) else _] => destruct c
         end; cbv zeta; cbn iota; run.
  all: destruct (negb _); run;
    [pose proof (readFileOrString_world
                   (GenerationConfigInput.ResponseSchemaFileOrJSON genConfigInput) w);
     destruct (readFileOrString _ w) as [[e'|c] w1]; cbn [fst snd] in * |];
    repeat match goal with
           | |- context [if ?c then (_, true) else _] => destruct c
           end; done.
Qed.

(** The fields of the request that the later blocks of the builder
    leave alone. *)
Lemma build_inv (systemInstructionStr : string) (parsedParts : list ParsedPart.t)
    (genConfigInput : GenerationConfigInput.t) (toolsInput : ToolsInput.t)
    (safetySettingsStr : string) (w w' : World) (req : GenerateContentRequest.t) :
  buildGenerateContentRequest systemInstructionStr parsedParts genConfigInput
    toolsInput safetySettingsStr w = (inr req, w') ->
  exists req0 w1,
    buildContents systemInstructionStr parsedParts w = (inr req0, w1)
    /\ w' = w1
    /\ GenerateContentRequest.SystemInstruction req
       = GenerateContentRequest.SystemInstruction req0
    /\ GenerateContentRequest.Contents req = GenerateContentRequest.Contents req0
    /\ GenerateContentRequest.Tools req = populateTools toolsInput.
Proof.
  rewrite build_run.
  destruct (buildContents _ _ w) as [[e|req0] w1] eqn:Ec; [discriminate|].
  pose proof (populateGenerationConfig_world genConfigInput w1) as Hw.
  destruct (populateGenerationConfig genConfigInput w1) as [[e|[genCfg ch]] w2];
    [discriminate|]. cbn [snd] in Hw. subst w2.
  apply buildContents_spec in Ec as Hspec. destruct Hspec as (_ & _ & Ht & _ & _).
  cbv zeta. intros Hr. exists req0, w1. split; [reflexivity|].
  assert (exists settings,
            req = GenerateContentRequest.set_SafetySettings settings
                    (if (0 <? length (populateTools toolsInput))%nat
                     then GenerateContentRequest.set_Tools (populateTools toolsInput)
                            (if ch then GenerateContentRequest.set_GenerationConfig
                                          genCfg req0 else req0)
                     else if ch then GenerateContentRequest.set_GenerationConfig
                                       genCfg req0 else req0)
            /\ w' = w1) as (settings & -> & ->).
  { destruct (negb _).
    - destruct (populateSafetySettings _ _) as [e|st]; [discriminate|].
      injection Hr as <- <-. by eexists.
    - injection Hr as <- <-. eexists. split; [|reflexivity].
      by destruct (0 <? length _)%nat, ch, req0. }
  split; [reflexivity|].
  destruct (populateTools toolsInput) as [|t l] eqn:Etools;
    cbn [length Nat.ltb Nat.leb]; destruct ch; cbn; by split_and!.
Qed.

Lemma build_request_shape_aux
    (systemInstructionStr : string) (parsedParts : list ParsedPart.t)
    (genConfigInput : GenerationConfigInput.t) (toolsInput : ToolsInput.t)
    (safetySettingsStr : string) (w w' : World) (req : GenerateContentRequest.t) :
  buildGenerateContentRequest systemInstructionStr parsedParts genConfigInput
    toolsInput safetySettingsStr w = (inr req, w') ->
  GenerateContentRequest.Contents req <> []
  \/ GenerateContentRequest.SystemInstruction req <> None.
Proof.
  intros Hb. apply build_inv in Hb as (req0 & w1 & Hc & -> & -> & -> & _).
  pose proof Hc as Hspec. apply buildContents_spec in Hspec as (Hs & Hp & _).
  destruct parsedParts as [|p rest]; cbn [length Nat.ltb Nat.leb] in Hp.
  - right. rewrite Hs. unfold buildContents in Hc.
    cbn [length Nat.ltb Nat.leb] in Hc.
    by destruct (systemInstructionStr =? "")%string.
  - destruct Hp as (apiParts & _ & ->). by left.
Qed.

(** X15. The shape of every request the builder returns. The system
    instruction is there exactly when the string is not empty, as one
    text part. Without parsed parts there is no content; with parsed
    parts there is exactly one content, without a role, whose parts
    stand for the parsed parts one by one and in order: a text part
    carries the value as given, a file part carries inline data that is
    decodable base64. And the request is never without both. *)
Theorem build_request_shape
    (systemInstructionStr : string) (parsedParts : list ParsedPart.t)
    (genConfigInput : GenerationConfigInput.t) (toolsInput : ToolsInput.t)
    (safetySettingsStr : string) (w w' : World) (req : GenerateContentRequest.t) :
  buildGenerateContentRequest systemInstructionStr parsedParts genConfigInput
    toolsInput safetySettingsStr w = (inr req, w') ->
  GenerateContentRequest.SystemInstruction req
  = (if (systemInstructionStr =? "")%string then None
     else Some (SystemInstruction.mk [TextPart.mk systemInstructionStr]))
  /\ match parsedParts with
     | [] => GenerateContentRequest.Contents req = []
     | _ => exists apiParts,
              GenerateContentRequest.Contents req = [Content.mk "" apiParts]
              /\ Forall2 partOf parsedParts apiParts
     end
  /\ (GenerateContentRequest.Contents req <> []
      \/ GenerateContentRequest.SystemInstruction req <> None).
Proof.
  intros Hb. apply build_inv in Hb as (req0 & w1 & Hc & -> & -> & -> & _).
  pose proof Hc as Hspec. apply buildContents_spec in Hspec as (Hs & Hp & _).
  assert (GenerateContentRequest.SystemInstruction req0
          = (if (systemInstructionStr =? "")%string then None
             else Some (SystemInstruction.mk [TextPart.mk systemInstructionStr])))
    as Hs' by (rewrite Hs; by destruct (systemInstructionStr =? "")%string).
  split; [exact Hs'|].
  destruct parsedParts as [|p rest]; cbn [length Nat.ltb Nat.leb] in Hp.
  - destruct Hp as [Hp _]. split; [exact Hp|]. right. rewrite Hs'.
    unfold buildContents in Hc. cbn [length Nat.ltb Nat.leb] in Hc.
    by destruct (systemInstructionStr =? "")%string.
  - destruct Hp as (apiParts & Hbp & Hcs). rewrite Hcs.
    split; [|by left]. exists apiParts. split; [reflexivity|].
    apply buildParts_inv in Hbp as (new & -> & Hf). exact Hf.
Qed.

Lemma buildContents_world (systemInstructionStr : string)
    (parsedParts : list ParsedPart.t) (w : World) :
  let w' := (buildContents systemInstructionStr parsedParts w).2 in
  fs w' = fs w /\ stdout w' = stdout w /\ stderr w' = stderr w
  /\ exists reqs, sent w' = (sent w ++ reqs)%list /\ Forall isFetch reqs
                  /\ (length reqs <= length parsedParts)%nat.
Proof.
  unfold buildContents. destruct (0 <? length parsedParts)%nat.
  - run. pose proof (buildParts_world parsedParts [] w) as Hw. cbv zeta in Hw.
    by destruct (buildParts parsedParts [] w) as [[e|ps] w1].
  - assert (exists reqs : list http.Request,
              sent w = (sent w ++ reqs)%list /\ Forall isFetch reqs
              /\ (length reqs <= length parsedParts)%nat) as Hn.
    { exists []. rewrite app_nil_r. split_and!; try done. cbn. lia. }
    by destruct (systemInstructionStr =? "")%string.
Qed.

Lemma build_world (systemInstructionStr : string) (parsedParts : list ParsedPart.t)
    (genConfigInput : GenerationConfigInput.t) (toolsInput : ToolsInput.t)
    (safetySettingsStr : string) (w : World) :
  (buildGenerateContentRequest systemInstructionStr parsedParts genConfigInput
     toolsInput safetySettingsStr w).2
  = (buildContents systemInstructionStr parsedParts w).2.
Proof.
  rewrite build_run.
  destruct (buildContents _ _ w) as [[e|req0] w1] eqn:Ec; [reflexivity|].
  pose proof (populateGenerationConfig_world genConfigInput w1) as Hw.
  destruct (populateGenerationConfig genConfigInput w1) as [[e|[genCfg ch]] w2];
    cbn [snd] in *; [done|]. subst w2. cbv zeta.
  destruct (negb _); [|reflexivity]. by destruct (populateSafetySettings _ _).
Qed.

(** X16. Building a request never changes a file and never prints. What
    it sends are the GET requests that fetch http(s) file parts, at most
    one for each parsed part. *)
Theorem build_effects
    (systemInstructionStr : string) (parsedParts : list ParsedPart.t)
    (genConfigInput : GenerationConfigInput.t) (toolsInput : ToolsInput.t)
    (safetySettingsStr : string) (w : World) :
  let w' := (buildGenerateContentRequest systemInstructionStr parsedParts
               genConfigInput toolsInput safetySettingsStr w).2 in
  fs w' = fs w /\ stdout w' = stdout w /\ stderr w' = stderr w
  /\ exists reqs, sent w' = (sent w ++ reqs)%list /\ Forall isFetch reqs
                  /\ (length reqs <= length parsedParts)%nat.
Proof.
  cbv zeta. rewrite build_world. apply buildContents_world.
Qed.

Lemma populateTools_spec (toolsInput : ToolsInput.t) :
  let tools := populateTools toolsInput in
  length tools
  = (Nat.b2n (ToolsInput.EnableURLContext toolsInput)
     + Nat.b2n (ToolsInput.EnableGoogleSearch toolsInput)
     + Nat.b2n (ToolsInput.EnableGoogleSearchRetrieval toolsInput))%nat
  /\ Forall (fun t => fieldsSet t = 1%nat) tools
  /\ (ToolsInput.EnableURLContext toolsInput = true ->
      exists t, tools !! 0%nat = Some t /\ Tool.URLContext t = Some ∅)
  /\ (ToolsInput.EnableGoogleSearch toolsInput = true ->
      exists t, tools !! Nat.b2n (ToolsInput.EnableURLContext toolsInput) = Some t
                /\ Tool.GoogleSearch t = Some ∅)
  /\ (if ToolsInput.EnableGoogleSearchRetrieval toolsInput then
        exists g, last tools = Some (Tool.mk None None (Some g))
          /\ GoogleSearchRetrievalConfig.DynamicRetrievalConfig g
             = (if negb (ToolsInput.GoogleSearchRetrievalMode toolsInput =? "")%string
                   || float64_ge (ToolsInput.GoogleSearchRetrievalThreshold toolsInput)
                        float64_zero
                then Some (DynamicRetrievalConfig.mk
                             (ToolsInput.GoogleSearchRetrievalMode toolsInput)
                             (if float64_ge
                                   (ToolsInput.GoogleSearchRetrievalThreshold toolsInput)
                                   float64_zero
                              then Some (ToolsInput.GoogleSearchRetrievalThreshold
                                           toolsInput)
                              else None))
                else None)
      else Forall (fun t => Tool.GoogleSearchRetrieval t = None) tools).
Proof.
  destruct toolsInput as [u g r mode thr]. unfold populateTools.
  cbn [ToolsInput.EnableURLContext ToolsInput.EnableGoogleSearch
       ToolsInput.EnableGoogleSearchRetrieval ToolsInput.GoogleSearchRetrievalMode
       ToolsInput.GoogleSearchRetrievalThreshold].
  destruct (String.eqb_spec mode "") as [->|Hm];
    destruct (float64_ge thr float64_zero); destruct u, g, r; cbn;
    split_and!; try done; repeat constructor; eauto.
Qed.

(** X17. The tools of a built request. There is one tool for each switch
    that is on, in the order URL context, Google search, Google search
    retrieval, and each tool has exactly one field set. The retrieval
    mode and threshold are read only when retrieval is on; its dynamic
    configuration is there exactly when a mode is given or the threshold
    is at least zero. *)
Theorem build_tools
    (systemInstructionStr : string) (parsedParts : list ParsedPart.t)
    (genConfigInput : GenerationConfigInput.t) (toolsInput : ToolsInput.t)
    (safetySettingsStr : string) (w w' : World) (req : GenerateContentRequest.t) :
  buildGenerateContentRequest systemInstructionStr parsedParts genConfigInput
    toolsInput safetySettingsStr w = (inr req, w') ->
  let tools := GenerateContentRequest.Tools req in
  length tools
  = (Nat.b2n (ToolsInput.EnableURLContext toolsInput)
     + Nat.b2n (ToolsInput.EnableGoogleSearch toolsInput)
     + Nat.b2n (ToolsInput.EnableGoogleSearchRetrieval toolsInput))%nat
  /\ Forall (fun t => fieldsSet t = 1%nat) tools
  /\ (ToolsInput.EnableURLContext toolsInput = true ->
      exists t, tools !! 0%nat = Some t /\ Tool.URLContext t = Some ∅)
  /\ (ToolsInput.EnableGoogleSearch toolsInput = true ->
      exists t, tools !! Nat.b2n (ToolsInput.EnableURLContext toolsInput) = Some t
                /\ Tool.GoogleSearch t = Some ∅)
  /\ (if ToolsInput.EnableGoogleSearchRetrieval toolsInput then
        exists g, last tools = Some (Tool.mk None None (Some g))
          /\ GoogleSearchRetrievalConfig.DynamicRetrievalConfig g
             = (if negb (ToolsInput.GoogleSearchRetrievalMode toolsInput =? "")%string
                   || float64_ge (ToolsInput.GoogleSearchRetrievalThreshold toolsInput)
                        float64_zero
                then Some (DynamicRetrievalConfig.mk
                             (ToolsInput.GoogleSearchRetrievalMode toolsInput)
                             (if float64_ge
                                   (ToolsInput.GoogleSearchRetrievalThreshold toolsInput)
                                   float64_zero
                              then Some (ToolsInput.GoogleSearchRetrievalThreshold
                                           toolsInput)
                              else None))
                else None)
      else Forall (fun t => Tool.GoogleSearchRetrieval t = None) tools).
Proof.
  intros Hb. apply build_inv in Hb as (req0 & w1 & _ & _ & _ & _ & Ht).
  cbv zeta. rewrite Ht. apply populateTools_spec.
Qed.

Lemma parseInputParts_loop_inv (args : list string) :
  forall acc parts,
    Nat.Even (length args) ->
    parseInputParts_loop args acc = inr parts ->
    exists new, parts = (acc ++ new)%list /\ args = flattenParts new
                /\ Forall (fun p => validPartType (ParsedPart.Type_ p)) new.
Proof.
  induction args as [|x|t v rest IH] using list_pair_ind; intros acc parts Hlen.
  - intros [= <-]. exists []. by rewrite app_nil_r.
  - destruct Hlen as [k Hk]. simpl in Hk. lia.
  - cbn [parseInputParts_loop].
    destruct (negb (t =? "text")%string && negb (t =? "file")%string) eqn:E;
      [discriminate|].
    apply validPartType_eqb in E. intros Hl.
    apply IH in Hl as (new & -> & -> & Hf).
    + exists (ParsedPart.mk t v :: new). rewrite <- app_assoc.
      split; [reflexivity|]. split; [reflexivity|]. by constructor.
    + destruct Hlen as [n Hn]. simpl in Hn. exists (n - 1)%nat. lia.
Qed.

Lemma parseInputParts_inv (args : list string) (parts : list ParsedPart.t) :
  parseInputParts args = inr parts ->
  args = flattenParts parts
  /\ Forall (fun p => validPartType (ParsedPart.Type_ p)) parts.
Proof.
  unfold parseInputParts.
  destruct (length args mod 2 =? 0)%nat eqn:E; [|discriminate]. cbn [negb].
  apply even_mod2 in E. intros Hl.
  by apply parseInputParts_loop_inv in Hl as (new & -> & -> & Hf).
Qed.

Lemma flattenParts_length (parts : list ParsedPart.t) :
  length (flattenParts parts) = (2 * length parts)%nat.
Proof.
  unfold flattenParts. induction parts as [|p l IH]; [reflexivity|].
  cbn [flat_map app length]. rewrite IH. lia.
Qed.

(** X18. [parseInputParts] succeeds with a list of parts exactly when
    the arguments are the types and values of these parts written out in
    order, and every type is "text" or "file": nothing is dropped,
    reordered or rewritten. *)
Theorem parseInputParts_iff (args : list string) (parts : list ParsedPart.t) :
  parseInputParts args = inr parts
  <-> args = flattenParts parts
      /\ Forall (fun p => validPartType (ParsedPart.Type_ p)) parts.
Proof.
  split; [apply parseInputParts_inv|]. intros [-> Hv].
  unfold parseInputParts.
  assert ((length (flattenParts parts) mod 2 =? 0)%nat = true) as ->.
  { apply even_mod2. exists (length parts). apply flattenParts_length. }
  cbn [negb].
  enough (forall acc, parseInputParts_loop (flattenParts parts) acc
                      = inr (acc ++ parts)%list) as H by apply (H []).
  induction Hv as [|[t v] l Ht Hl IH]; intros acc.
  - cbn. by rewrite app_nil_r.
  - cbn [flattenParts flat_map app parseInputParts_loop ParsedPart.Type_
         ParsedPart.Value] in *.
    apply validPartType_eqb in Ht. rewrite Ht.
    fold (flattenParts l). rewrite IH. by rewrite <- app_assoc.
Qed.

Lemma buildParts_valid (parsedParts : list ParsedPart.t) :
  Forall (fun p => validPartType (ParsedPart.Type_ p)) parsedParts ->
  forall (apiParts : list Part.t) (w w' : World) (e : error),
    buildParts parsedParts apiParts w = (inl e, w') ->
    hasPrefix e "failed to process file argument '".
Proof.
  induction 1 as [|p rest Hp Hrest IH]; intros apiParts w w' e;
    cbn [buildParts]; [discriminate|].
  destruct (String.eqb_spec (ParsedPart.Type_ p) "text") as [Et|Et]; [apply IH|].
  destruct (String.eqb_spec (ParsedPart.Type_ p) "file") as [Ef|Ef];
    [|by destruct Hp].
  run. destruct (processFileArgument (ParsedPart.Value p) w) as [[e'|[m d]] w1];
    cbn [fst snd]; [|apply IH].
  intros [= <- _]. apply hasPrefix_here.
Qed.

Lemma populateGenerationConfig_failure (genConfigInput : GenerationConfigInput.t)
    (w w' : World) (e : error) :
  populateGenerationConfig genConfigInput w = (inl e, w') ->
  hasPrefix e "failed to read response-schema: ".
Proof.
  unfold populateGenerationConfig.
  repeat match goal with
         | |- context [if ?c then (_, true) else _] => destruct c
         end; cbv zeta; cbn iota; run.
  all: destruct (negb _); run;
    [destruct (readFileOrString _ w) as [[e'|c] w1]; cbn [fst snd] |];
    repeat match goal with
           | |- context [if ?c then (_, true) else _] => destruct c
           end;
    try discriminate; intros [= <- _]; apply hasPrefix_here.
Qed.

Lemma populateSafetySettings_failure (pairs : list string)
    (settings : list SafetySetting.t) (e : error) :
  populateSafetySettings pairs settings = inl e ->
  hasPrefix e "invalid safety setting ".
Proof.
  revert settings. induction pairs as [|pair_ rest IH]; intros settings;
    cbn [populateSafetySettings]; [discriminate|].
  destruct (_ =? 2)%nat.
  - destruct (_ && _); [apply IH|]. intros [= <-]. by eexists.
  - destruct (negb _); [|apply IH]. intros [= <-]. by eexists.
Qed.

(** X19. The ways in which building a request from parsed arguments can
    fail. For parts that [parseInputParts] returned, an error of the
    builder is the missing-input error (and then there is neither a part
    nor a system instruction), or it reports a file argument, the
    response schema or a safety setting; the builder's own check of the
    part type never fails. *)
Theorem build_failures
    (args : list string) (systemInstructionStr : string)
    (parsedParts : list ParsedPart.t)
    (genConfigInput : GenerationConfigInput.t) (toolsInput : ToolsInput.t)
    (safetySettingsStr : string) (w : World) (e : error) :
  parseInputParts args = inr parsedParts ->
  (buildGenerateContentRequest systemInstructionStr parsedParts genConfigInput
     toolsInput safetySettingsStr w).1 = inl e ->
  ((e = emptyRequestError /\ parsedParts = [] /\ systemInstructionStr = "")
   \/ hasPrefix e "failed to process file argument '"
   \/ hasPrefix e "failed to read response-schema: "
   \/ hasPrefix e "invalid safety setting ")
  /\ forall t, e <> unknownPartTypeError t.
Proof.
  intros Hp He. apply parseInputParts_inv in Hp as [_ Hv].
  assert ((e = emptyRequestError /\ parsedParts = [] /\ systemInstructionStr = "")
          \/ hasPrefix e "failed to process file argument '"
          \/ hasPrefix e "failed to read response-schema: "
          \/ hasPrefix e "invalid safety setting ") as Hk.
  { revert He. rewrite build_run.
    destruct (buildContents _ _ w) as [[e0|req0] w1] eqn:Ec; cbn [fst].
    { intros [= <-]. revert Ec. unfold buildContents.
      destruct parsedParts as [|p rest]; cbn [length Nat.ltb Nat.leb].
      - destruct (String.eqb_spec systemInstructionStr "") as [->|_];
          [|discriminate]. intros [= <- _]. by left.
      - run. destruct (buildParts (p :: rest) [] w) as [[e'|ps] w2] eqn:Eb;
          [|discriminate].
        intros [= <- _]. right; left. by apply buildParts_valid in Eb. }
    destruct (populateGenerationConfig genConfigInput w1) as [[e0|[genCfg ch]] w2] eqn:Eg;
      cbn [fst].
    { intros [= <-]. right; right; left.
      by apply populateGenerationConfig_failure in Eg. }
    cbv zeta. destruct (negb _); [|discriminate].
    destruct (populateSafetySettings _ _) as [e0|st] eqn:Es; [|discriminate].
    intros [= <-]. right; right; right.
    by apply populateSafetySettings_failure in Es. }
  split; [exact Hk|]. intros t ->.
  destruct Hk as [[Hk _]|[[x Hk]|[[x Hk]|[x Hk]]]]; discriminate Hk.
Qed.

End BuilderShape.

(** ** The API client and the command handlers *)

Section Client.
Context {golib : GoLib}.

Lemma NewRequest_inv (method url : string) (body : option string)
    (req : http.Request) :
  httpc.NewRequest method url body = inr req ->
  req = http.mkRequest (if (method =? "")%string then "GET" else method) url "" body.
Proof.
  unfold httpc.NewRequest. destruct (negb _); [discriminate|].
  destruct (url_Parse url); [discriminate|]. by intros [= <-].
Qed.

Lemma makeAPIRequest_run {T} (apiKey method endpointURL : string)
    (body : option string) (target : option (string -> error + T)) (w : World) :
  makeAPIRequest apiKey method endpointURL body target w
  = match httpc.NewRequest method (baseURL +:+ endpointURL +:+ "?key=" +:+ apiKey)
            body with
    | inl err => (inl ("failed to create request: " +:+ err), w)
    | inr _ =>
      let req := apiRequest apiKey method endpointURL body in
      let w1 := add_sent req w in
      match remote w req with
      | inl err => (inl ("failed to execute request: " +:+ err), w1)
      | inr resp =>
        match http.RespBody resp with
        | inl err => (inl ("failed to read response body: " +:+ err), w1)
        | inr responseBody =>
          if negb (http.StatusCode resp =? http.StatusOK)
          then (inl ("API error: " +:+ http.Status resp +:+ ", Body: "
                     +:+ responseBody), w1)
          else
            match target with
            | Some unmarshal =>
              match unmarshal responseBody with
              | inl err =>
                (inl ("failed to unmarshal response into target: " +:+ err
                      +:+ ". Raw response: " +:+ responseBody), w1)
              | inr v => (inr (Some v), w1)
              end
            | None => (inr None, add_stdout (responseBody +:+ nl) w1)
            end
        end
      end
    end.
Proof.
  unfold makeAPIRequest.
  destruct (httpc.NewRequest _ _ _) as [err|req] eqn:En; [reflexivity|].
  apply NewRequest_inv in En as ->. cbv zeta.
  change (httpc.Header_Set_ContentType "application/json" _)
    with (apiRequest apiKey method endpointURL body).
  run. unfold httpc.Do. cbn [fst snd].
  destruct (remote w _) as [err|resp]; [reflexivity|].
  destruct (http.RespBody resp) as [err|responseBody]; [reflexivity|].
  destruct (negb _); [reflexivity|].
  destruct target as [unmarshal|]; [|reflexivity].
  by destruct (unmarshal responseBody).
Qed.

(** X20. What [makeAPIRequest] sends. It never touches a file or the
    error stream. If the request cannot be created nothing is sent and
    the world is as before; otherwise exactly one request is sent: the
    method as given (GET for the empty method), the address made of the
    base URL, the endpoint and the key as the query, the content type
    application/json, and the body as given. *)
Theorem makeAPIRequest_sends {T} (apiKey method endpointURL : string)
    (body : option string) (target : option (string -> error + T)) (w : World) :
  let w' := (makeAPIRequest apiKey method endpointURL body target w).2 in
  fs w' = fs w /\ stderr w' = stderr w
  /\ match httpc.NewRequest method
             (baseURL +:+ endpointURL +:+ "?key=" +:+ apiKey) body with
     | inl err =>
       makeAPIRequest apiKey method endpointURL body target w
       = (inl ("failed to create request: " +:+ err), w)
     | inr _ =>
       sent w' = (sent w ++ [apiRequest apiKey method endpointURL body])%list
     end.
Proof.
  cbv zeta. rewrite makeAPIRequest_run.
  destruct (httpc.NewRequest _ _ _) as [err|req]; [done|]. cbv zeta.
  destruct (remote w _) as [err|resp]; [done|].
  destruct (http.RespBody resp) as [err|responseBody]; [done|].
  destruct (negb _); [done|].
  destruct target as [unmarshal|]; [|done].
  by destruct (unmarshal responseBody).
Qed.

(** X21. The answer with status 200. Without a target the body is
    printed, followed by a line feed, and nothing else; with a target
    nothing is printed, the decoded value is returned, and a body that
    does not decode gives an error that carries the decoder's message
    and the body. *)
Theorem makeAPIRequest_OK {T} (apiKey method endpointURL : string)
    (body : option string) (target : option (string -> error + T))
    (w : World) (req : http.Request) (resp : http.Response) (responseBody : string) :
  httpc.NewRequest method (baseURL +:+ endpointURL +:+ "?key=" +:+ apiKey) body
    = inr req ->
  remote w (apiRequest apiKey method endpointURL body) = inr resp ->
  http.RespBody resp = inr responseBody ->
  http.StatusCode resp = 200 ->
  let '(r, w') := makeAPIRequest apiKey method endpointURL body target w in
  match target with
  | None =>
    r = inr None /\ stdout w' = (stdout w ++ [responseBody +:+ nl])%list
  | Some unmarshal =>
    stdout w' = stdout w
    /\ match unmarshal responseBody with
       | inr v => r = inr (Some v)
       | inl err => exists e, r = inl e /\ contains e err /\ contains e responseBody
       end
  end.
Proof.
  intros Hn Hr Hb Hc. rewrite makeAPIRequest_run, Hn. cbv zeta.
  rewrite Hr, Hb, Hc. cbn [Z.eqb Pos.eqb negb].
  destruct target as [unmarshal|]; [|by split].
  destruct (unmarshal responseBody) as [err|v]; [|by split].
  split; [reflexivity|]. eexists. split; [reflexivity|]. split.
  - apply contains_here.
  - do 3 apply contains_app_r. apply contains_refl.
Qed.

(** The steps of [handleGenerateContent] on a model name that carries
    the prefix already. *)
Lemma handleGenerateContent_run
    (apiKey name systemInstructionStr : string)
    (parsedParts : list ParsedPart.t)
    (genConfigInput : GenerationConfigInput.t)
    (toolsInput : ToolsInput.t) (safetySettingsStr : string) (w : World) :
  handleGenerateContent apiKey ("models/" +:+ name) systemInstructionStr parsedParts
    genConfigInput toolsInput safetySettingsStr w
  = match buildGenerateContentRequest systemInstructionStr parsedParts
            genConfigInput toolsInput safetySettingsStr w with
    | (inl err, w1) =>
      (inl 1, add_stderr ("Error building request: " +:+ err +:+ nl) w1)
    | (inr requestPayload, w1) =>
      match json_Marshal_GenerateContentRequest requestPayload with
      | inl err =>
        (inl 1, add_stderr ("Error marshalling request to JSON: " +:+ err +:+ nl) w1)
      | inr jsonData =>
        match makeAPIRequest (T := unit) apiKey "POST"
                ("/" +:+ ("models/" +:+ name) +:+ ":generateContent")
                (Some jsonData) None w1 with
        | (inl err, w2) =>
          (inl 1, add_stderr ("Error making API request: " +:+ err +:+ nl) w2)
        | (inr _, w2) => (inr tt, w2)
        end
      end
    end.
Proof.
  unfold handleGenerateContent.
  assert (strings.HasPrefix ("models/" +:+ name) "models/" = true) as ->
    by (apply HasPrefix_spec; by exists name).
  cbn [negb]. run.
  destruct (buildGenerateContentRequest _ _ _ _ _ w) as [[err|requestPayload] w1] eqn:Eb;
    cbn [fst snd]; [reflexivity|].
  apply build_request_shape_aux in Eb.
  assert ((length (GenerateContentRequest.Contents requestPayload) =? 0)%nat
          && bool_decide (GenerateContentRequest.SystemInstruction requestPayload = None)
          = false) as ->.
  { destruct Eb as [Hc|Hs].
    - by destruct (GenerateContentRequest.Contents requestPayload).
    - rewrite bool_decide_eq_false_2 by done. apply andb_false_r. }
  destruct (json_Marshal_GenerateContentRequest requestPayload) as [err|jsonData];
    [reflexivity|].
  run. by destruct (makeAPIRequest _ _ _ _ _ w1) as [[err|v] w2].
Qed.

Lemma handleGenerateContent_prefix
    (apiKey name systemInstructionStr : string)
    (parsedParts : list ParsedPart.t)
    (genConfigInput : GenerationConfigInput.t)
    (toolsInput : ToolsInput.t) (safetySettingsStr : string) (w : World) :
  strings.HasPrefix name "models/" = false ->
  handleGenerateContent apiKey name systemInstructionStr parsedParts
    genConfigInput toolsInput safetySettingsStr w
  = handleGenerateContent apiKey ("models/" +:+ name) systemInstructionStr parsedParts
      genConfigInput toolsInput safetySettingsStr w.
Proof.
  intros Hp. unfold handleGenerateContent. rewrite Hp.
  assert (strings.HasPrefix ("models/" +:+ name) "models/" = true) as ->
    by (apply HasPrefix_spec; by exists name).
  reflexivity.
Qed.

Lemma handleGenerateContent_name (modelName : string) :
  exists name,
    (modelName = name \/ modelName = "models/" +:+ name)
    /\ forall apiKey systemInstructionStr parsedParts genConfigInput toolsInput
          safetySettingsStr w,
         handleGenerateContent apiKey modelName systemInstructionStr parsedParts
           genConfigInput toolsInput safetySettingsStr w
         = handleGenerateContent apiKey ("models/" +:+ name) systemInstructionStr
             parsedParts genConfigInput toolsInput safetySettingsStr w.
Proof.
  destruct (strings.HasPrefix modelName "models/") eqn:Hp.
  - apply HasPrefix_spec in Hp as [name ->]. exists name. split; [by right|done].
  - exists modelName. split; [by left|]. intros.
    by apply handleGenerateContent_prefix.
Qed.

Lemma qualifiedModelName_spec (modelName : string) :
  exists name,
    qualifiedModelName modelName = "models/" +:+ name
    /\ forall apiKey systemInstructionStr parsedParts genConfigInput toolsInput
          safetySettingsStr w,
         handleGenerateContent apiKey modelName systemInstructionStr parsedParts
           genConfigInput toolsInput safetySettingsStr w
         = handleGenerateContent apiKey ("models/" +:+ name) systemInstructionStr
             parsedParts genConfigInput toolsInput safetySettingsStr w.
Proof.
  unfold qualifiedModelName.
  destruct (strings.HasPrefix modelName "models/") eqn:Hp; cbn [negb].
  - apply HasPrefix_spec in Hp as [name ->]. by exists name.
  - exists modelName. split; [done|]. intros.
    by apply handleGenerateContent_prefix.
Qed.

(** A call without target: what it leaves behind. *)
Lemma makeAPIRequest_printed (apiKey method endpointURL : string)
    (body : option string) (w w2 : World) (r : error + option unit) :
  makeAPIRequest apiKey method endpointURL body None w = (r, w2) ->
  fs w2 = fs w /\ stderr w2 = stderr w
  /\ match r with
     | inl _ => stdout w2 = stdout w
     | inr _ =>
       exists resp responseBody,
         remote w (apiRequest apiKey method endpointURL body) = inr resp
         /\ http.StatusCode resp = 200
         /\ http.RespBody resp = inr responseBody
         /\ stdout w2 = (stdout w ++ [responseBody +:+ nl])%list
     end.
Proof.
  rewrite makeAPIRequest_run.
  destruct (httpc.NewRequest _ _ _) as [err|req]; [by intros [= <- <-]|].
  cbv zeta. destruct (remote w _) as [err|resp] eqn:Hr; [by intros [= <- <-]|].
  destruct (http.RespBody resp) as [err|responseBody] eqn:Hb;
    [by intros [= <- <-]|].
  destruct (Z.eqb_spec (http.StatusCode resp) http.StatusOK) as [E|_];
    cbn [negb]; [|by intros [= <- <-]].
  intros [= <- <-]. split_and!; [done|done|]. by exists resp, responseBody.
Qed.

(** X22. How [handleGenerateContent] ends. It changes no file. Either
    it returns normally: then the request was built and encoded, the
    server answered the POST to the generateContent endpoint of the
    model with status 200 and a body that could be read, and the handler
    has printed exactly that body and a line feed on the output stream
    and nothing on the error stream. Or it exits with status 1: then it
    has printed nothing on the output stream and exactly one line on the
    error stream, which carries the error of the builder if the request
    could not be built, else the error of the encoder if the request
    could not be encoded, else the error of the API call. The message
    that the request lacks contents and system instruction is never
    printed. *)
Theorem handleGenerateContent_outcome
    (apiKey modelName systemInstructionStr : string)
    (parsedParts : list ParsedPart.t)
    (genConfigInput : GenerationConfigInput.t)
    (toolsInput : ToolsInput.t) (safetySettingsStr : string)
    (w w' : World) (r : Z + unit) :
  handleGenerateContent apiKey modelName systemInstructionStr parsedParts
    genConfigInput toolsInput safetySettingsStr w = (r, w') ->
  fs w' = fs w
  /\ exists built w1,
       buildGenerateContentRequest systemInstructionStr parsedParts genConfigInput
         toolsInput safetySettingsStr w = (built, w1)
       /\ match r with
          | inr _ =>
            stderr w' = stderr w
            /\ exists requestPayload jsonData resp responseBody,
                 built = inr requestPayload
                 /\ json_Marshal_GenerateContentRequest requestPayload = inr jsonData
                 /\ remote w1
                      (apiRequest apiKey "POST"
                         ("/" +:+ qualifiedModelName modelName +:+ ":generateContent")
                         (Some jsonData)) = inr resp
                 /\ http.StatusCode resp = 200
                 /\ http.RespBody resp = inr responseBody
                 /\ stdout w' = (stdout w ++ [responseBody +:+ nl])%list
          | inl code =>
            code = 1 /\ stdout w' = stdout w
            /\ exists msg,
                 stderr w' = (stderr w ++ [msg])%list
                 /\ msg <> missingContentsMessage
                 /\ match built with
                    | inl err => msg = "Error building request: " +:+ err +:+ nl
                    | inr requestPayload =>
                      match json_Marshal_GenerateContentRequest requestPayload with
                      | inl err =>
                        msg = "Error marshalling request to JSON: " +:+ err +:+ nl
                      | inr jsonData =>
                        exists err,
                          (makeAPIRequest (T := unit) apiKey "POST"
                             ("/" +:+ qualifiedModelName modelName
                              +:+ ":generateContent")
                             (Some jsonData) None w1).1 = inl err
                          /\ msg = "Error making API request: " +:+ err +:+ nl
                      end
                    end
          end.
Proof.
  destruct (qualifiedModelName_spec modelName) as (name & -> & ->).
  rewrite handleGenerateContent_run.
  pose proof (build_world systemInstructionStr parsedParts genConfigInput
                toolsInput safetySettingsStr w) as Hw.
  pose proof (buildContents_world systemInstructionStr parsedParts w)
    as (Hf & Ho & He & _). rewrite <- Hw in Hf, Ho, He. clear Hw.
  destruct (buildGenerateContentRequest _ _ _ _ _ w) as [[err|requestPayload] w1];
    cbn [snd] in *.
  { intros [= <- <-]. split; [exact Hf|]. eexists _, _. split; [reflexivity|].
    split; [reflexivity|]. split; [exact Ho|].
    eexists. split; [cbn; by rewrite He|]. split; [discriminate|reflexivity]. }
  destruct (json_Marshal_GenerateContentRequest requestPayload) as [err|jsonData] eqn:Ej.
  { intros [= <- <-]. split; [exact Hf|]. eexists _, _. split; [reflexivity|].
    split; [reflexivity|]. split; [exact Ho|].
    eexists. split; [cbn; by rewrite He|]. split; [discriminate|].
    by rewrite Ej. }
  destruct (makeAPIRequest _ _ _ _ _ w1) as [[err|v] w2] eqn:Em;
    pose proof (makeAPIRequest_printed _ _ _ _ _ _ _ Em) as (Hf2 & He2 & Ho2).
  - intros [= <- <-]. split; [cbn; congruence|]. eexists _, _.
    split; [reflexivity|]. split; [reflexivity|]. split; [cbn; congruence|].
    eexists. split; [cbn; by rewrite He2, He|]. split; [discriminate|].
    rewrite Ej. exists err. by rewrite Em.
  - intros [= <- <-]. split; [congruence|]. eexists _, _.
    split; [reflexivity|]. split; [congruence|].
    destruct Ho2 as (resp & responseBody & Hr & Hc & Hb & Hout).
    exists requestPayload, jsonData, resp, responseBody.
    split_and!; try done. by rewrite Hout, Ho.
Qed.

Lemma NewRequest_POST (url : string) (body : option string) (u : url.URL) :
  url_Parse url = inr u ->
  httpc.NewRequest "POST" url body = inr (http.mkRequest "POST" url "" body).
Proof.
  intros Hu. unfold httpc.NewRequest. cbn [String.eqb Ascii.eqb Bool.eqb].
  change (httpc.validMethod "POST") with true. cbn [negb]. by rewrite Hu.
Qed.

(** X23. The request that [handleGenerateContent] sends. The model may
    be named with or without the prefix "models/"; once the request is
    built and encoded, and the address is one that parses, exactly one
    request follows those of the builder: a POST to the generateContent
    endpoint of the model, with the key as the query, the content type
    application/json and the encoded request as the body. *)
Theorem handleGenerateContent_request
    (apiKey name modelName systemInstructionStr : string)
    (parsedParts : list ParsedPart.t)
    (genConfigInput : GenerationConfigInput.t)
    (toolsInput : ToolsInput.t) (safetySettingsStr : string)
    (w w1 : World) (requestPayload : GenerateContentRequest.t)
    (jsonData : string) (u : url.URL) :
  strings.HasPrefix name "models/" = false ->
  modelName = name \/ modelName = "models/" +:+ name ->
  buildGenerateContentRequest systemInstructionStr parsedParts genConfigInput
    toolsInput safetySettingsStr w = (inr requestPayload, w1) ->
  json_Marshal_GenerateContentRequest requestPayload = inr jsonData ->
  url_Parse (generateContentURL apiKey name) = inr u ->
  sent (handleGenerateContent apiKey modelName systemInstructionStr parsedParts
          genConfigInput toolsInput safetySettingsStr w).2
  = (sent w1 ++ [http.mkRequest "POST" (generateContentURL apiKey name)
                   "application/json" (Some jsonData)])%list.
Proof.
  intros Hp Hm Hb Hj Hu.
  assert (handleGenerateContent apiKey modelName systemInstructionStr parsedParts
            genConfigInput toolsInput safetySettingsStr w
          = handleGenerateContent apiKey ("models/" +:+ name) systemInstructionStr
              parsedParts genConfigInput toolsInput safetySettingsStr w) as ->.
  { destruct Hm as [->| ->]; [by apply handleGenerateContent_prefix|reflexivity]. }
  rewrite handleGenerateContent_run, Hb, Hj, makeAPIRequest_run.
  unfold generateContentURL in Hu.
  rewrite (NewRequest_POST _ _ u Hu). cbv zeta.
  change (apiRequest apiKey "POST" _ (Some jsonData))
    with (http.mkRequest "POST" (generateContentURL apiKey name)
            "application/json" (Some jsonData)).
  destruct (remote w1 _) as [err|resp]; [reflexivity|].
  destruct (http.RespBody resp) as [err|responseBody]; [reflexivity|].
  by destruct (negb _).
Qed.

(** The steps of [handleListModels]. *)
Lemma handleListModels_run (apiKey : string) (w : World) :
  handleListModels apiKey w
  = match makeAPIRequest apiKey "GET" "/models" None
            (Some json_Unmarshal_ListModelsResponse) w with
    | (inl err, w1) => (inl 1, add_stderr ("Error listing models: " +:+ err +:+ nl) w1)
    | (inr target, w1) =>
      match json_MarshalIndent_models
              (map processModel
                 (ListModelsResponse.Models (default ListModelsResponse.zero target)))
      with
      | inl err =>
        (inl 1, add_stderr ("Error marshalling processed model list: "
                            +:+ err +:+ nl) w1)
      | inr outputData => (inr tt, add_stdout (outputData +:+ nl) w1)
      end
    end.
Proof.
  unfold handleListModels. run.
  destruct (makeAPIRequest _ _ _ _ _ w) as [[err|target] w1]; cbn [fst snd];
    [reflexivity|].
  rewrite processModels_map. cbn [app].
  by destruct (json_MarshalIndent_models _).
Qed.

(** X24. How [handleListModels] ends. It changes no file and sends at
    most one request, a GET for the list of models with the key as the
    query. Either it returns normally, and then the answer was read
    with status 200, its body decoded to a list of models, and what was
    printed is the encoding of these models, reshaped one by one and in
    order, with a line feed, and nothing on the error stream; or it
    exits with status 1 after exactly one line on the error stream and
    nothing on the output stream. *)
Theorem handleListModels_outcome (apiKey : string) (w w' : World) (r : Z + unit) :
  handleListModels apiKey w = (r, w') ->
  fs w' = fs w
  /\ (sent w' = sent w
      \/ sent w' = (sent w ++ [apiRequest apiKey "GET" "/models" None])%list)
  /\ match r with
     | inr _ =>
       stderr w' = stderr w
       /\ exists resp responseBody response outputData,
            remote w (apiRequest apiKey "GET" "/models" None) = inr resp
            /\ http.StatusCode resp = 200
            /\ http.RespBody resp = inr responseBody
            /\ json_Unmarshal_ListModelsResponse responseBody = inr response
            /\ json_MarshalIndent_models
                 (map processModel (ListModelsResponse.Models response))
               = inr outputData
            /\ stdout w' = (stdout w ++ [outputData +:+ nl])%list
     | inl code =>
       code = 1 /\ stdout w' = stdout w
       /\ exists msg err,
            stderr w' = (stderr w ++ [msg])%list
            /\ (msg = "Error listing models: " +:+ err +:+ nl
                \/ msg = "Error marshalling processed model list: " +:+ err +:+ nl)
     end.
Proof.
  rewrite handleListModels_run, makeAPIRequest_run.
  destruct (httpc.NewRequest _ _ _) as [err|req].
  { intros [= <- <-]. split; [done|]. split; [by left|]. split; [reflexivity|].
    split; [done|]. eexists _, _. split; [reflexivity|]. by left. }
  cbv zeta. destruct (remote w _) as [err|resp] eqn:Er.
  { intros [= <- <-]. split; [done|]. split; [by right|]. split; [reflexivity|].
    split; [done|]. eexists _, _. split; [reflexivity|]. by left. }
  destruct (http.RespBody resp) as [err|responseBody] eqn:Eb.
  { intros [= <- <-]. split; [done|]. split; [by right|]. split; [reflexivity|].
    split; [done|]. eexists _, _. split; [reflexivity|]. by left. }
  destruct (Z.eqb_spec (http.StatusCode resp) http.StatusOK) as [Ec|Ec]; cbn [negb].
  2:{ intros [= <- <-]. split; [done|]. split; [by right|]. split; [reflexivity|].
      split; [done|]. eexists _, _. split; [reflexivity|]. by left. }
  destruct (json_Unmarshal_ListModelsResponse responseBody) as [err|response] eqn:Eu.
  { intros [= <- <-]. split; [done|]. split; [by right|]. split; [reflexivity|].
    split; [done|]. eexists _, _. split; [reflexivity|]. by left. }
  cbn [default from_option].
  destruct (json_MarshalIndent_models _) as [err|outputData] eqn:Em.
  { intros [= <- <-]. split; [done|]. split; [by right|]. split; [reflexivity|].
    split; [done|]. eexists _, _. split; [reflexivity|]. by right. }
  intros [= <- <-]. split; [done|]. split; [by right|]. split; [done|].
  by exists resp, responseBody, response, outputData.
Qed.

End Client.

(** ** The command line *)

Lemma onlyStderr_refl (w : World) : onlyStderr w w.
Proof. by repeat split. Qed.

Lemma onlyStderr_trans (w1 w2 w3 : World) :
  onlyStderr w1 w2 -> onlyStderr w2 w3 -> onlyStderr w1 w3.
Proof. intros (?&?&?&?&?) (?&?&?&?&?). repeat split; congruence. Qed.

Lemma onlyStderr_add (s : string) (w : World) : onlyStderr w (add_stderr s w).
Proof. by repeat split. Qed.

Section MainProperties.
Context {golib : GoLib} {flaglib : FlagLib}.

Lemma prints_Fprint (s : string) : prints (fmt.Fprint_Stderr s).
Proof. intros w. eexists. split; [reflexivity|apply onlyStderr_add]. Qed.

Lemma prints_Fprintln (s : string) : prints (fmt.Fprintln_Stderr s).
Proof. apply prints_Fprint. Qed.

Lemma prints_seq (m n : M Z unit) : prints m -> prints n -> prints (m;; n).
Proof.
  intros Hm Hn w. destruct (Hm w) as (w1 & Hw1 & H1).
  destruct (Hn w1) as (w2 & Hw2 & H2). exists w2. run. rewrite Hw1.
  split; [exact Hw2|]. by eapply onlyStderr_trans.
Qed.

Lemma prints_PrintDefaults (writes : list string) :
  prints (flag.PrintDefaults writes).
Proof.
  induction writes as [|s rest IH]; cbn [flag.PrintDefaults].
  - intros w. exists w. split; [reflexivity|apply onlyStderr_refl].
  - apply prints_seq; [apply prints_Fprint|exact IH].
Qed.

Lemma prints_defaultUsage (name : string) (defaults : list string) :
  prints (flag.defaultUsage name defaults).
Proof.
  apply prints_seq; [apply prints_Fprint|apply prints_PrintDefaults].
Qed.

Lemma prints_generateCmd_Usage (Args0 : string) : prints (generateCmd_Usage Args0).
Proof.
  unfold generateCmd_Usage.
  repeat (apply prints_seq;
          [first [apply prints_Fprint|apply prints_Fprintln
                 |apply prints_PrintDefaults]|]).
  apply prints_Fprint.
Qed.

Lemma prints_printTopLevelHelp (Args0 : string) : prints (printTopLevelHelp Args0).
Proof.
  unfold printTopLevelHelp.
  repeat (apply prints_seq; [first [apply prints_Fprint|apply prints_Fprintln]|]).
  apply prints_Fprint.
Qed.

Lemma exits_Exit {A} (code : Z) : exitsWith code (os.Exit (A := A) code).
Proof. intros w. exists w. split; [reflexivity|apply onlyStderr_refl]. Qed.

Lemma exits_seq {A} (m : M Z unit) (k : M Z A) (code : Z) :
  prints m -> exitsWith code k -> exitsWith code (m;; k).
Proof.
  intros Hm Hk w. destruct (Hm w) as (w1 & Hw1 & H1).
  destruct (Hk w1) as (w2 & Hw2 & H2). exists w2. run. rewrite Hw1.
  split; [exact Hw2|]. by eapply onlyStderr_trans.
Qed.

Lemma exits_bind {A B} (m : M Z A) (k : A -> M Z B) (code : Z) :
  exitsWith code m -> exitsWith code (m ≫= k).
Proof.
  intros Hm w. destruct (Hm w) as (w1 & Hw1 & H1). exists w1. run.
  by rewrite Hw1.
Qed.

Ltac exits :=
  repeat first
    [ apply exits_Exit
    | apply exits_seq;
      [first [apply prints_Fprint | apply prints_Fprintln
             | apply prints_defaultUsage | apply prints_generateCmd_Usage
             | apply prints_printTopLevelHelp | apply prints_PrintDefaults]|]
    | apply exits_bind ].

Lemma onlyStderr_sameFiles (w w' : World) : onlyStderr w w' -> sameFiles w w'.
Proof. intros (_ & Hf & _) p perm data. by rewrite Hf. Qed.

(** The case "set-config" once the flags are parsed, with a key. *)
Lemma main_set_config_parsed (args leftover : list string) (apiKey : string)
    (w : World) :
  setConfigCmd_parse args = Parsed apiKey leftover ->
  apiKey <> "" ->
  main_set_config args w = handleSetConfig apiKey w.
Proof.
  intros Hp Hne. unfold main_set_config. rewrite Hp. cbn [flag.Parse]. run.
  destruct (String.eqb_spec apiKey "") as [E|_]; [done|]. by run.
Qed.

Lemma main_set_config_empty
    (Args0 : string) (args leftover : list string) (w : World) :
  setConfigCmd_parse args = Parsed "" leftover ->
  exists w', main Args0 ("set-config" :: args) w = (inl 1, w') /\ onlyStderr w w'.
Proof.
  intros Hp.
  assert (exitsWith 1
            ((fmt.Fprintln_Stderr (E := Z) "Error: --key is required for set-config";;
              setConfigCmd_Usage;; os.Exit (A := unit) 1);; handleSetConfig ""))
    as H by (unfold setConfigCmd_Usage; exits).
  unfold main. cbn [String.eqb Ascii.eqb Bool.eqb].
  unfold main_set_config. rewrite Hp. exact (H w).
Qed.

(** X25. Set-config refuses an empty key, and stores every other. When
    the value of --key is empty, [main] exits with status 1 having
    written on the error stream only: no directory is created, no file
    written, nothing printed on the output stream, nothing sent. With
    any other key it does what [handleSetConfig] does with that key. *)
Theorem main_set_config_requires_key
    (Args0 apiKey : string) (args leftover : list string) (w : World) :
  setConfigCmd_parse args = Parsed apiKey leftover ->
  if (apiKey =? "")%string
  then exists w', main Args0 ("set-config" :: args) w = (inl 1, w')
                  /\ onlyStderr w w'
  else main Args0 ("set-config" :: args) w = handleSetConfig apiKey w.
Proof.
  intros Hp. destruct (String.eqb_spec apiKey "") as [->|Hne].
  - by apply (main_set_config_empty _ _ leftover).
  - unfold main. cbn [String.eqb Ascii.eqb Bool.eqb].
    by apply (main_set_config_parsed _ leftover).
Qed.

(** The case "generate" once the flags are parsed. *)
Lemma main_generate_parsed (Args0 : string) (args : list string)
    (f : GenerateFlags.t) (rest : list string) (w : World) :
  generateCmd_parse args = Parsed f rest ->
  main_generate Args0 args w
  = if (GenerateFlags.modelName f =? "")%string then
      (fmt.Fprintln_Stderr (E := Z) "Error: --model is required for generate";;
       generateCmd_Usage Args0;; os.Exit (A := unit) 1) w
    else
      match parseInputParts rest with
      | inl err =>
        (fmt.Fprint_Stderr (E := Z) ("Error parsing input parts: " +:+ err +:+ nl);;
         generateCmd_Usage Args0;; os.Exit (A := unit) 1) w
      | inr parsedParts =>
        if (length parsedParts =? 0)%nat
           && (GenerateFlags.systemInstructionStr f =? "")%string then
          (fmt.Fprintln_Stderr (E := Z)
             "Error: At least one input part (text/file) or system-instruction is required for generate.";;
           generateCmd_Usage Args0;; os.Exit (A := unit) 1) w
        else
          match loadAPIKey w with
          | (inl err, w1) =>
            (inl 1, add_stderr ("Error loading API key: " +:+ err
                                +:+ ". Please run 'set-config --key YOUR_KEY'." +:+ nl) w1)
          | (inr currentApiKey, w1) =>
            handleGenerateContent currentApiKey (GenerateFlags.modelName f)
              (GenerateFlags.systemInstructionStr f) parsedParts
              (genConfigInputOf f) (toolsInputOf f)
              (GenerateFlags.safetySettingsStr f) w1
          end
      end.
Proof.
  intros Hp. unfold main_generate. rewrite Hp. cbn [flag.Parse]. run.
  destruct (GenerateFlags.modelName f =? "")%string.
  { destruct (prints_generateCmd_Usage Args0
                (add_stderr ("Error: --model is required for generate" +:+ nl) w))
      as (w1 & Hw1 & _).
    run. unfold fmt.Fprintln_Stderr, fmt.Fprint_Stderr. cbn [fst snd]. run.
    by rewrite Hw1. }
  run. destruct (parseInputParts rest) as [err|parsedParts].
  { destruct (prints_generateCmd_Usage Args0
                (add_stderr ("Error parsing input parts: " +:+ err +:+ nl) w))
      as (w1 & Hw1 & _).
    run. unfold fmt.Fprint_Stderr. cbn [fst snd]. run. by rewrite Hw1. }
  run. destruct ((length parsedParts =? 0)%nat && _).
  { match goal with
    | |- context [fmt.Fprintln_Stderr ?m] =>
      destruct (prints_generateCmd_Usage Args0 (add_stderr (m +:+ nl) w))
        as (w1 & Hw1 & _)
    end.
    run. unfold fmt.Fprintln_Stderr, fmt.Fprint_Stderr. cbn [fst snd]. run.
    by rewrite Hw1. }
  do 3 run. destruct (loadAPIKey w) as [[err|key] w1]; cbn [fst snd]; [|reflexivity].
  do 2 run. reflexivity.
Qed.

(** X26. Generate checks its input before it touches anything. When the
    model name is missing, when the part arguments do not parse, or when
    there is neither a part nor a system instruction, [main] exits with
    status 1 having written on the error stream only: the key is not
    loaded, the configuration directory is not created, and nothing is
    sent. *)
Theorem main_generate_validates
    (Args0 : string) (args : list string) (f : GenerateFlags.t)
    (rest : list string) (w : World) :
  generateCmd_parse args = Parsed f rest ->
  GenerateFlags.modelName f = ""
  \/ isErr (parseInputParts rest) = true
  \/ (rest = [] /\ GenerateFlags.systemInstructionStr f = "") ->
  exists w', main Args0 ("generate" :: args) w = (inl 1, w') /\ onlyStderr w w'.
Proof.
  intros Hp Hbad. unfold main. cbn [String.eqb Ascii.eqb Bool.eqb].
  rewrite (main_generate_parsed _ _ _ _ _ Hp).
  assert (forall m : string,
            exitsWith 1 (fmt.Fprintln_Stderr (E := Z) m;; generateCmd_Usage Args0;;
                         os.Exit (A := unit) 1)) as H1 by (intros m; exits).
  assert (forall m : string,
            exitsWith 1 (fmt.Fprint_Stderr (E := Z) m;; generateCmd_Usage Args0;;
                         os.Exit (A := unit) 1)) as H2 by (intros m; exits).
  destruct (String.eqb_spec (GenerateFlags.modelName f) "") as [Em|Em]; [apply H1|].
  destruct Hbad as [Hbad|[Hbad|[-> Hs]]]; [done| |].
  - destruct (parseInputParts rest) as [err|parts]; [apply H2|discriminate Hbad].
  - cbn. rewrite Hs. cbn. apply H1.
Qed.

Lemma build_not_empty_error
    (systemInstructionStr : string) (parsedParts : list ParsedPart.t)
    (genConfigInput : GenerationConfigInput.t) (toolsInput : ToolsInput.t)
    (safetySettingsStr : string) (w : World) :
  parsedParts <> [] \/ systemInstructionStr <> "" ->
  (buildGenerateContentRequest systemInstructionStr parsedParts genConfigInput
     toolsInput safetySettingsStr w).1 <> inl emptyRequestError.
Proof.
  intros Hin. rewrite build_run.
  destruct (buildContents _ _ w) as [[e|req] w1] eqn:Ec; cbn [fst].
  { apply buildContents_error in Ec; [congruence|exact Hin]. }
  destruct (populateGenerationConfig genConfigInput w1) as [[e|[genCfg ch]] w2] eqn:Eg;
    cbn [fst].
  { apply populateGenerationConfig_error in Eg. congruence. }
  cbv zeta. destruct (negb _); [|discriminate].
  destruct (populateSafetySettings _ _) as [e|st] eqn:Es; [|discriminate].
  apply populateSafetySettings_error in Es. cbn. congruence.
Qed.

(** X27. What generate does with valid input. With a model name, part
    arguments that parse, and a part or a system instruction, [main]
    loads the key and, if there is one, calls [handleGenerateContent]
    with it and with the values of the flags as they were parsed; the
    key is not empty, and the builder's own check for missing input
    cannot fail in this call. If the key cannot be loaded, [main] exits
    with status 1 and nothing is sent. *)
Theorem main_generate_run
    (Args0 : string) (args : list string) (f : GenerateFlags.t)
    (rest : list string) (parsedParts : list ParsedPart.t) (w : World) :
  generateCmd_parse args = Parsed f rest ->
  GenerateFlags.modelName f <> "" ->
  parseInputParts rest = inr parsedParts ->
  parsedParts <> [] \/ GenerateFlags.systemInstructionStr f <> "" ->
  match loadAPIKey w with
  | (inr currentApiKey, w1) =>
    main Args0 ("generate" :: args) w
    = handleGenerateContent currentApiKey (GenerateFlags.modelName f)
        (GenerateFlags.systemInstructionStr f) parsedParts
        (genConfigInputOf f) (toolsInputOf f) (GenerateFlags.safetySettingsStr f) w1
    /\ currentApiKey <> ""
    /\ (buildGenerateContentRequest (GenerateFlags.systemInstructionStr f)
          parsedParts (genConfigInputOf f) (toolsInputOf f)
          (GenerateFlags.safetySettingsStr f) w1).1 <> inl emptyRequestError
  | (inl err, w1) =>
    exists w', main Args0 ("generate" :: args) w = (inl 1, w')
               /\ sent w' = sent w /\ stdout w' = stdout w /\ sameFiles w w'
  end.
Proof.
  intros Hp Hm Hparts Hin. unfold main. cbn [String.eqb Ascii.eqb Bool.eqb].
  rewrite (main_generate_parsed _ _ _ _ _ Hp), Hparts.
  destruct (String.eqb_spec (GenerateFlags.modelName f) "") as [Em|_]; [done|].
  assert ((length parsedParts =? 0)%nat
          && (GenerateFlags.systemInstructionStr f =? "")%string = false) as ->.
  { destruct Hin as [Hin|Hin].
    - by destruct parsedParts.
    - destruct (String.eqb_spec (GenerateFlags.systemInstructionStr f) "");
        [done|apply andb_false_r]. }
  pose proof (loadAPIKey_world w) as (Hf & Ho & He & Hs).
  destruct (loadAPIKey w) as [[err|key] w1] eqn:El; cbn [snd] in *.
  - eexists. split; [reflexivity|]. by split_and!.
  - split; [reflexivity|]. split; [|by apply build_not_empty_error].
    assert ((loadAPIKey w).1 = inr key) as Hk by (by rewrite El).
    apply loadAPIKey_success_aux in Hk. exact Hk.
Qed.

Lemma exits_quiet {A} (code : Z) (m : M Z A) (w : World) :
  exitsWith code m ->
  exists c w', m w = (inl c, w') /\ sent w' = sent w /\ stdout w' = stdout w
               /\ sameFiles w w'.
Proof.
  intros Hm. destruct (Hm w) as (w' & Hw & Ho). exists code, w'.
  split; [exact Hw|]. pose proof (onlyStderr_sameFiles _ _ Ho).
  destruct Ho as (_ & _ & _ & ? & ?). by split_and!.
Qed.

Lemma exits_Parse {A} (usage : M Z unit) (r : parseResult A) :
  prints usage ->
  match r with
  | Parsed _ _ => True
  | HelpRequested => exitsWith 0 (flag.Parse usage r)
  | ParseError _ => exitsWith 2 (flag.Parse usage r)
  end.
Proof.
  intros Hu. destruct r as [flags args| |msg]; [exact I|..]; cbn [flag.Parse].
  - apply exits_seq; [exact Hu|apply exits_Exit].
  - apply exits_seq; [apply prints_Fprintln|].
    apply exits_seq; [exact Hu|apply exits_Exit].
Qed.

(** The case "list-models" once the flags are parsed. *)
Lemma main_list_models_parsed (args leftover : list string) (w : World) :
  listModelsCmd_parse args = Parsed tt leftover ->
  main_list_models args w
  = match loadAPIKey w with
    | (inl err, w1) =>
      (inl 1, add_stderr ("Error loading API key: " +:+ err
                          +:+ ". Please run 'set-config --key YOUR_KEY'." +:+ nl) w1)
    | (inr currentApiKey, w1) => handleListModels currentApiKey w1
    end.
Proof.
  intros Hp. unfold main_list_models. rewrite Hp. cbn [flag.Parse]. do 3 run.
  destruct (loadAPIKey w) as [[err|key] w1]; cbn [fst snd]; [|reflexivity].
  do 2 run. reflexivity.
Qed.

(** X28. Without a stored key nothing is sent. If [loadAPIKey] fails in
    a world, then generate and list-models, whatever their arguments,
    end in an exit, with nothing sent, nothing printed on the output
    stream and no file created or changed. *)
Theorem main_needs_key
    (Args0 command : string) (args : list string) (w : World) (err : error) :
  command = "generate" \/ command = "list-models" ->
  (loadAPIKey w).1 = inl err ->
  exists code w',
    main Args0 (command :: args) w = (inl code, w')
    /\ sent w' = sent w /\ stdout w' = stdout w /\ sameFiles w w'.
Proof.
  intros Hc Hl. pose proof (loadAPIKey_world w) as (Hf & Ho & He & Hs).
  assert (forall m : string,
            exitsWith 1 (fmt.Fprintln_Stderr (E := Z) m;; generateCmd_Usage Args0;;
                         os.Exit (A := unit) 1)) as H1 by (intros m; exits).
  assert (forall m : string,
            exitsWith 1 (fmt.Fprint_Stderr (E := Z) m;; generateCmd_Usage Args0;;
                         os.Exit (A := unit) 1)) as H2 by (intros m; exits).
  destruct Hc as [-> | ->]; unfold main; cbn [String.eqb Ascii.eqb Bool.eqb].
  - destruct (generateCmd_parse args) as [f rest| |msg] eqn:Hp.
    + rewrite (main_generate_parsed _ _ _ _ _ Hp).
      destruct (GenerateFlags.modelName f =? "")%string;
        [apply (exits_quiet 1), H1|].
      destruct (parseInputParts rest) as [e|parts]; [apply (exits_quiet 1), H2|].
      destruct (_ && _); [apply (exits_quiet 1), H1|].
      destruct (loadAPIKey w) as [[e|key] w1]; [|discriminate Hl].
      eexists _, _. split; [reflexivity|]. by split_and!.
    + unfold main_generate. rewrite Hp. apply (exits_quiet 0), exits_bind.
      apply (exits_Parse _ HelpRequested), prints_generateCmd_Usage.
    + unfold main_generate. rewrite Hp. apply (exits_quiet 2), exits_bind.
      apply (exits_Parse _ (ParseError msg)), prints_generateCmd_Usage.
  - destruct (listModelsCmd_parse args) as [[] rest| |msg] eqn:Hp.
    + rewrite (main_list_models_parsed _ _ _ Hp).
      destruct (loadAPIKey w) as [[e|key] w1]; [|discriminate Hl].
      eexists _, _. split; [reflexivity|]. by split_and!.
    + unfold main_list_models. rewrite Hp. apply (exits_quiet 0), exits_bind.
      apply (exits_Parse _ HelpRequested), prints_defaultUsage.
    + unfold main_list_models. rewrite Hp. apply (exits_quiet 2), exits_bind.
      apply (exits_Parse _ (ParseError msg)), prints_defaultUsage.
Qed.

(** X29. The key that set-config stores is the key the other commands
    use. After [main] has run set-config with a key that the codec
    gives back unchanged and has returned normally, generate with valid
    input calls [handleGenerateContent] with that key, and list-models
    calls [handleListModels] with it; loading the key changes nothing
    on the way. *)
Theorem set_config_then_use
    (Args0 apiKey : string) (args leftover : list string) (w w1 : World) :
  setConfigCmd_parse args = Parsed apiKey leftover ->
  (forall data, json_MarshalIndent_Config (Config.mk apiKey) = inr data ->
                json_Unmarshal_Config data = inr (Config.mk apiKey)) ->
  main Args0 ("set-config" :: args) w = (inr tt, w1) ->
  (forall args' f rest parsedParts,
     generateCmd_parse args' = Parsed f rest ->
     GenerateFlags.modelName f <> "" ->
     parseInputParts rest = inr parsedParts ->
     parsedParts <> [] \/ GenerateFlags.systemInstructionStr f <> "" ->
     main Args0 ("generate" :: args') w1
     = handleGenerateContent apiKey (GenerateFlags.modelName f)
         (GenerateFlags.systemInstructionStr f) parsedParts
         (genConfigInputOf f) (toolsInputOf f) (GenerateFlags.safetySettingsStr f) w1)
  /\ (forall args' leftover',
        listModelsCmd_parse args' = Parsed tt leftover' ->
        main Args0 ("list-models" :: args') w1 = handleListModels apiKey w1).
Proof.
  intros Hp Hcodec Hmain.
  assert (apiKey <> "") as Hne.
  { intros ->. destruct (main_set_config_empty Args0 _ _ w Hp) as (w' & Hw & _).
    rewrite Hw in Hmain. discriminate Hmain. }
  assert (saveAPIKey apiKey w = (inr tt, w1)) as Hsave.
  { revert Hmain. unfold main. cbn [String.eqb Ascii.eqb Bool.eqb].
    rewrite (main_set_config_parsed _ _ _ _ Hp Hne).
    unfold handleSetConfig. run.
    destruct (saveAPIKey apiKey w) as [[e|[]] w']; cbn [fst snd].
    - run. unfold fmt.Fprint_Stderr at 1. cbn [fst snd]. discriminate.
    - by intros [= <-]. }
  pose proof (loadAPIKey_after_save _ _ _ Hsave Hne Hcodec) as Hload.
  split.
  - intros args' f rest parsedParts Hp' Hm Hparts Hin.
    unfold main. cbn [String.eqb Ascii.eqb Bool.eqb].
    rewrite (main_generate_parsed _ _ _ _ _ Hp'), Hparts, Hload.
    destruct (String.eqb_spec (GenerateFlags.modelName f) "") as [Em|_]; [done|].
    assert ((length parsedParts =? 0)%nat
            && (GenerateFlags.systemInstructionStr f =? "")%string = false) as ->.
    { destruct Hin as [Hin|Hin].
      - by destruct parsedParts.
      - destruct (String.eqb_spec (GenerateFlags.systemInstructionStr f) "");
          [done|apply andb_false_r]. }
    reflexivity.
  - intros args' leftover' Hp'. unfold main. cbn [String.eqb Ascii.eqb Bool.eqb].
    by rewrite (main_list_models_parsed _ _ _ Hp'), Hload.
Qed.

Lemma handleSetConfig_code (apiKey : string) (w w' : World) (code : Z) :
  handleSetConfig apiKey w = (inl code, w') -> code = 1.
Proof.
  unfold handleSetConfig. run.
  destruct (saveAPIKey apiKey w) as [[e|[]] w1]; cbn [fst snd]; [|discriminate].
  run. unfold fmt.Fprint_Stderr at 1. cbn [fst snd]. by intros [= <- _].
Qed.

Lemma handleGenerateContent_code
    (apiKey modelName systemInstructionStr : string)
    (parsedParts : list ParsedPart.t)
    (genConfigInput : GenerationConfigInput.t)
    (toolsInput : ToolsInput.t) (safetySettingsStr : string)
    (w w' : World) (code : Z) :
  handleGenerateContent apiKey modelName systemInstructionStr parsedParts
    genConfigInput toolsInput safetySettingsStr w = (inl code, w') -> code = 1.
Proof.
  destruct (handleGenerateContent_name modelName) as (name & _ & ->).
  rewrite handleGenerateContent_run.
  destruct (buildGenerateContentRequest _ _ _ _ _ w) as [[err|requestPayload] w1];
    [by intros [= <- _]|].
  destruct (json_Marshal_GenerateContentRequest requestPayload) as [err|jsonData];
    [by intros [= <- _]|].
  destruct (makeAPIRequest _ _ _ _ _ w1) as [[err|v] w2]; [|discriminate].
  by intros [= <- _].
Qed.

Lemma handleListModels_code (apiKey : string) (w w' : World) (code : Z) :
  handleListModels apiKey w = (inl code, w') -> code = 1.
Proof.
  rewrite handleListModels_run.
  destruct (makeAPIRequest _ _ _ _ _ w) as [[err|target] w1]; [by intros [= <- _]|].
  destruct (json_MarshalIndent_models _); [|discriminate]. by intros [= <- _].
Qed.

Lemma printed_app (l1 l2 : list string) (w : World) :
  printed l2 (printed l1 w) = printed (l1 ++ l2) w.
Proof. unfold printed. cbn. by rewrite app_assoc. Qed.

Lemma printed_nil (w : World) : printed [] w = w.
Proof. destruct w. unfold printed. cbn. by rewrite app_nil_r. Qed.

Lemma writes_Fprint (s : string) : writes (fmt.Fprint_Stderr s) [s].
Proof. intros w. reflexivity. Qed.

Lemma writes_cons (s : string) (m : M Z unit) (lines : list string) :
  writes m lines -> writes (fmt.Fprint_Stderr s;; m) (s :: lines).
Proof.
  intros Hm w. run. unfold fmt.Fprint_Stderr at 1.
  rewrite Hm. change (add_stderr s w) with (printed [s] w).
  by rewrite printed_app.
Qed.

Lemma writes_app (m n : M Z unit) (l1 l2 : list string) :
  writes m l1 -> writes n l2 -> writes (m;; n) (l1 ++ l2).
Proof. intros Hm Hn w. run. by rewrite Hm, Hn, printed_app. Qed.

Lemma writes_PrintDefaults (defaults : list string) :
  writes (flag.PrintDefaults defaults) defaults.
Proof.
  induction defaults as [|s rest IH]; cbn [flag.PrintDefaults].
  - intros w. by rewrite printed_nil.
  - by apply writes_cons.
Qed.

Lemma writes_setConfigCmd_Usage (Args0 : string) :
  writes setConfigCmd_Usage (usageText Args0 "set-config").
Proof. apply writes_cons, writes_PrintDefaults. Qed.

Lemma writes_listModelsCmd_Usage (Args0 : string) :
  writes listModelsCmd_Usage (usageText Args0 "list-models").
Proof. apply writes_cons, writes_PrintDefaults. Qed.

Lemma writes_generateCmd_Usage (Args0 : string) :
  writes (generateCmd_Usage Args0) (usageText Args0 "generate").
Proof.
  unfold generateCmd_Usage, fmt.Fprintln_Stderr.
  do 2 apply writes_cons.
  apply writes_app; [apply writes_PrintDefaults|].
  do 7 apply writes_cons. apply writes_Fprint.
Qed.

Lemma writes_printTopLevelHelp (Args0 : string) :
  writes (printTopLevelHelp Args0) (topLevelHelp Args0).
Proof.
  unfold printTopLevelHelp, fmt.Fprintln_Stderr.
  do 5 apply writes_cons. apply writes_Fprint.
Qed.

Lemma writes_Exit {A} (m : M Z unit) (lines : list string) (code : Z) (w : World) :
  writes m lines -> (m;; os.Exit (A := A) code) w = (inl code, printed lines w).
Proof. intros Hm. run. by rewrite Hm. Qed.

(** [Parse] on a request for help and on an error in the flags. *)
Lemma Parse_exits {A B} (usage : M Z unit) (lines : list string)
    (r : parseResult A) (k : A * list string -> M Z B) (w : World) :
  writes usage lines ->
  match r with
  | Parsed _ _ => True
  | HelpRequested => (flag.Parse usage r ≫= k) w = (inl 0, printed lines w)
  | ParseError msg =>
    (flag.Parse usage r ≫= k) w = (inl 2, printed ((msg +:+ nl) :: lines) w)
  end.
Proof.
  intros Hu. destruct r as [flags args| |msg]; [exact I|..]; cbn [flag.Parse].
  - rewrite bind_run. by rewrite (writes_Exit usage lines 0 w Hu).
  - assert ((fmt.Fprintln_Stderr msg;; usage;; os.Exit (A := A * list string) 2) w
            = (inl 2, printed ((msg +:+ nl) :: lines) w)) as Hm.
    { rewrite bind_run. unfold fmt.Fprintln_Stderr, fmt.Fprint_Stderr.
      rewrite (writes_Exit usage lines 2 _ Hu).
      change (add_stderr (msg +:+ nl) w) with (printed [msg +:+ nl] w).
      by rewrite printed_app. }
    rewrite bind_run. by rewrite Hm.
Qed.

(** X30. The exit status of [main], and what it has printed by then.
    Without a command, or with a word that is not set-config, generate
    or list-models, [main] prints the help on the error stream, line by
    line, changes nothing else and exits with status 1. When the flags
    of a command ask for help, [main] prints the usage text of the
    command on the error stream, changes nothing else and exits with
    status 0. When package flag finds an error in the flags, [main]
    prints the error and the usage text on the error stream, changes
    nothing else and exits with status 2. When the flags parse, every
    exit is with status 1. *)
Theorem main_exit_status (Args0 : string) (args : list string) (w : World) :
  match args with
  | [] => main Args0 args w = (inl 1, printed (topLevelHelp Args0) w)
  | command :: rest =>
    match commandFlags command rest with
    | None => main Args0 args w = (inl 1, printed (topLevelHelp Args0) w)
    | Some FlagsHelp =>
      main Args0 args w = (inl 0, printed (usageText Args0 command) w)
    | Some (FlagsError msg) =>
      main Args0 args w
      = (inl 2, printed ((msg +:+ nl) :: usageText Args0 command) w)
    | Some FlagsParsed =>
      forall code w', main Args0 args w = (inl code, w') -> code = 1
    end
  end.
Proof.
  destruct args as [|command rest];
    [apply writes_Exit, writes_printTopLevelHelp|].
  unfold commandFlags, main.
  destruct (String.eqb_spec command "set-config") as [->|_].
  { pose proof (Parse_exits setConfigCmd_Usage _ (setConfigCmd_parse rest)
                  (fun '(apiKey, _) =>
                     (if (apiKey =? "")%string then
                        fmt.Fprintln_Stderr "Error: --key is required for set-config";;
                        setConfigCmd_Usage;; os.Exit 1
                      else mret tt);;
                     handleSetConfig apiKey) w
                  (writes_setConfigCmd_Usage Args0)) as Hp.
    destruct (setConfigCmd_parse rest) as [apiKey leftover| |msg] eqn:Ep;
      cbn [outcomeOf]; [|unfold main_set_config; rewrite Ep; exact Hp..].
    intros code w'. destruct (String.eqb_spec apiKey "") as [->|Hne].
    - destruct (main_set_config_empty Args0 _ _ w Ep) as (w2 & Hw2 & _).
      unfold main in Hw2. cbn [String.eqb Ascii.eqb Bool.eqb] in Hw2.
      rewrite Hw2. by intros [= <- _].
    - rewrite (main_set_config_parsed _ _ _ _ Ep Hne).
      apply handleSetConfig_code. }
  destruct (String.eqb_spec command "generate") as [->|_].
  { destruct (generateCmd_parse rest) as [f parts_args| |msg] eqn:Ep;
      cbn [outcomeOf].
    - intros code w'. rewrite (main_generate_parsed _ _ _ _ _ Ep).
      assert (forall m : string,
                exitsWith 1 (fmt.Fprintln_Stderr (E := Z) m;;
                             generateCmd_Usage Args0;; os.Exit (A := unit) 1))
        as H1 by (intros m; exits).
      assert (forall m : string,
                exitsWith 1 (fmt.Fprint_Stderr (E := Z) m;;
                             generateCmd_Usage Args0;; os.Exit (A := unit) 1))
        as H2 by (intros m; exits).
      destruct (GenerateFlags.modelName f =? "")%string.
      { destruct (H1 "Error: --model is required for generate" w) as (w2 & -> & _).
        by intros [= <- _]. }
      destruct (parseInputParts parts_args) as [e|parts].
      { destruct (H2 ("Error parsing input parts: " +:+ e +:+ nl) w) as (w2 & -> & _).
        by intros [= <- _]. }
      destruct (_ && _).
      { match goal with
        | |- context [fmt.Fprintln_Stderr ?m] => destruct (H1 m w) as (w2 & -> & _)
        end. by intros [= <- _]. }
      destruct (loadAPIKey w) as [[e|key] w1]; [by intros [= <- _]|].
      apply handleGenerateContent_code.
    - unfold main_generate. rewrite Ep.
      exact (Parse_exits (generateCmd_Usage Args0) _ HelpRequested _ w
               (writes_generateCmd_Usage Args0)).
    - unfold main_generate. rewrite Ep.
      exact (Parse_exits (generateCmd_Usage Args0) _ (ParseError msg) _ w
               (writes_generateCmd_Usage Args0)). }
  destruct (String.eqb_spec command "list-models") as [->|_].
  { destruct (listModelsCmd_parse rest) as [[] leftover| |msg] eqn:Ep;
      cbn [outcomeOf].
    - intros code w'. rewrite (main_list_models_parsed _ _ _ Ep).
      destruct (loadAPIKey w) as [[e|key] w1]; [by intros [= <- _]|].
      apply handleListModels_code.
    - unfold main_list_models. rewrite Ep.
      exact (Parse_exits listModelsCmd_Usage _ HelpRequested _ w
               (writes_listModelsCmd_Usage Args0)).
    - unfold main_list_models. rewrite Ep.
      exact (Parse_exits listModelsCmd_Usage _ (ParseError msg) _ w
               (writes_listModelsCmd_Usage Args0)). }
  apply writes_Exit, writes_printTopLevelHelp.
Qed.

End MainProperties.

(** ** The further properties on the demo world *)


Lemma loadAPIKey_reads_only_witness :
  sameFiles demo.configured (loadAPIKey (golib := demo.lib) demo.configured).2
  /\ silent demo.configured (loadAPIKey (golib := demo.lib) demo.configured).2.
Proof.
  apply (loadAPIKey_reads_only (golib := demo.lib) demo.configured
           (loadAPIKey (golib := demo.lib) demo.configured).1).
  vm_compute. reflexivity.
Defined.

Lemma saveAPIKey_effects_witness :
  stderr demo.configured = stderr demo.world
  /\ sent demo.configured = sent demo.world
  /\ exists configPath data,
       json_MarshalIndent_Config (GoLib := demo.lib) (Config.mk "AIzaSy-k3y") = inr data
       /\ stdout demo.configured
          = (stdout demo.world ++ ["API key saved to " +:+ configPath +:+ nl])%list
       /\ fs demo.configured !! configPath
          = Some (File (match fs demo.world !! configPath with
                        | Some (File perm _) => perm
                        | _ => 0x180
                        end) data)
       /\ forall p, p <> configPath ->
            forall perm d,
              fs demo.configured !! p = Some (File perm d)
              <-> fs demo.world !! p = Some (File perm d).
Proof.
  apply (saveAPIKey_effects (golib := demo.lib) "AIzaSy-k3y" demo.world
           demo.configured (inr tt)).
  vm_compute. reflexivity.
Defined.

Lemma saveAPIKey_overwrites_witness :
  exists w2,
    saveAPIKey (golib := demo.lib) "second-key" demo.configured = (inr tt, w2)
    /\ (loadAPIKey (golib := demo.lib) w2).1 = inr "second-key".
Proof.
  apply (saveAPIKey_overwrites (golib := demo.lib) "AIzaSy-k3y" "second-key"
           demo.world demo.configured
           (json.MarshalIndent_Config "second-key")).
  - vm_compute. reflexivity.
  - reflexivity.
  - vm_compute. reflexivity.
  - discriminate.
Defined.

Lemma handleSetConfig_outcome_witness :
  sent demo.configured = sent demo.world
  /\ saveAPIKey (golib := demo.lib) "AIzaSy-k3y" demo.world = (inr tt, demo.configured)
  /\ stderr demo.configured = stderr demo.world.
Proof.
  apply (handleSetConfig_outcome (golib := demo.lib) "AIzaSy-k3y" demo.world
           demo.configured (inr tt)).
  vm_compute. reflexivity.
Defined.

Lemma save_then_load_valid_utf8_witness :
  (loadAPIKey (golib := demo.lib) demo.configured).1 = inr "AIzaSy-k3y".
Proof.
  apply (save_then_load_valid_utf8 (golib := demo.lib) "AIzaSy-k3y" demo.world).
  - split; reflexivity.
  - vm_compute. reflexivity.
  - discriminate.
  - vm_compute. reflexivity.
Defined.

Lemma readURLAsBase64_success_witness :
  exists resp data,
    (readURLAsBase64 (golib := demo.lib) "https://example.com/cat.png" demo.world).2
    = add_sent (http.mkRequest "GET" "https://example.com/cat.png" "" None) demo.world
    /\ remote demo.world (http.mkRequest "GET" "https://example.com/cat.png" "" None)
       = inr resp
    /\ http.StatusCode resp = 200
    /\ http.RespBody resp = inr data
    /\ base64.DecodeString "UE5H" = inr data
    /\ (specificType (http.RespContentType resp) ->
        "image/png" = http.RespContentType resp)
    /\ (http_DetectContentType (GoLib := demo.lib) data <> "" -> "image/png" <> "").
Proof.
  apply (readURLAsBase64_success (golib := demo.lib) "https://example.com/cat.png"
           demo.world).
  vm_compute. reflexivity.
Defined.

Lemma parseDataURI_header_check_witness :
  parseDataURI (golib := sample.lib) "data:text/plain,hello"
  <> inl "invalid data URI format: must start with 'data:'".
Proof.
  apply (parseDataURI_header_check (golib := sample.lib) "data:text/plain,hello").
  reflexivity.
Defined.

Lemma build_request_shape_witness :
  let req :=
    GenerateContentRequest.mk
      (Some (SystemInstruction.mk [TextPart.mk "be brief"]))
      [Content.mk "" [Part.mk (Some "hello") None;
                      Part.mk None (Some (InlinePart.mk "text/plain" "aGVsbG8="))]]
      [] [] None in
  GenerateContentRequest.SystemInstruction req
  = Some (SystemInstruction.mk [TextPart.mk "be brief"])
  /\ (exists apiParts,
        GenerateContentRequest.Contents req = [Content.mk "" apiParts]
        /\ Forall2 partOf
             [ParsedPart.mk "text" "hello"; ParsedPart.mk "file" "@/tmp/a.txt"]
             apiParts)
  /\ (GenerateContentRequest.Contents req <> []
      \/ GenerateContentRequest.SystemInstruction req <> None).
Proof.
  apply (build_request_shape (golib := sample.lib) "be brief"
           [ParsedPart.mk "text" "hello"; ParsedPart.mk "file" "@/tmp/a.txt"]
           sample.genUnset sample.toolsOff "" sample.world sample.world).
  vm_compute. reflexivity.
Defined.

Lemma build_tools_witness :
  let req :=
    GenerateContentRequest.mk None
      [Content.mk "" [Part.mk (Some "hello") None]]
      [Tool.mk None (Some ∅) None;
       Tool.mk None None
         (Some (GoogleSearchRetrievalConfig.mk
                  (Some (DynamicRetrievalConfig.mk "MODE_DYNAMIC" None))))]
      [] None in
  let tools := GenerateContentRequest.Tools req in
  length tools = 2%nat
  /\ Forall (fun t => fieldsSet t = 1%nat) tools
  /\ (false = true ->
      exists t, tools !! 0%nat = Some t /\ Tool.URLContext t = Some ∅)
  /\ (true = true ->
      exists t, tools !! 0%nat = Some t /\ Tool.GoogleSearch t = Some ∅)
  /\ exists g, last tools = Some (Tool.mk None None (Some g))
       /\ GoogleSearchRetrievalConfig.DynamicRetrievalConfig g
          = Some (DynamicRetrievalConfig.mk "MODE_DYNAMIC" None).
Proof.
  apply (build_tools (golib := sample.lib) ""
           [ParsedPart.mk "text" "hello"] sample.genUnset
           (ToolsInput.mk false true true "MODE_DYNAMIC" sample.minusOne) ""
           sample.world sample.world).
  vm_compute. reflexivity.
Defined.

Lemma build_failures_witness :
  ((safetyFormatError "BAD_PAIR" = emptyRequestError
    /\ [ParsedPart.mk "text" "hello"] = [] /\ "" = "")
   \/ hasPrefix (safetyFormatError "BAD_PAIR") "failed to process file argument '"
   \/ hasPrefix (safetyFormatError "BAD_PAIR") "failed to read response-schema: "
   \/ hasPrefix (safetyFormatError "BAD_PAIR") "invalid safety setting ")
  /\ forall t, safetyFormatError "BAD_PAIR" <> unknownPartTypeError t.
Proof.
  apply (build_failures (golib := sample.lib) ["text"; "hello"] ""
           [ParsedPart.mk "text" "hello"] sample.genUnset sample.toolsOff
           "BAD_PAIR" sample.world).
  - reflexivity.
  - vm_compute. reflexivity.
Defined.

Lemma makeAPIRequest_OK_witness :
  let '(r, w') :=
    makeAPIRequest (golib := demo.lib) (T := unit)
      "k3y" "POST" "/models/m:generateContent" (Some "{}") None demo.world in
  r = inr None /\ stdout w' = (stdout demo.world ++ ["{}" +:+ nl])%list.
Proof.
  exact (makeAPIRequest_OK (golib := demo.lib) (T := unit)
           "k3y" "POST" "/models/m:generateContent" (Some "{}") None demo.world
           _ _ _ eq_refl eq_refl eq_refl eq_refl).
Defined.

Lemma handleGenerateContent_outcome_witness :
  let w' :=
    (handleGenerateContent (golib := demo.lib) "k3y" "gemini-2.5-pro" ""
       [ParsedPart.mk "text" "hello"] sample.genUnset sample.toolsOff ""
       demo.world).2 in
  fs w' = fs demo.world
  /\ exists built w1,
       buildGenerateContentRequest (golib := demo.lib) "" [ParsedPart.mk "text" "hello"]
         sample.genUnset sample.toolsOff "" demo.world = (built, w1)
       /\ stderr w' = stderr demo.world
       /\ exists requestPayload jsonData resp responseBody,
            built = inr requestPayload
            /\ json_Marshal_GenerateContentRequest (GoLib := demo.lib) requestPayload
               = inr jsonData
            /\ remote w1
                 (apiRequest "k3y" "POST"
                    ("/" +:+ qualifiedModelName "gemini-2.5-pro" +:+ ":generateContent")
                    (Some jsonData)) = inr resp
            /\ http.StatusCode resp = 200
            /\ http.RespBody resp = inr responseBody
            /\ stdout w' = (stdout demo.world ++ [responseBody +:+ nl])%list.
Proof.
  apply (handleGenerateContent_outcome (golib := demo.lib) "k3y" "gemini-2.5-pro" ""
           [ParsedPart.mk "text" "hello"] sample.genUnset sample.toolsOff ""
           demo.world _ (inr tt)).
  vm_compute. reflexivity.
Defined.

Lemma handleGenerateContent_request_witness :
  sent (handleGenerateContent (golib := demo.lib) "k3y" "gemini-2.5-pro" ""
          [ParsedPart.mk "text" "hello"] sample.genUnset sample.toolsOff ""
          demo.world).2
  = (sent demo.world
     ++ [http.mkRequest "POST" (generateContentURL "k3y" "gemini-2.5-pro")
           "application/json" (Some "{}")])%list.
Proof.
  apply (handleGenerateContent_request (golib := demo.lib) "k3y" "gemini-2.5-pro"
           "gemini-2.5-pro" "" [ParsedPart.mk "text" "hello"] sample.genUnset
           sample.toolsOff "" demo.world demo.world
           (GenerateContentRequest.mk None
              [Content.mk "" [Part.mk (Some "hello") None]] [] [] None)
           "{}" (url.mkURL "/v1beta/models/gemini-2.5-pro:generateContent")).
  - reflexivity.
  - by left.
  - vm_compute. reflexivity.
  - reflexivity.
  - vm_compute. reflexivity.
Defined.

Lemma handleListModels_outcome_witness :
  let w' := (handleListModels (golib := demo.lib) "k3y" demo.world).2 in
  fs w' = fs demo.world
  /\ (sent w' = sent demo.world
      \/ sent w' = (sent demo.world ++ [apiRequest "k3y" "GET" "/models" None])%list)
  /\ stderr w' = stderr demo.world
  /\ exists resp responseBody response outputData,
       remote demo.world (apiRequest "k3y" "GET" "/models" None) = inr resp
       /\ http.StatusCode resp = 200
       /\ http.RespBody resp = inr responseBody
       /\ json_Unmarshal_ListModelsResponse (GoLib := demo.lib) responseBody
          = inr response
       /\ json_MarshalIndent_models (GoLib := demo.lib)
            (map (processModel (golib := demo.lib)) (ListModelsResponse.Models response))
          = inr outputData
       /\ stdout w' = (stdout demo.world ++ [outputData +:+ nl])%list.
Proof.
  apply (handleListModels_outcome (golib := demo.lib) "k3y" demo.world _ (inr tt)).
  vm_compute. reflexivity.
Defined.

Lemma main_set_config_requires_key_witness :
  exists w',
    main (golib := demo.lib) (flaglib := demo.flags) "gemini-cli"
      ["set-config"] demo.world = (inl 1, w')
    /\ onlyStderr demo.world w'.
Proof.
  apply (main_set_config_requires_key (golib := demo.lib) (flaglib := demo.flags)
           "gemini-cli" "" [] [] demo.world).
  reflexivity.
Defined.

Lemma main_generate_validates_witness :
  exists w',
    main (golib := demo.lib) (flaglib := demo.flags) "gemini-cli"
      ["generate"; "--model"; "gemini-2.5-pro"; "text"] demo.configured = (inl 1, w')
    /\ onlyStderr demo.configured w'.
Proof.
  apply (main_generate_validates (golib := demo.lib) (flaglib := demo.flags)
           "gemini-cli" ["--model"; "gemini-2.5-pro"; "text"]
           (demo.flagsOf "gemini-2.5-pro" "") ["text"] demo.configured).
  - reflexivity.
  - right. left. reflexivity.
Defined.

Lemma main_generate_run_witness :
  main (golib := demo.lib) (flaglib := demo.flags) "gemini-cli"
    ["generate"; "--model"; "gemini-2.5-pro"; "text"; "hello"] demo.configured
  = handleGenerateContent (golib := demo.lib) "AIzaSy-k3y" "gemini-2.5-pro" ""
      [ParsedPart.mk "text" "hello"] sample.genUnset sample.toolsOff ""
      demo.configured
  /\ "AIzaSy-k3y" <> ""
  /\ (buildGenerateContentRequest (golib := demo.lib) ""
        [ParsedPart.mk "text" "hello"] sample.genUnset sample.toolsOff ""
        demo.configured).1 <> inl emptyRequestError.
Proof.
  pose proof (main_generate_run (golib := demo.lib) (flaglib := demo.flags)
                "gemini-cli" ["--model"; "gemini-2.5-pro"; "text"; "hello"]
                (demo.flagsOf "gemini-2.5-pro" "") ["text"; "hello"]
                [ParsedPart.mk "text" "hello"] demo.configured
                eq_refl ltac:(discriminate) eq_refl
                ltac:(left; discriminate)) as H.
  assert (loadAPIKey (golib := demo.lib) demo.configured
          = (inr "AIzaSy-k3y", demo.configured)) as Hl by (vm_compute; reflexivity).
  rewrite Hl in H. exact H.
Defined.

Lemma main_needs_key_witness :
  exists code w',
    main (golib := demo.lib) (flaglib := demo.flags) "gemini-cli"
      ["list-models"] demo.world = (inl code, w')
    /\ sent w' = sent demo.world /\ stdout w' = stdout demo.world
    /\ sameFiles demo.world w'.
Proof.
  apply (main_needs_key (golib := demo.lib) (flaglib := demo.flags)
           "gemini-cli" "list-models" [] demo.world
           "config file not found at /home/u/.config/gemini-cli/config.json. Run 'set-config --key YOUR_KEY' first").
  - by right.
  - vm_compute. reflexivity.
Defined.

Lemma set_config_then_use_witness :
  main (golib := demo.lib) (flaglib := demo.flags) "gemini-cli"
    ["list-models"] demo.configured
  = handleListModels (golib := demo.lib) "AIzaSy-k3y" demo.configured.
Proof.
  refine (proj2 (set_config_then_use (golib := demo.lib) (flaglib := demo.flags)
                   "gemini-cli" "AIzaSy-k3y" ["--key"; "AIzaSy-k3y"] [] demo.world
                   demo.configured eq_refl _ _) [] [] eq_refl).
  - intros data [= <-]. vm_compute. reflexivity.
  - vm_compute. reflexivity.
Defined.

Lemma main_exit_status_witness :
  main (golib := demo.lib) (flaglib := demo.flags) "gemini-cli"
    ["generate"; "--help"] demo.world
  = (inl 0, printed (usageText (flaglib := demo.flags) "gemini-cli" "generate")
              demo.world)
  /\ main (golib := demo.lib) (flaglib := demo.flags) "gemini-cli"
       ["generate"; "--temperature"; "hot"] demo.world
     = (inl 2, printed (("invalid value for flag -temperature" +:+ nl)
                        :: usageText (flaglib := demo.flags) "gemini-cli" "generate")
                 demo.world)
  /\ main (golib := demo.lib) (flaglib := demo.flags) "gemini-cli"
       ["set-config"; "--help"] demo.world
     = (inl 0, printed ["Usage of set-config:" +:+ nl; "  -key string" +:+ nl]
                 demo.world)
  /\ main (golib := demo.lib) (flaglib := demo.flags) "gemini-cli"
       ["models"] demo.world
     = (inl 1, printed (topLevelHelp "gemini-cli") demo.world)
  /\ main (golib := demo.lib) (flaglib := demo.flags) "gemini-cli" [] demo.world
     = (inl 1, printed (topLevelHelp "gemini-cli") demo.world).
Proof.
  split_and!.
  - exact (main_exit_status (golib := demo.lib) (flaglib := demo.flags)
             "gemini-cli" ["generate"; "--help"] demo.world).
  - exact (main_exit_status (golib := demo.lib) (flaglib := demo.flags)
             "gemini-cli" ["generate"; "--temperature"; "hot"] demo.world).
  - exact (main_exit_status (golib := demo.lib) (flaglib := demo.flags)
             "gemini-cli" ["set-config"; "--help"] demo.world).
  - exact (main_exit_status (golib := demo.lib) (flaglib := demo.flags)
             "gemini-cli" ["models"] demo.world).
  - exact (main_exit_status (golib := demo.lib) (flaglib := demo.flags)
             "gemini-cli" [] demo.world).
Defined.
